(** * TaskManager: the credential store, the task store and the note
    extraction pipeline of [database.py], [auth.py] and [app.py].

    The SQLite tables are modelled as lists of rows kept in rowid order,
    Python dictionaries as finite maps with string keys, and the three
    collaborators the code calls but does not define (the SHA-256 digest,
    the JSON decoder and the generative model) as section variables. *)

From Stdlib Require Import ZArith Ascii String List Lia Bool.
From stdpp Require Import gmap strings list sorting pretty.

Local Open Scope Z_scope.

(** ** Python string methods used by the sources

    A [string] is a sequence of code points below 256, so [ascii] stands
    for a Latin-1 character. *)
Module PyStr.

Definition code (c : ascii) : Z := Z.of_nat (nat_of_ascii c).

Definition chr (z : Z) : ascii := ascii_of_nat (Z.to_nat z).

(** [c.isspace()] *)
Definition isspace (c : ascii) : bool :=
  let n := code c in
  ((9 <=? n) && (n <=? 13)) || ((28 <=? n) && (n <=? 32))
  || (n =? 133) || (n =? 160).

(** [c.isupper()] *)
Definition isupper (c : ascii) : bool :=
  let n := code c in
  ((65 <=? n) && (n <=? 90))
  || ((192 <=? n) && (n <=? 222) && negb (n =? 215)).

(** [c.islower()] *)
Definition islower (c : ascii) : bool :=
  let n := code c in
  ((97 <=? n) && (n <=? 122))
  || ((223 <=? n) && (n <=? 255) && negb (n =? 247))
  || (n =? 170) || (n =? 181) || (n =? 186).

(** [c.isdigit()] *)
Definition isdigit (c : ascii) : bool :=
  let n := code c in
  ((48 <=? n) && (n <=? 57)) || (n =? 178) || (n =? 179) || (n =? 185).

(** the decimal digits, [0-9] *)
Definition is_dec (c : ascii) : bool :=
  let n := code c in (48 <=? n) && (n <=? 57).

Definition lower_char (c : ascii) : ascii :=
  if isupper c then chr (code c + 32) else c.

(** [s.lower()] *)
Fixpoint lower (s : string) : string :=
  match s with
  | EmptyString => EmptyString
  | String c s' => String (lower_char c) (lower s')
  end.

(** [any(p(c) for c in s)] *)
Fixpoint any (p : ascii -> bool) (s : string) : bool :=
  match s with
  | EmptyString => false
  | String c s' => p c || any p s'
  end.

Fixpoint lstrip_by (p : ascii -> bool) (s : string) : string :=
  match s with
  | EmptyString => EmptyString
  | String c s' => if p c then lstrip_by p s' else s
  end.

Definition rstrip_by (p : ascii -> bool) (s : string) : string :=
  String.rev (lstrip_by p (String.rev s)).

Definition strip_by (p : ascii -> bool) (s : string) : string :=
  rstrip_by p (lstrip_by p s).

(** [s.strip()] *)
Definition strip (s : string) : string := strip_by isspace s.

(** [s.strip(chars)] *)
Definition strip_chars (chars : string) (s : string) : string :=
  strip_by (fun c => any (Ascii.eqb c) chars) s.

(** [s.startswith(p)] *)
Definition startswith (p s : string) : bool := String.prefix p s.

(** [sub in s] *)
Fixpoint contains (sub s : string) : bool :=
  String.prefix sub s
  || match s with
     | EmptyString => false
     | String _ s' => contains sub s'
     end.

(** [s[n:]] *)
Fixpoint drop (n : nat) (s : string) : string :=
  match n, s with
  | O, _ => s
  | S _, EmptyString => EmptyString
  | S n', String _ s' => drop n' s'
  end.

(** [s.split(sep)] for a non-empty [sep]: [cur] holds the piece being
    read, reversed, and [skip] the characters of a separator just found
    that are still to be passed over. *)
Fixpoint split_go (sep s : string) (skip : nat) (cur : string)
  : list string :=
  match s with
  | EmptyString => [String.rev cur]
  | String c s' =>
      match skip with
      | S k => split_go sep s' k cur
      | O =>
          if String.prefix sep s
          then String.rev cur
               :: split_go sep s' (Nat.pred (String.length sep))
                    EmptyString
          else split_go sep s' O (String c cur)
      end
  end.

Definition split (sep s : string) : list string :=
  split_go sep s O EmptyString.

(** [len(s)] *)
Definition len (s : string) : Z := Z.of_nat (String.length s).

End PyStr.

(** ** Calendar dates, [datetime.date] and the two [strftime]/[strptime]
    formats the sources use *)
Module Calendar.

Record date := mkDate { year : Z; month : Z; day : Z }.

Record datetime := mkDateTime { on : date; hour : Z; minute : Z }.

Definition MINYEAR : Z := 1.
Definition MAXYEAR : Z := 9999.

Definition is_leap (y : Z) : bool :=
  (y mod 4 =? 0) && (negb (y mod 100 =? 0) || (y mod 400 =? 0)).

Definition days_in_month (y m : Z) : Z :=
  if m =? 2 then (if is_leap y then 29 else 28)
  else if (m =? 4) || (m =? 6) || (m =? 9) || (m =? 11) then 30
  else 31.

(** the check made by the [date] constructor *)
Definition valid_date (d : date) : bool :=
  (MINYEAR <=? year d) && (year d <=? MAXYEAR)
  && (1 <=? month d) && (month d <=? 12)
  && (1 <=? day d) && (day d <=? days_in_month (year d) (month d)).

Definition valid_datetime (t : datetime) : bool :=
  valid_date (on t)
  && (0 <=? hour t) && (hour t <=? 23)
  && (0 <=? minute t) && (minute t <=? 59).

(** [d1 < d2] on dates *)
Definition date_ltb (d1 d2 : date) : bool :=
  (year d1 <? year d2)
  || ((year d1 =? year d2)
      && ((month d1 <? month d2)
          || ((month d1 =? month d2) && (day d1 <? day d2)))).

(** [d + timedelta(days=1)]; [None] is the [OverflowError] raised past
    the last representable day *)
Definition add_one_day (d : date) : option date :=
  if day d <? days_in_month (year d) (month d)
  then Some (mkDate (year d) (month d) (day d + 1))
  else if month d <? 12
  then Some (mkDate (year d) (month d + 1) 1)
  else if year d <? MAXYEAR
  then Some (mkDate (year d + 1) 1 1)
  else None.

Definition digit (n : Z) : ascii := PyStr.chr (48 + n mod 10).

Definition two_digits (n : Z) : string :=
  String (digit (n / 10)) (String (digit n) EmptyString).

Definition four_digits (n : Z) : string :=
  String (digit (n / 1000)) (String (digit (n / 100))
    (String (digit (n / 10)) (String (digit n) EmptyString))).

(** [d.strftime('%d-%m-%Y')] *)
Definition strftime_dmy (d : date) : string :=
  two_digits (day d) +:+ "-" +:+ two_digits (month d) +:+ "-"
  +:+ four_digits (year d).

(** [t.strftime('%d-%m-%Y %H:%M')] *)
Definition strftime_dmy_hm (t : datetime) : string :=
  strftime_dmy (on t) +:+ " " +:+ two_digits (hour t) +:+ ":"
  +:+ two_digits (minute t).

Definition digit_val (c : ascii) : Z := PyStr.code c - 48.

(** the directive [%d]: [3[0-1]|[1-2]\d|0[1-9]|[1-9]| [1-9]] *)
Definition day_field (s : string) : option Z :=
  match s with
  | String a (String b EmptyString) =>
      let x := digit_val a in
      let y := digit_val b in
      if PyStr.is_dec a && PyStr.is_dec b
      then (if (1 <=? 10 * x + y) && (10 * x + y <=? 31)
            then Some (10 * x + y) else None)
      else if (PyStr.code a =? 32) && PyStr.is_dec b && (1 <=? y)
      then Some y else None
  | String a EmptyString =>
      if PyStr.is_dec a && (1 <=? digit_val a)
      then Some (digit_val a) else None
  | _ => None
  end.

(** the directive [%m]: [1[0-2]|0[1-9]|[1-9]] *)
Definition month_field (s : string) : option Z :=
  match s with
  | String a (String b EmptyString) =>
      let v := 10 * digit_val a + digit_val b in
      if PyStr.is_dec a && PyStr.is_dec b && (1 <=? v) && (v <=? 12)
      then Some v else None
  | String a EmptyString =>
      if PyStr.is_dec a && (1 <=? digit_val a)
      then Some (digit_val a) else None
  | _ => None
  end.

(** the directive [%Y]: [\d\d\d\d] *)
Definition year_field (s : string) : option Z :=
  match s with
  | String a (String b (String c (String d EmptyString))) =>
      if PyStr.is_dec a && PyStr.is_dec b && PyStr.is_dec c
         && PyStr.is_dec d
      then Some (1000 * digit_val a + 100 * digit_val b
                 + 10 * digit_val c + digit_val d)
      else None
  | _ => None
  end.

(** [datetime.strptime(s, '%d-%m-%Y').date()]; [None] is the
    [ValueError] of a text that does not match or names no day *)
Definition strptime_dmy (s : string) : option date :=
  match PyStr.split "-" s with
  | [d; m; y] =>
      match day_field d, month_field m, year_field y with
      | Some d', Some m', Some y' =>
          let r := mkDate y' m' d' in
          if valid_date r then Some r else None
      | _, _, _ => None
      end
  | _ => None
  end.

End Calendar.


(** ** Exceptions, the [st.error] trace and the monad threading both *)

(** The exception classes the modelled code can meet; every one of them
    derives from [Exception]. *)
Inductive exn :=
| JSONDecodeError
| AttributeError
| IndexError
| KeyError
| TypeError
| OverflowError
| IntegrityError
| BindingError
| OtherException (what : string).

Definition is_JSONDecodeError (e : exn) : bool :=
  match e with JSONDecodeError => true | _ => false end.

Definition is_IntegrityError (e : exn) : bool :=
  match e with IntegrityError => true | _ => false end.

(** [except Exception] *)
Definition is_Exception (e : exn) : bool := true.

(** The messages handed to [st.error], one constructor per call site. *)
Inductive st_error :=
| NoGCPCredentials
| VertexInitError (e : exn)
| EmptyResponse
| QueryGeminiError (e : exn)
| MissingRequiredFields
| InvalidJSONFormat (e : exn)
| ParseTaskError (e : exn)
| DatabaseConnectionError (e : exn)
| ErrorSavingTask (e : exn)
| ErrorCompletingTask (e : exn)
| ErrorDeletingTask (e : exn)
| ErrorSavingTaskUI.

Inductive res (A : Type) :=
| Ok (a : A)
| Raise (e : exn).
Arguments Ok {A} a.
Arguments Raise {A} e.

(** A computation reports the [st.error] calls it made, in order, and
    either returns or raises. *)
Definition M (A : Type) : Type := list st_error * res A.

Definition ret {A} (a : A) : M A := ([], Ok a).

Definition raise {A} (e : exn) : M A := ([], Raise e).

Definition bind {A B} (m : M A) (f : A -> M B) : M B :=
  match m with
  | (l, Ok a) => let (l', r) := f a in (l ++ l', r)
  | (l, Raise e) => (l, Raise e)
  end.

Definition st_error_ (msg : st_error) : M unit := ([msg], Ok tt).

(** An [except C as e: h e] clause: the class test [C] and the handler. *)
Definition clause (A : Type) : Type := (exn -> bool) * (exn -> M A).

(** the first clause whose class the exception belongs to *)
Fixpoint select {A} (cs : list (clause A)) (e : exn) : option (exn -> M A) :=
  match cs with
  | [] => None
  | (C, h) :: cs' => if C e then Some h else select cs' e
  end.

(** [try: m except ...] *)
Definition try_except {A} (m : M A) (cs : list (clause A)) : M A :=
  match m with
  | (l, Raise e) =>
      match select cs e with
      | Some h => let (l', r) := h e in (l ++ l', r)
      | None => (l, Raise e)
      end
  | _ => m
  end.

Definition lift {A} (r : res A) : M A := ([], r).

Declare Scope M_scope.
Delimit Scope M_scope with M.
Notation "x <- m ;; k" := (bind m (fun x => k))
  (at level 100, m at next level, right associativity) : M_scope.
Notation "m ;;; k" := (bind m (fun _ => k))
  (at level 100, right associativity) : M_scope.
Local Open Scope M_scope.

(** ** JSON values, as [json.loads] returns them *)

Set Warnings "-register-all".

(** A float is kept as the literal it was read from: the program never
    computes with it. A string value is a [string], of code points below
    256; a [str] with other code points, among them the lone surrogates
    that [json.loads] reads from an escape and [sqlite3] cannot encode,
    is not among the values modelled. *)
Inductive json :=
| JNull
| JBool (b : bool)
| JInt (z : Z)
| JFloat (literal : string)
| JStr (s : string)
| JList (l : list json)
| JDict (d : gmap string json).

(** [o.get(key, default)] *)
Definition py_get (o : json) (key : string) (dflt : json) : res json :=
  match o with
  | JDict d => Ok (default dflt (d !! key))
  | _ => Raise AttributeError
  end.

Abbreviation pydict := (gmap string json).

(** [x.lower()] for a decoded value [x] *)
Definition py_lower (x : json) : res string :=
  match x with
  | JStr s => Ok (PyStr.lower s)
  | _ => Raise AttributeError
  end.

(** [l[i]] *)
Definition py_index {A} (l : list A) (i : nat) : res A :=
  match l !! i with
  | Some a => Ok a
  | None => Raise IndexError
  end.

(** [o[key]] for a string [key] *)
Definition py_item (o : json) (key : string) : res json :=
  match o with
  | JDict d => match d !! key with
               | Some v => Ok v
               | None => Raise KeyError
               end
  | _ => Raise TypeError
  end.

(** [o[key] = v] for a string [key] *)
Definition py_setitem (o : json) (key : string) (v : json) : res json :=
  match o with
  | JDict d => Ok (JDict (<[key := v]> d))
  | _ => Raise TypeError
  end.

(** [key in d] *)
Definition py_in (key : string) (d : pydict) : bool :=
  bool_decide (is_Some (d !! key)).

(** the truth value of [o], as tested by [if o:]; the program applies
    the test to what [parse_task] returns, [None] or a dictionary, so a
    float, kept as its literal, is not examined for being zero *)
Definition py_truthy (o : json) : bool :=
  match o with
  | JNull => false
  | JBool b => b
  | JInt z => negb (z =? 0)
  | JFloat _ => true
  | JStr s => negb (bool_decide (s = ""))
  | JList l => negb (bool_decide (length l = O))
  | JDict d => negb (bool_decide (d = ∅))
  end.

(** ** [app.py]: the note extraction pipeline and the overdue check *)
Module App.

Import Calendar.

Definition dq : string := String (PyStr.chr 34) EmptyString.
Definition nl : string := String (PyStr.chr 10) EmptyString.

Definition system_prompt : string :=
  "You are a task parsing assistant. Extract structured information from notes and return it in JSON format." +:+ nl +:+
  "Return only a valid JSON object without any additional text or formatting." +:+ nl +:+
  nl +:+
  "Format your response exactly like this example:" +:+ nl +:+
  "{" +:+ dq +:+ "task" +:+ dq +:+ ": " +:+ dq +:+ "Send project report" +:+ dq +:+ ", "
    +:+ dq +:+ "customer" +:+ dq +:+ ": " +:+ dq +:+ "John" +:+ dq +:+ ", "
    +:+ dq +:+ "due_date" +:+ dq +:+ ": " +:+ dq +:+ "14-11-2024" +:+ dq +:+ ", "
    +:+ dq +:+ "priority" +:+ dq +:+ ": " +:+ dq +:+ "Medium" +:+ dq +:+ "}" +:+ nl +:+
  nl +:+
  "Rules:" +:+ nl +:+
  "- Task should be very brief and to the point" +:+ nl +:+
  "- To whom the job intended should be the customer name" +:+ nl +:+
  "- Convert the dates from words like today or tomorrow carefully from current date and return in DD-MM-YYYY format" +:+ nl +:+
  "- Return ONLY the JSON object, no other text" +:+ nl +:+
  "- If no date is mentioned, use tomorrow's date" +:+ nl +:+
  "- If no priority indicators, use " +:+ dq +:+ "Medium" +:+ dq +:+ nl +:+
  "- If no person is mentioned, use " +:+ dq +:+ "Unspecified" +:+ dq +:+ nl +:+
  "- Priority can only be " +:+ dq +:+ "High" +:+ dq +:+ ", " +:+ dq +:+ "Medium" +:+ dq
    +:+ ", or " +:+ dq +:+ "Low" +:+ dq +:+ nl +:+
  "- Date format must be DD-MM-YYYY" +:+ nl.

Definition user_prompt (note : string) : string :=
  system_prompt +:+ nl +:+ nl +:+ "Note to parse: " +:+ note +:+ nl +:+ nl
  +:+ "Response (JSON only):".

Definition required_fields : list string :=
  ["task"; "customer"; "due_date"; "priority"].

(** [model.generate_content(prompt)] followed by [response.text]: the
    call or the attribute may raise, the response or its text may be
    missing. *)
Definition generative_model : Type := string -> res (option string).

(** What [init_vertex_ai] finds: no credentials among the secrets, a
    failing initialisation, or a model. *)
Inductive vertex_ai :=
| NoSecrets
| InitFails (e : exn)
| Model (generate_content : generative_model).

Definition init_vertex_ai (v : vertex_ai) : M (option generative_model) :=
  match v with
  | NoSecrets => st_error_ NoGCPCredentials ;;; ret None
  | InitFails e => st_error_ (VertexInitError e) ;;; ret None
  | Model g => ret (Some g)
  end.

Definition query_gemini (v : vertex_ai) (prompt : string)
  : M (option string) :=
  try_except
    (model <- init_vertex_ai v ;;
     response <- match model with
                 | Some generate_content => lift (generate_content prompt)
                 | None => raise AttributeError
                 end ;;
     match response with
     | None => st_error_ EmptyResponse ;;; ret None
     | Some text =>
         if bool_decide (text = "")
         then st_error_ EmptyResponse ;;; ret None
         else ret (Some text)
     end)
    [(is_Exception,
      fun e => st_error_ (QueryGeminiError e) ;;; ret None)].

(** lines 107-112: the JSON text inside an optional code fence *)
Definition unwrap (response : string) : M string :=
  response <-
    (if PyStr.contains "```" response
     then response <- lift (py_index (PyStr.split "```" response) 1) ;;
          if PyStr.startswith "json" response
          then ret (PyStr.drop 4 response)
          else ret response
     else ret response) ;;
  ret (PyStr.strip (PyStr.strip_chars "`" response)).

(** lines 117-120: a due date that is the word tomorrow becomes the
    day after [now] *)
Definition handle_date (now : datetime) (parsed : json) : M json :=
  due <- lift (py_get parsed "due_date" (JStr "")) ;;
  low <- lift (py_lower due) ;;
  if bool_decide (low = "tomorrow")
  then match add_one_day (on now) with
       | Some tomorrow =>
           lift (py_setitem parsed "due_date"
                   (JStr (strftime_dmy tomorrow)))
       | None => raise OverflowError
       end
  else ret parsed.

(** [field in parsed]; [parsed] is a dictionary where this is asked,
    [handle_date] having returned *)
Definition has_field (parsed : json) (field : string) : bool :=
  match parsed with
  | JDict d => py_in field d
  | _ => false
  end.

Section Pipeline.

(** [json.loads] *)
Variable json_loads : string -> res json.

Variable vertex : vertex_ai.

Definition parse_task (now : datetime) (note : string)
  : M (option json) :=
  try_except
    (response <- query_gemini vertex (user_prompt note) ;;
     match response with
     | None => ret None
     | Some response =>
         if bool_decide (response = "") then ret None else
         response <- unwrap (PyStr.strip response) ;;
         parsed <- lift (json_loads response) ;;
         parsed <- handle_date now parsed ;;
         if forallb (has_field parsed) required_fields
         then ret (Some parsed)
         else st_error_ MissingRequiredFields ;;; ret None
     end)
    [(is_JSONDecodeError,
      fun e => st_error_ (InvalidJSONFormat e) ;;; ret None);
     (is_Exception,
      fun e => st_error_ (ParseTaskError e) ;;; ret None)].

End Pipeline.

(** [check_overdue], the clock being the argument [now]; [None] stands
    for an argument that is not a string *)
Definition check_overdue (now : datetime) (due_date_str : option string)
  : bool :=
  match due_date_str with
  | Some s =>
      match strptime_dmy s with
      | Some due => date_ltb due (on now)
      | None => false
      end
  | None => false
  end.

End App.

(** ** [auth.py]: the password policy *)
Module Auth.

Definition validate_password (password : string) : bool * string :=
  if PyStr.len password <? 8
  then (false, "Password must be at least 8 characters long")
  else if negb (PyStr.any PyStr.isupper password)
  then (false, "Password must contain at least one uppercase letter")
  else if negb (PyStr.any PyStr.islower password)
  then (false, "Password must contain at least one lowercase letter")
  else if negb (PyStr.any PyStr.isdigit password)
  then (false, "Password must contain at least one number")
  else (true, "").

End Auth.

(** ** [database.py]: the two SQLite tables and [TaskDB] *)
Module Users.
(** a row of [users] *)
Record row := mk
  { id : Z; email : string; password : string; created_at : string }.
End Users.

Module Tasks.
(** a row of [tasks]; [None] is SQL [NULL] *)
Record row := mk
  { id : Z;
    user_id : Z;
    task : string;
    customer : option string;
    due_date : option string;
    priority : option string;
    status : string;
    completion_date : option string;
    created_at : string }.
End Tasks.

Module Identity.
(** the dictionary [verify_user] returns *)
Record t := mk { id : Z; email : string }.
End Identity.

Module TaskDict.
(** the dictionaries [get_tasks] returns *)
Record t := mk
  { id : Z;
    task : string;
    customer : option string;
    due_date : option string;
    priority : option string;
    completion_date : option string }.
End TaskDict.

Module Database.

Import Calendar.

(** [tasks_seq] is the entry of [sqlite_sequence] for [tasks], the
    largest id [AUTOINCREMENT] has handed out. *)
Record database := mkDatabase
  { users : list Users.row;
    tasks : list Tasks.row;
    tasks_seq : Z }.

(** the tables [init_database] creates *)
Definition init_database : database :=
  {| users := []; tasks := []; tasks_seq := 0 |}.

(** The file behind a [TaskDB] and what [sqlite3.connect] does on it:
    [Some e] when it raises [e]. *)
Record TaskDB := mkTaskDB
  { connect : option exn;
    data : database }.

Definition with_data (self : TaskDB) (d : database) : TaskDB :=
  {| connect := connect self; data := d |}.

(** What the two clocks read during a call: [datetime.now()] and
    SQLite's [CURRENT_TIMESTAMP]. *)
Record clock := mkClock
  { now : datetime;
    CURRENT_TIMESTAMP : string }.

Definition get_connection (self : TaskDB) : M (option database) :=
  match connect self with
  | None => ret (Some (data self))
  | Some e => st_error_ (DatabaseConnectionError e) ;;; ret None
  end.

(** *** SQLite values *)

Inductive sqlite_value :=
| SqlNull
| SqlInteger (z : Z)
| SqlReal (literal : string)
| SqlText (s : string).

(** the integers SQLite holds: 64 bits, signed *)
Definition fits_int64 (z : Z) : bool := (- 2 ^ 63 <=? z) && (z <? 2 ^ 63).

(** how [sqlite3] binds a Python [int] to a [?] *)
Definition bind_int (z : Z) : res Z :=
  if fits_int64 z then Ok z else Raise OverflowError.

(** how [sqlite3] binds a Python value to a [?]; the strings are those
    of the model, of code points below 256, which UTF-8 encodes *)
Definition bind_param (v : json) : res sqlite_value :=
  match v with
  | JNull => Ok SqlNull
  | JBool b => Ok (SqlInteger (if b then 1 else 0))
  | JInt z => match bind_int z with
              | Ok z => Ok (SqlInteger z)
              | Raise e => Raise e
              end
  | JFloat x => Ok (SqlReal x)
  | JStr s => Ok (SqlText s)
  | JList _ | JDict _ => Raise BindingError
  end.

Definition max_id (ids : list Z) : Z := foldr Z.max 0 ids.

(** the rowid of a new [users] row *)
Definition next_user_id (db : database) : Z :=
  1 + max_id (Users.id <$> users db).

(** the rowid of a new [tasks] row *)
Definition next_task_id (db : database) : Z :=
  1 + Z.max (tasks_seq db) (max_id (Tasks.id <$> tasks db)).

(** [ORDER BY due_date]: [NULL] first, then the texts compared
    character by character *)
Definition due_le (a b : option string) : Prop :=
  match a, b with
  | None, _ => True
  | Some _, None => False
  | Some x, Some y => String.le x y
  end.

Definition row_le (r1 r2 : Tasks.row) : Prop :=
  due_le (Tasks.due_date r1) (Tasks.due_date r2).

Global Instance due_le_dec : RelDecision due_le.
Proof. intros [x|] [y|]; simpl; apply _. Defined.

Global Instance row_le_dec : RelDecision row_le.
Proof. intros r1 r2. unfold row_le. apply _. Defined.

Definition to_dict (r : Tasks.row) : TaskDict.t :=
  {| TaskDict.id := Tasks.id r;
     TaskDict.task := Tasks.task r;
     TaskDict.customer := Tasks.customer r;
     TaskDict.due_date := Tasks.due_date r;
     TaskDict.priority := Tasks.priority r;
     TaskDict.completion_date := Tasks.completion_date r |}.

(** [WHERE user_id=? AND status=?] *)
Definition owned_with_status (user_id : Z) (status : string)
    (r : Tasks.row) : Prop :=
  Tasks.user_id r = user_id ∧ Tasks.status r = status.

Global Instance owned_with_status_dec u s r :
  Decision (owned_with_status u s r).
Proof. unfold owned_with_status. apply _. Defined.

(** [WHERE id=? AND user_id=?] *)
Definition is_task_of (task_id user_id : Z) (r : Tasks.row) : Prop :=
  Tasks.id r = task_id ∧ Tasks.user_id r = user_id.

Global Instance is_task_of_dec t u r : Decision (is_task_of t u r).
Proof. unfold is_task_of. apply _. Defined.

(** [SET status='completed', completion_date=?] *)
Definition set_completed (completion_date : string) (r : Tasks.row)
  : Tasks.row :=
  {| Tasks.id := Tasks.id r;
     Tasks.user_id := Tasks.user_id r;
     Tasks.task := Tasks.task r;
     Tasks.customer := Tasks.customer r;
     Tasks.due_date := Tasks.due_date r;
     Tasks.priority := Tasks.priority r;
     Tasks.status := "completed";
     Tasks.completion_date := Some completion_date;
     Tasks.created_at := Tasks.created_at r |}.

Section Store.

(** [hashlib.sha256(b).hexdigest()] of the encoded text *)
Variable sha256_hexdigest : string -> string.

(** the text SQLite keeps for a float put in a [TEXT] column,
    [None] for the [NULL] it keeps for a NaN *)
Variable real_text : string -> option string.

(** the value a [TEXT] column keeps *)
Definition text_affinity (v : sqlite_value) : option string :=
  match v with
  | SqlNull => None
  | SqlInteger z => Some (pretty z)
  | SqlReal x => real_text x
  | SqlText s => Some s
  end.

Definition hash_password (password : string) : string :=
  sha256_hexdigest password.

(** [INSERT INTO users (email, password) VALUES (?, ?)] *)
Definition insert_user (clk : clock) (email password : string)
    (db : database) : res database :=
  if bool_decide (Exists (fun r => Users.email r = email) (users db))
  then Raise IntegrityError
  else Ok {| users := users db
                      ++ [Users.mk (next_user_id db) email password
                            (CURRENT_TIMESTAMP clk)];
             tasks := tasks db;
             tasks_seq := tasks_seq db |}.

Definition register_user (clk : clock) (email password : string)
    (self : TaskDB) : M (bool * TaskDB) :=
  r <- try_except
         (conn <- get_connection self ;;
          match conn with
          | Some db =>
              let hashed_password := hash_password password in
              db' <- lift (insert_user clk email hashed_password db) ;;
              ret (Some (true, with_data self db'))
          | None => ret None
          end)
         [(is_IntegrityError, fun _ => ret (Some (false, self)))] ;;
  match r with
  | Some out => ret out
  | None => ret (false, self)
  end.

(** [SELECT id, email FROM users WHERE email=? AND password=?] and
    [fetchone] *)
Definition select_user (email password : string) (db : database)
  : option Users.row :=
  List.find
    (fun r => bool_decide (Users.email r = email
                           ∧ Users.password r = password))
    (users db).

Definition verify_user (email password : string) (self : TaskDB)
  : M (option Identity.t) :=
  conn <- get_connection self ;;
  match conn with
  | Some db =>
      let hashed_password := hash_password password in
      match select_user email hashed_password db with
      | Some user =>
          ret (Some (Identity.mk (Users.id user) (Users.email user)))
      | None => ret None
      end
  | None => ret None
  end.

(** [INSERT INTO tasks (user_id, task, customer, due_date, priority)
    VALUES (?, ?, ?, ?, ?)] *)
Definition insert_task (clk : clock) (user_id : Z)
    (task customer due_date priority : json) (db : database)
  : res database :=
  match bind_int user_id with
  | Raise e => Raise e
  | Ok user_id =>
      match bind_param task, bind_param customer, bind_param due_date,
            bind_param priority with
      | Ok t, Ok c, Ok d, Ok p =>
          match text_affinity t with
          | None => Raise IntegrityError
          | Some t' =>
              let id := next_task_id db in
              Ok {| users := users db;
                    tasks := tasks db
                             ++ [Tasks.mk id user_id t' (text_affinity c)
                                   (text_affinity d) (text_affinity p)
                                   "active" None (CURRENT_TIMESTAMP clk)];
                    tasks_seq := id |}
          end
      | Raise e, _, _, _ => Raise e
      | _, Raise e, _, _ => Raise e
      | _, _, Raise e, _ => Raise e
      | _, _, _, Raise e => Raise e
      end
  end.

Definition save_task (clk : clock) (user_id : Z) (task_data : json)
    (self : TaskDB) : M (bool * TaskDB) :=
  conn <- get_connection self ;;
  match conn with
  | Some db =>
      try_except
        (task <- lift (py_item task_data "task") ;;
         customer <- lift (py_item task_data "customer") ;;
         due_date <- lift (py_item task_data "due_date") ;;
         priority <- lift (py_item task_data "priority") ;;
         db' <- lift (insert_task clk user_id task customer due_date
                        priority db) ;;
         ret (true, with_data self db'))
        [(is_Exception,
          fun e => st_error_ (ErrorSavingTask e) ;;; ret (false, self))]
  | None => ret (false, self)
  end.

(** [SELECT id, task, customer, due_date, priority, completion_date
    FROM tasks WHERE user_id=? AND status=? ORDER BY due_date] and
    [fetchall] *)
Definition select_tasks (user_id : Z) (status : string) (db : database)
  : list Tasks.row :=
  merge_sort row_le (filter (owned_with_status user_id status) (tasks db)).

Definition get_tasks (user_id : Z) (status : string) (self : TaskDB)
  : M (list TaskDict.t) :=
  conn <- get_connection self ;;
  match conn with
  | Some db =>
      user_id <- lift (bind_int user_id) ;;
      ret (to_dict <$> select_tasks user_id status db)
  | None => ret []
  end.

(** [UPDATE tasks SET status='completed', completion_date=?
    WHERE id=? AND user_id=?] *)
Definition update_completed (completion_date : string)
    (task_id user_id : Z) (db : database) : database :=
  {| users := users db;
     tasks := (fun r => if decide (is_task_of task_id user_id r)
                        then set_completed completion_date r else r)
              <$> tasks db;
     tasks_seq := tasks_seq db |}.

Definition complete_task (clk : clock) (user_id task_id : Z)
    (self : TaskDB) : M (bool * TaskDB) :=
  conn <- get_connection self ;;
  match conn with
  | Some db =>
      try_except
        (let completion_date := strftime_dmy_hm (now clk) in
         task_id <- lift (bind_int task_id) ;;
         user_id <- lift (bind_int user_id) ;;
         let db' := update_completed completion_date task_id user_id db in
         ret (true, with_data self db'))
        [(is_Exception,
          fun e => st_error_ (ErrorCompletingTask e) ;;;
                   ret (false, self))]
  | None => ret (false, self)
  end.

(** [DELETE FROM tasks WHERE id=? AND user_id=?] *)
Definition delete_from_tasks (task_id user_id : Z) (db : database)
  : database :=
  {| users := users db;
     tasks := filter (fun r => ¬ is_task_of task_id user_id r) (tasks db);
     tasks_seq := tasks_seq db |}.

Definition delete_task (user_id task_id : Z) (self : TaskDB)
  : M (bool * TaskDB) :=
  conn <- get_connection self ;;
  match conn with
  | Some db =>
      try_except
        (task_id <- lift (bind_int task_id) ;;
         user_id <- lift (bind_int user_id) ;;
         let db' := delete_from_tasks task_id user_id db in
         ret (true, with_data self db'))
        [(is_Exception,
          fun e => st_error_ (ErrorDeletingTask e) ;;; ret (false, self))]
  | None => ret (false, self)
  end.

End Store.

End Database.

(** ** A decoder for the JSON texts used in the examples

    It reads objects, arrays, strings without escapes, integers and the
    three literals, and rejects every other text, among them the floats
    and escaped strings [json.loads] would read. That is enough to run the
    pipeline on the responses below; the pipeline itself is stated over
    any [json.loads]. *)
Module Decoder.

Local Open Scope char_scope.

Definition is_ws (c : ascii) : bool :=
  match c with
  | " " | "009" | "010" | "013" => true
  | _ => false
  end.

Definition skip_ws (s : string) : string := PyStr.lstrip_by is_ws s.

(** the characters up to the closing quote *)
Fixpoint read_string (s : string) : option (string * string) :=
  match s with
  | EmptyString => None
  | String "034" r => Some (EmptyString, r)
  | String "\" _ => None
  | String c r =>
      if (PyStr.code c <? 32)%Z then None else
      match read_string r with
      | Some (t, r') => Some (String c t, r')
      | None => None
      end
  end.

Fixpoint read_digits (s : string) (acc : Z) : Z * string :=
  match s with
  | String c r =>
      if PyStr.is_dec c
      then read_digits r (10 * acc + Calendar.digit_val c)%Z
      else (acc, s)
  | EmptyString => (acc, s)
  end.

Definition starts_fraction (s : string) : bool :=
  match s with
  | String "." _ | String "e" _ | String "E" _ => true
  | _ => false
  end.

(** an integer: [0] or a digit string with no leading zero *)
Definition read_int (s : string) : option (Z * string) :=
  match s with
  | String "0" r => if starts_fraction r then None else Some (0%Z, r)
  | String c _ =>
      if PyStr.is_dec c
      then let (n, r) := read_digits s 0%Z in
           if starts_fraction r then None else Some (n, r)
      else None
  | EmptyString => None
  end.

Definition literal (word : string) (v : json) (s : string)
  : option (json * string) :=
  if String.prefix word s
  then Some (v, PyStr.drop (String.length word) s)
  else None.

Fixpoint value (fuel : nat) (s : string) : option (json * string) :=
  match fuel with
  | O => None
  | S f =>
      match skip_ws s with
      | String "{" r =>
          match skip_ws r with
          | String "}" r' => Some (JDict ∅, r')
          | _ => members f r ∅
          end
      | String "[" r =>
          match skip_ws r with
          | String "]" r' => Some (JList [], r')
          | _ => elements f r []
          end
      | String "034" r =>
          match read_string r with
          | Some (t, r') => Some (JStr t, r')
          | None => None
          end
      | String "-" r =>
          match read_int r with
          | Some (n, r') => Some (JInt (- n), r')
          | None => None
          end
      | String "t" _ => literal "true" (JBool true) (skip_ws s)
      | String "f" _ => literal "false" (JBool false) (skip_ws s)
      | String "n" _ => literal "null" JNull (skip_ws s)
      | s' =>
          match read_int s' with
          | Some (n, r') => Some (JInt n, r')
          | None => None
          end
      end
  end
with members (fuel : nat) (s : string) (acc : pydict)
  : option (json * string) :=
  match fuel with
  | O => None
  | S f =>
      match skip_ws s with
      | String "034" r =>
          match read_string r with
          | Some (k, r1) =>
              match skip_ws r1 with
              | String ":" r2 =>
                  match value f r2 with
                  | Some (v, r3) =>
                      match skip_ws r3 with
                      | String "," r4 => members f r4 (<[k := v]> acc)
                      | String "}" r4 => Some (JDict (<[k := v]> acc), r4)
                      | _ => None
                      end
                  | None => None
                  end
              | _ => None
              end
          | None => None
          end
      | _ => None
      end
  end
with elements (fuel : nat) (s : string) (acc : list json)
  : option (json * string) :=
  match fuel with
  | O => None
  | S f =>
      match value f s with
      | Some (v, r) =>
          match skip_ws r with
          | String "," r' => elements f r' (acc ++ [v])
          | String "]" r' => Some (JList (acc ++ [v]), r')
          | _ => None
          end
      | None => None
      end
  end.

Definition json_loads (s : string) : res json :=
  match value (S (String.length s)) s with
  | Some (v, r) =>
      match skip_ws r with
      | EmptyString => Ok v
      | _ => Raise JSONDecodeError
      end
  | None => Raise JSONDecodeError
  end.

End Decoder.

(** ** [main]: the task form, and the runs of the application *)
Module Main.

Import Calendar App Database.

Section Application.

Variable json_loads : string -> res json.
Variable vertex : vertex_ai.
Variable sha256_hexdigest : string -> string.
Variable real_text : string -> option string.

(** lines 179-190 of [main]: a submitted note is parsed and, when a
    task comes back, saved for the logged-in user *)
Definition task_form (clk : clock) (user : Identity.t)
    (submitted : bool) (note_input : string) (db : TaskDB)
  : M TaskDB :=
  if submitted && negb (bool_decide (note_input = ""))
  then
    parsed_task <- parse_task json_loads vertex (now clk) note_input ;;
    match parsed_task with
    | Some task_data =>
        if py_truthy task_data
        then
          saved <- save_task real_text clk (Identity.id user)
                     task_data db ;;
          if saved.1 then ret saved.2
          else st_error_ ErrorSavingTaskUI ;;; ret saved.2
        else ret db
    | None => ret db
    end
  else ret db.

(** One interaction with the application, or a change in what
    [sqlite3.connect] does. Tasks are written by the task form only. *)
Inductive step : TaskDB -> TaskDB -> Prop :=
| step_register clk email password db l b db' :
    register_user sha256_hexdigest clk email password db
    = (l, Ok (b, db')) ->
    step db db'
| step_task_form clk user submitted note db l db' :
    task_form clk user submitted note db = (l, Ok db') ->
    step db db'
| step_complete clk user_id task_id db l b db' :
    complete_task clk user_id task_id db = (l, Ok (b, db')) ->
    step db db'
| step_delete user_id task_id db l b db' :
    delete_task user_id task_id db = (l, Ok (b, db')) ->
    step db db'
| step_connect c db :
    step db (mkTaskDB c (data db)).

(** the stores the application can reach from the empty tables *)
Definition reachable (db : TaskDB) : Prop :=
  exists c, rtc step (mkTaskDB c init_database) db.

End Application.

End Main.

(** * Properties *)

(** ** Splitting a text *)
Module PyStrFacts.

Lemma split_go_step sep c s cur :
  PyStr.split_go sep (String c s) O cur
  = if String.prefix sep (String c s)
    then String.rev cur
         :: PyStr.split_go sep s (Nat.pred (String.length sep)) EmptyString
    else PyStr.split_go sep s O (String c cur).
Proof. reflexivity. Qed.

End PyStrFacts.

(** ** The task store *)
Module TaskStoreFacts.

Import Calendar Database.

Lemma database_eta (db : database) :
  {| users := users db; tasks := tasks db; tasks_seq := tasks_seq db |} = db.
Proof. by destruct db. Qed.

Lemma with_data_same (self : TaskDB) : with_data self (data self) = self.
Proof. by destruct self. Qed.

(** An [UPDATE] whose [WHERE] matches no row changes nothing. *)
Lemma update_completed_no_match date task_id user_id db :
  Forall (fun r => ¬ is_task_of task_id user_id r) (tasks db) ->
  update_completed date task_id user_id db = db.
Proof.
  intros Hno. unfold update_completed.
  rewrite <- (database_eta db) at 4. f_equal.
  induction Hno as [|r rs Hr _ IH]; [done|].
  rewrite fmap_cons, IH. by rewrite decide_False.
Qed.

Lemma bind_int_Ok z : fits_int64 z = true -> bind_int z = Ok z.
Proof. intros H. unfold bind_int. by rewrite H. Qed.

Lemma bind_int_Raise z :
  fits_int64 z = false -> bind_int z = Raise OverflowError.
Proof. intros H. unfold bind_int. by rewrite H. Qed.

Lemma bind_int_inv z z' : bind_int z = Ok z' -> z' = z ∧ fits_int64 z = true.
Proof. unfold bind_int. destruct (fits_int64 z); [|done]. by intros [= <-]. Qed.

(** What [complete_task] does in general: with a connection and ids
    that SQLite can hold, the rows selected by the [WHERE] are marked and
    the answer is [True]. *)
Lemma complete_task_connected clk user_id task_id self :
  connect self = None ->
  fits_int64 task_id = true ->
  fits_int64 user_id = true ->
  complete_task clk user_id task_id self
  = ([], Ok (true,
             with_data self
               (update_completed (strftime_dmy_hm (now clk)) task_id
                  user_id (data self)))).
Proof.
  intros Hc Ht Hu. unfold complete_task, get_connection. rewrite Hc.
  by rewrite (bind_int_Ok _ Ht), (bind_int_Ok _ Hu).
Qed.

(** an id that SQLite cannot hold makes the [UPDATE] raise *)
Lemma complete_task_overflow clk user_id task_id self :
  connect self = None ->
  fits_int64 task_id && fits_int64 user_id = false ->
  complete_task clk user_id task_id self
  = ([ErrorCompletingTask OverflowError], Ok (false, self)).
Proof.
  intros Hc Hf. unfold complete_task, get_connection, bind_int. rewrite Hc.
  destruct (fits_int64 task_id); [|done].
  by destruct (fits_int64 user_id).
Qed.

Lemma complete_task_disconnected clk user_id task_id self e :
  connect self = Some e ->
  complete_task clk user_id task_id self
  = ([DatabaseConnectionError e], Ok (false, self)).
Proof. intros Hc. unfold complete_task, get_connection. by rewrite Hc. Qed.

(** the two ways [complete_task] ends *)
Lemma complete_task_cases clk user_id task_id self :
  (exists l, complete_task clk user_id task_id self = (l, Ok (false, self)))
  ∨ (connect self = None
     ∧ fits_int64 task_id = true ∧ fits_int64 user_id = true
     ∧ complete_task clk user_id task_id self
       = ([], Ok (true,
                  with_data self
                    (update_completed (strftime_dmy_hm (now clk)) task_id
                       user_id (data self))))).
Proof.
  destruct (connect self) as [e|] eqn:Hc.
  - left. eexists. by apply complete_task_disconnected.
  - destruct (fits_int64 task_id && fits_int64 user_id) eqn:Hf.
    + apply andb_true_iff in Hf as [Ht Hu]. right.
      split; [done|]. split; [done|]. split; [done|].
      by apply complete_task_connected.
    + left. eexists. by apply complete_task_overflow.
Qed.

Lemma delete_task_connected user_id task_id self :
  connect self = None ->
  fits_int64 task_id = true ->
  fits_int64 user_id = true ->
  delete_task user_id task_id self
  = ([], Ok (true,
             with_data self (delete_from_tasks task_id user_id (data self)))).
Proof.
  intros Hc Ht Hu. unfold delete_task, get_connection. rewrite Hc.
  by rewrite (bind_int_Ok _ Ht), (bind_int_Ok _ Hu).
Qed.

Lemma delete_task_disconnected user_id task_id self e :
  connect self = Some e ->
  delete_task user_id task_id self
  = ([DatabaseConnectionError e], Ok (false, self)).
Proof. intros Hc. unfold delete_task, get_connection. by rewrite Hc. Qed.

(** an id that SQLite cannot hold makes the [DELETE] raise *)
Lemma delete_task_overflow user_id task_id self :
  connect self = None ->
  fits_int64 task_id && fits_int64 user_id = false ->
  delete_task user_id task_id self
  = ([ErrorDeletingTask OverflowError], Ok (false, self)).
Proof.
  intros Hc Hf. unfold delete_task, get_connection, bind_int. rewrite Hc.
  destruct (fits_int64 task_id); [|done].
  by destruct (fits_int64 user_id).
Qed.

(** the two ways [delete_task] ends *)
Lemma delete_task_cases user_id task_id self :
  (exists l, delete_task user_id task_id self = (l, Ok (false, self)))
  ∨ (connect self = None
     ∧ fits_int64 task_id = true ∧ fits_int64 user_id = true
     ∧ delete_task user_id task_id self
       = ([], Ok (true,
                  with_data self
                    (delete_from_tasks task_id user_id (data self))))).
Proof.
  destruct (connect self) as [e|] eqn:Hc.
  - left. eexists. by apply delete_task_disconnected.
  - destruct (fits_int64 task_id && fits_int64 user_id) eqn:Hf.
    + apply andb_true_iff in Hf as [Ht Hu]. right.
      split; [done|]. split; [done|]. split; [done|].
      by apply delete_task_connected.
    + left. eexists. by apply delete_task_overflow.
Qed.

(** [get_tasks] with a connection: the selected rows as dictionaries,
    or [OverflowError] for a user id SQLite cannot hold *)
Lemma get_tasks_connected user_id status self :
  connect self = None ->
  fits_int64 user_id = true ->
  get_tasks user_id status self
  = ([], Ok (to_dict <$> select_tasks user_id status (data self))).
Proof.
  intros Hc Hu. unfold get_tasks, get_connection. rewrite Hc. simpl.
  by rewrite (bind_int_Ok _ Hu).
Qed.

Lemma get_tasks_overflow user_id status self :
  connect self = None ->
  fits_int64 user_id = false ->
  get_tasks user_id status self = ([], Raise OverflowError).
Proof.
  intros Hc Hu. unfold get_tasks, get_connection. rewrite Hc. simpl.
  by rewrite (bind_int_Raise _ Hu).
Qed.

Lemma get_tasks_disconnected user_id status self e :
  connect self = Some e ->
  get_tasks user_id status self = ([DatabaseConnectionError e], Ok []).
Proof. intros Hc. unfold get_tasks, get_connection. by rewrite Hc. Qed.

Definition sample_clock : clock :=
  mkClock (mkDateTime (mkDate 2024 11 13) 9 30) "2024-11-13 08:30:00".

(** a task of user 2, and nothing else *)
Definition other_users_task : Tasks.row :=
  Tasks.mk 1 2 "Send project report" (Some "John") (Some "14-11-2024")
    (Some "Medium") "active" None "2024-11-12 10:00:00".

Definition sample_store : TaskDB :=
  mkTaskDB None
    {| users := []; tasks := [other_users_task]; tasks_seq := 1 |}.

(** C1, as stated, fails: user 1 completing task 1, which user 2
    owns, and completing task 7, which does not exist, both leave the
    store as it was and both answer [True], not failure. *)
Lemma complete_task_foreign_reports_success :
  Forall (fun r => ¬ is_task_of 1 1 r) (tasks (data sample_store))
  ∧ complete_task sample_clock 1 1 sample_store
    = ([], Ok (true, sample_store))
  ∧ Forall (fun r => Tasks.id r ≠ 7) (tasks (data sample_store))
  ∧ complete_task sample_clock 1 7 sample_store
    = ([], Ok (true, sample_store)).
Proof.
  repeat split.
  - repeat constructor. intros [_ H]. discriminate H.
  - repeat constructor. intros H. discriminate H.
Qed.

(** C1, amended: when task [task_id] does not exist or belongs to a
    user other than [user_id], [complete_task] leaves the whole store,
    and so every field of every task, unchanged. It answers [True],
    showing nothing, exactly when the connection opens and both ids are
    integers SQLite can hold; it answers [False] when the connection does
    not open, and when an id is outside that range, the [UPDATE] then
    raising [OverflowError] into the [except] clause. *)
Theorem complete_task_not_owned clk user_id task_id self :
  (forall r, r ∈ tasks (data self) -> Tasks.id r = task_id ->
             Tasks.user_id r ≠ user_id) ->
  exists l b,
    complete_task clk user_id task_id self = (l, Ok (b, self))
    ∧ (b = true
       <-> connect self = None
           ∧ fits_int64 task_id = true ∧ fits_int64 user_id = true)
    ∧ l = match connect self with
          | Some e => [DatabaseConnectionError e]
          | None => if b then [] else [ErrorCompletingTask OverflowError]
          end.
Proof.
  intros Hown.
  assert (Forall (fun r => ¬ is_task_of task_id user_id r)
            (tasks (data self))) as Hno.
  { apply Forall_forall. intros r Hr [Hid Hu]. by apply (Hown r). }
  destruct (connect self) as [e|] eqn:Hc.
  - exists [DatabaseConnectionError e], false. split; [|split; [|done]].
    + by apply complete_task_disconnected.
    + split; [discriminate|]. by intros [? _].
  - destruct (fits_int64 task_id && fits_int64 user_id) eqn:Hf.
    + apply andb_true_iff in Hf as [Ht Hu].
      exists [], true. split; [|split; [|done]].
      * rewrite complete_task_connected by done.
        rewrite update_completed_no_match by done.
        by rewrite with_data_same.
      * split; [intros _; repeat split; assumption|done].
    + exists [ErrorCompletingTask OverflowError], false.
      split; [|split; [|done]].
      * by apply complete_task_overflow.
      * split; [discriminate|]. intros (_ & Ht & Hu).
        by rewrite Ht, Hu in Hf.
Qed.

Lemma complete_task_not_owned_witness :
  exists l b,
    complete_task sample_clock 1 1 sample_store
    = (l, Ok (b, sample_store))
    ∧ (b = true
       <-> connect sample_store = None
           ∧ fits_int64 1 = true ∧ fits_int64 1 = true)
    ∧ l = match connect sample_store with
          | Some e => [DatabaseConnectionError e]
          | None => if b then [] else [ErrorCompletingTask OverflowError]
          end.
Proof.
  apply (complete_task_not_owned sample_clock 1 1 sample_store).
  intros r Hr _. apply list_elem_of_singleton in Hr. by subst r.
Defined.

End TaskStoreFacts.

(** ** The credential store *)
Module CredentialFacts.

Import Calendar Database.

Section Credentials.

Variable sha256_hexdigest : string -> string.

Local Abbreviation hash_password := (hash_password sha256_hexdigest).
Local Abbreviation register_user := (register_user sha256_hexdigest).
Local Abbreviation verify_user := (verify_user sha256_hexdigest).

Definition matches (email digest : string) (r : Users.row) : Prop :=
  Users.email r = email ∧ Users.password r = digest.

Lemma select_user_Some email digest db r :
  select_user email digest db = Some r ->
  r ∈ users db ∧ matches email digest r.
Proof.
  unfold select_user. intros H. apply find_some in H as [Hin Hm].
  split; [by apply list_elem_of_In|].
  by apply bool_decide_eq_true in Hm.
Qed.

Lemma select_user_None email digest db :
  select_user email digest db = None <->
  forall r, r ∈ users db -> ¬ matches email digest r.
Proof.
  unfold select_user. split.
  - intros H r Hr Hm. apply list_elem_of_In in Hr.
    pose proof (find_none _ _ H r Hr) as Hf.
    apply bool_decide_eq_false in Hf. by apply Hf.
  - intros H. induction (users db) as [|x l IH]; [done|]. simpl.
    rewrite bool_decide_eq_false_2.
    + apply IH. intros r Hr. apply H. by right.
    + apply (H x). by left.
Qed.

(** the row found when only the last one matches *)
Lemma select_user_last email digest us ts seq new :
  (forall r, r ∈ us -> Users.email r ≠ email) ->
  matches email digest new ->
  select_user email digest (mkDatabase (us ++ [new]) ts seq) = Some new.
Proof.
  intros Hfresh Hnew. unfold select_user. simpl.
  induction us as [|x l IH]; simpl.
  - by rewrite bool_decide_eq_true_2.
  - rewrite bool_decide_eq_false_2.
    + apply IH. intros r Hr. apply Hfresh. by right.
    + intros [He _]. apply (Hfresh x); [by left|done].
Qed.

Lemma verify_user_connected email password self :
  connect self = None ->
  verify_user email password self
  = ([], Ok (match select_user email (hash_password password) (data self)
             with
             | Some user =>
                 Some (Identity.mk (Users.id user) (Users.email user))
             | None => None
             end)).
Proof.
  intros Hc. unfold Database.verify_user, get_connection. rewrite Hc. simpl.
  by destruct (select_user _ _ _).
Qed.

(** the [UNIQUE] constraint on [email] *)
Lemma insert_user_duplicate clk email digest db :
  (exists r, r ∈ users db ∧ Users.email r = email) ->
  insert_user clk email digest db = Raise IntegrityError.
Proof.
  intros Hdup. unfold insert_user.
  rewrite bool_decide_eq_true_2; [done|]. by apply Exists_exists.
Qed.

Lemma insert_user_fresh clk email digest db :
  (forall r, r ∈ users db -> Users.email r ≠ email) ->
  insert_user clk email digest db
  = Ok (mkDatabase
          (users db ++ [Users.mk (next_user_id db) email digest
                          (CURRENT_TIMESTAMP clk)])
          (tasks db) (tasks_seq db)).
Proof.
  intros Hfresh. unfold insert_user.
  rewrite bool_decide_eq_false_2; [done|].
  intros (r & Hr & He)%Exists_exists. by apply (Hfresh r).
Qed.

(** C3: a password that satisfies the policy and an email no stored user
    has: with the database reachable, [register_user] answers [True], and
    [verify_user] with the same credentials then returns the identity of
    the row just written, whose email is the registered one. *)
Theorem register_then_verify clk email password self :
  Auth.validate_password password = (true, "") ->
  connect self = None ->
  (forall r, r ∈ users (data self) -> Users.email r ≠ email) ->
  exists self',
    register_user clk email password self = ([], Ok (true, self'))
    ∧ verify_user email password self'
      = ([], Ok (Some (Identity.mk (next_user_id (data self)) email)))
    ∧ Users.mk (next_user_id (data self)) email (hash_password password)
        (CURRENT_TIMESTAMP clk) ∈ users (data self').
Proof.
  intros _ Hc Hfresh.
  eexists. split; [|split].
  - unfold Database.register_user, get_connection. rewrite Hc. simpl.
    rewrite insert_user_fresh by done. simpl. reflexivity.
  - rewrite verify_user_connected by done. simpl.
    rewrite (select_user_last email _ _ _ _ _ Hfresh); [done|].
    by split.
  - simpl. apply elem_of_app. right. by left.
Qed.

(** C7: with the database reachable, [verify_user] returns an identity
    exactly when some stored row has both the email and the digest of the
    password, and the identity is that of such a row; an email no row has
    and a password whose digest is not the stored one both give [None],
    with nothing to tell the two apart. *)
Theorem verify_user_iff email password self :
  connect self = None ->
  ((exists ident, verify_user email password self = ([], Ok (Some ident)))
   <-> exists r, r ∈ users (data self)
                 ∧ matches email (hash_password password) r)
  ∧ (forall l ident,
       verify_user email password self = (l, Ok (Some ident)) ->
       Identity.email ident = email
       ∧ exists r, r ∈ users (data self)
                   ∧ matches email (hash_password password) r
                   ∧ Identity.id ident = Users.id r)
  ∧ ((forall r, r ∈ users (data self) -> Users.email r ≠ email) ->
     verify_user email password self = ([], Ok None))
  ∧ ((forall r, r ∈ users (data self) -> Users.email r = email ->
                Users.password r ≠ hash_password password) ->
     verify_user email password self = ([], Ok None)).
Proof.
  intros Hc. rewrite verify_user_connected by done.
  destruct (select_user email (hash_password password) (data self))
    as [u|] eqn:Hsel.
  - apply select_user_Some in Hsel as [Hin [He Hp]].
    split; [|split; [|split]].
    + split; [intros _; by exists u | intros _; by eexists].
    + intros l ident [= <- <-]. simpl. split; [done|]. by exists u.
    + intros Hno. by destruct (Hno u Hin).
    + intros Hno. by destruct (Hno u Hin He).
  - pose proof (proj1 (select_user_None _ _ _) Hsel) as Hnone.
    split; [|split; [|split]]; try done.
    split; [by intros [? [=]] | intros (r & Hr & Hm); by destruct (Hnone r)].
Qed.

(** C8: when a stored user already has the email, the [INSERT] violates
    the uniqueness of [email], and [register_user] answers [False] and
    leaves the store, the existing row included, as it was. *)
Theorem register_user_duplicate clk email password self :
  (exists r, r ∈ users (data self) ∧ Users.email r = email) ->
  insert_user clk email (hash_password password) (data self)
  = Raise IntegrityError
  ∧ exists l, register_user clk email password self = (l, Ok (false, self)).
Proof.
  intros Hdup. split; [by apply insert_user_duplicate|].
  unfold Database.register_user, get_connection.
  destruct (connect self) as [e|]; simpl.
  - by eexists.
  - rewrite insert_user_duplicate by done. simpl. by eexists.
Qed.

End Credentials.

(** a stand-in for the digest, to run the store on concrete users *)
Definition sample_digest (s : string) : string := "digest of " +:+ s.

Definition ann : Users.row :=
  Users.mk 1 "ann@example.com" (sample_digest "Passw0rd")
    "2024-11-12 10:00:00".

Definition one_user : TaskDB :=
  mkTaskDB None {| users := [ann]; tasks := []; tasks_seq := 0 |}.

Lemma register_then_verify_witness :
  exists self',
    register_user sample_digest TaskStoreFacts.sample_clock
      "bob@example.com" "Secr3tPass" one_user
    = ([], Ok (true, self'))
    ∧ verify_user sample_digest "bob@example.com" "Secr3tPass" self'
      = ([], Ok (Some (Identity.mk 2 "bob@example.com")))
    ∧ Users.mk 2 "bob@example.com" (sample_digest "Secr3tPass")
        "2024-11-13 08:30:00" ∈ users (data self').
Proof.
  apply (register_then_verify sample_digest TaskStoreFacts.sample_clock
           "bob@example.com" "Secr3tPass" one_user).
  - reflexivity.
  - reflexivity.
  - intros r Hr. apply list_elem_of_singleton in Hr. by subst r.
Defined.

Lemma verify_user_iff_witness :
  verify_user sample_digest "ann@example.com" "Passw0rd" one_user
  = ([], Ok (Some (Identity.mk 1 "ann@example.com")))
  ∧ verify_user sample_digest "ann@example.com" "passw0rd" one_user
    = ([], Ok None)
  ∧ verify_user sample_digest "eve@example.com" "Passw0rd" one_user
    = ([], Ok None).
Proof.
  split; [reflexivity|]. split.
  - apply (verify_user_iff sample_digest "ann@example.com" "passw0rd"
             one_user eq_refl).
    intros r Hr _. apply list_elem_of_singleton in Hr. by subst r.
  - apply (verify_user_iff sample_digest "eve@example.com" "Passw0rd"
             one_user eq_refl).
    intros r Hr. apply list_elem_of_singleton in Hr. by subst r.
Defined.

Lemma register_user_duplicate_witness :
  exists l,
    register_user sample_digest TaskStoreFacts.sample_clock
      "ann@example.com" "An0therPass" one_user
    = (l, Ok (false, one_user)).
Proof.
  apply (register_user_duplicate sample_digest TaskStoreFacts.sample_clock
           "ann@example.com" "An0therPass" one_user).
  exists ann. split; [by apply list_elem_of_singleton|reflexivity].
Defined.

End CredentialFacts.

(** ** Listing the tasks *)
Module ListingFacts.

Import Calendar Database.

Global Instance due_le_total : Total due_le.
Proof.
  intros [x|] [y|]; simpl; auto.
  destruct (String.le_total x y); auto.
Qed.

Global Instance due_le_trans : Transitive due_le.
Proof.
  intros [x|] [y|] [z|]; simpl; try done.
  intros Hxy Hyz. by trans y.
Qed.

Global Instance row_le_total : Total row_le.
Proof. intros r1 r2. unfold row_le. apply due_le_total. Qed.

Global Instance row_le_trans : Transitive row_le.
Proof. intros r1 r2 r3. unfold row_le. apply due_le_trans. Qed.

(** the order of two returned dictionaries *)
Definition dict_le (a b : TaskDict.t) : Prop :=
  due_le (TaskDict.due_date a) (TaskDict.due_date b).

Lemma select_tasks_sorted user_id status db :
  StronglySorted row_le (select_tasks user_id status db).
Proof. unfold select_tasks. apply StronglySorted_merge_sort; apply _. Qed.

Lemma select_tasks_perm user_id status db :
  select_tasks user_id status db
  ≡ₚ filter (owned_with_status user_id status) (tasks db).
Proof. unfold select_tasks. apply merge_sort_Permutation. Qed.

(** two tasks of user 1, entered in calendar order *)
Definition report : Tasks.row :=
  Tasks.mk 1 1 "Send project report" (Some "John") (Some "14-11-2024")
    (Some "Medium") "active" None "2024-11-01 10:00:00".

Definition invoice : Tasks.row :=
  Tasks.mk 2 1 "Send invoice" (Some "Mary") (Some "05-12-2024")
    (Some "High") "active" None "2024-11-01 10:05:00".

Definition two_tasks : TaskDB :=
  mkTaskDB None
    {| users := []; tasks := [report; invoice]; tasks_seq := 2 |}.

(** the two tasks of user 1 among a task of user 2 and a completed task
    of user 1, both due earlier *)
Definition venue : Tasks.row :=
  Tasks.mk 3 2 "Book venue" (Some "Lee") (Some "01-01-2024") (Some "Low")
    "active" None "2024-11-01 10:10:00".

Definition expenses : Tasks.row :=
  Tasks.mk 4 1 "File expenses" (Some "Kim") (Some "02-01-2024") (Some "Low")
    "completed" (Some "10-11-2024 09:00") "2024-11-01 10:15:00".

Definition four_tasks : TaskDB :=
  mkTaskDB None
    {| users := [];
       tasks := [report; invoice; venue; expenses];
       tasks_seq := 4 |}.

(** The order the claim names, written out: the texts are compared
    character by character on their code points, a text coming before
    the texts it begins. *)
Fixpoint text_le (x y : string) : bool :=
  match x, y with
  | EmptyString, _ => true
  | String _ _, EmptyString => false
  | String a x', String b y' =>
      (PyStr.code a <? PyStr.code b)
      || ((PyStr.code a =? PyStr.code b) && text_le x' y')
  end.

(** a missing due date before every text *)
Definition lexical_le (a b : option string) : Prop :=
  match a, b with
  | None, _ => True
  | Some _, None => False
  | Some x, Some y => text_le x y = true
  end.

Lemma code_N a : PyStr.code a = Z.of_N (N_of_ascii a).
Proof. unfold PyStr.code, nat_of_ascii. apply N_nat_Z. Qed.

Lemma text_le_leb x y : text_le x y = String.leb x y.
Proof.
  unfold String.leb. revert y.
  induction x as [|a x IH]; intros [|b y]; try done.
  simpl. rewrite IH. unfold Ascii.compare. rewrite !code_N.
  rewrite <- N2Z.inj_compare.
  destruct (Z.compare_spec (Z.of_N (N_of_ascii a)) (Z.of_N (N_of_ascii b)))
    as [Heq|Hlt|Hgt].
  - by rewrite Heq, Z.ltb_irrefl, Z.eqb_refl.
  - by rewrite (proj2 (Z.ltb_lt _ _) Hlt).
  - rewrite (proj2 (Z.ltb_ge _ _)) by lia.
    by rewrite (proj2 (Z.eqb_neq _ _)) by lia.
Qed.

(** [ORDER BY due_date] is that order *)
Lemma due_le_lexical a b : due_le a b <-> lexical_le a b.
Proof.
  destruct a as [x|], b as [y|]; simpl; try done.
  unfold String.le. rewrite text_le_leb. apply Is_true_true.
Qed.

Lemma StronglySorted_weaken {A} (R R' : A -> A -> Prop) (l : list A) :
  (forall x y, R x y -> R' x y) ->
  StronglySorted R l -> StronglySorted R' l.
Proof.
  intros HR. induction 1 as [|x l _ IH Hx]; constructor; [done|].
  eapply Forall_impl; [exact Hx|]. apply HR.
Qed.

(** C6: with the database reachable and a user id SQLite can hold,
    [get_tasks] returns one dictionary for each row whose [user_id] and
    [status] are the ones asked for, and for no other row; the dictionary
    carries the id, task, customer, due date, priority and completion
    date of its row; the dictionaries come in ascending order of the
    due-date text compared character by character. That is not the
    calendar order: of a task due on 14 November 2024 and one due on
    5 December 2024, the December one is listed first, and a task of
    another user and a task with another status are left out although
    they are due earlier. *)
Theorem get_tasks_lexical user_id status self :
  connect self = None ->
  fits_int64 user_id = true ->
  (exists l,
      get_tasks user_id status self = ([], Ok l)
      ∧ l ≡ₚ (fun r => TaskDict.mk (Tasks.id r) (Tasks.task r)
                         (Tasks.customer r) (Tasks.due_date r)
                         (Tasks.priority r) (Tasks.completion_date r))
             <$> filter (fun r => Tasks.user_id r = user_id
                                  ∧ Tasks.status r = status)
                   (tasks (data self))
      ∧ StronglySorted
          (fun a b => lexical_le (TaskDict.due_date a) (TaskDict.due_date b))
          l)
  ∧ lexical_le (Some "05-12-2024") (Some "14-11-2024")
  ∧ ¬ lexical_le (Some "14-11-2024") (Some "05-12-2024")
  ∧ (exists d1 d2,
        strptime_dmy "14-11-2024" = Some d1
        ∧ strptime_dmy "05-12-2024" = Some d2
        ∧ date_ltb d1 d2 = true)
  ∧ get_tasks 1 "active" four_tasks
    = ([], Ok [TaskDict.mk 2 "Send invoice" (Some "Mary") (Some "05-12-2024")
                 (Some "High") None;
               TaskDict.mk 1 "Send project report" (Some "John")
                 (Some "14-11-2024") (Some "Medium") None])
  ∧ get_tasks 1 "completed" four_tasks
    = ([], Ok [TaskDict.mk 4 "File expenses" (Some "Kim") (Some "02-01-2024")
                 (Some "Low") (Some "10-11-2024 09:00")]).
Proof.
  intros Hc Hu. split; [|split; [|split; [|split; [|split]]]].
  - exists (to_dict <$> select_tasks user_id status (data self)).
    split; [|split].
    + unfold get_tasks, get_connection. rewrite Hc. simpl.
      by rewrite (TaskStoreFacts.bind_int_Ok _ Hu).
    + rewrite select_tasks_perm. done.
    + apply (StronglySorted_weaken dict_le).
      * intros x y Hxy. by apply due_le_lexical.
      * apply (StronglySorted_fmap to_dict row_le dict_le).
        -- intros x y Hxy. exact Hxy.
        -- apply select_tasks_sorted.
  - by vm_compute.
  - by vm_compute.
  - do 2 eexists. split; [|split]; by vm_compute.
  - by vm_compute.
  - by vm_compute.
Qed.

Lemma get_tasks_lexical_witness :
  exists l,
    get_tasks 1 "active" four_tasks = ([], Ok l)
    ∧ l ≡ₚ (fun r => TaskDict.mk (Tasks.id r) (Tasks.task r)
                       (Tasks.customer r) (Tasks.due_date r)
                       (Tasks.priority r) (Tasks.completion_date r))
           <$> filter (fun r => Tasks.user_id r = 1
                                ∧ Tasks.status r = "active")
                 (tasks (data four_tasks))
    ∧ StronglySorted
        (fun a b => lexical_le (TaskDict.due_date a) (TaskDict.due_date b))
        l.
Proof.
  apply (get_tasks_lexical 1 "active" four_tasks); reflexivity.
Defined.

End ListingFacts.

(** ** The overdue check *)
Module OverdueFacts.

Import Calendar App.

Local Open Scope char_scope.

Lemma digit_facts n :
  PyStr.is_dec (digit n) = true
  ∧ digit_val (digit n) = (n mod 10)%Z
  ∧ digit n ≠ "-"
  ∧ PyStr.code (digit n) ≠ 32%Z.
Proof.
  unfold digit.
  pose proof (Z.mod_pos_bound n 10 eq_refl) as Hk.
  set (k := (n mod 10)%Z) in *.
  assert (k = 0 ∨ k = 1 ∨ k = 2 ∨ k = 3 ∨ k = 4 ∨ k = 5 ∨ k = 6 ∨ k = 7
          ∨ k = 8 ∨ k = 9)%Z as Hcases by lia.
  clearbody k.
  repeat (destruct Hcases as [-> | Hcases]); try subst k;
    (split; [reflexivity | split; [reflexivity | split; discriminate]]).
Qed.

Lemma prefix_dash c s :
  String.prefix "-" (String c s) = bool_decide (c = "-").
Proof.
  change (String.prefix "-" (String c s))
    with (match ascii_dec "-" c with
          | left _ => String.prefix EmptyString s
          | right _ => false
          end).
  destruct (ascii_dec "-" c) as [<-|Hne].
  - by destruct s.
  - by rewrite bool_decide_eq_false_2.
Qed.

Lemma split_go_dash s cur :
  PyStr.split_go "-" (String "-" s) O cur
  = String.rev cur :: PyStr.split_go "-" s O EmptyString.
Proof. by rewrite PyStrFacts.split_go_step, prefix_dash. Qed.

Lemma split_go_other c s cur :
  c ≠ "-" ->
  PyStr.split_go "-" (String c s) O cur
  = PyStr.split_go "-" s O (String c cur).
Proof.
  intros Hc. rewrite PyStrFacts.split_go_step, prefix_dash.
  by rewrite bool_decide_eq_false_2.
Qed.

Lemma split_strftime d :
  PyStr.split "-" (strftime_dmy d)
  = [two_digits (day d); two_digits (month d); four_digits (year d)].
Proof.
  unfold PyStr.split.
  cbv [strftime_dmy two_digits four_digits String.append].
  repeat first
    [ rewrite split_go_dash
    | rewrite split_go_other by apply digit_facts ].
  reflexivity.
Qed.

Lemma days_in_month_le y m : (28 <= days_in_month y m <= 31)%Z.
Proof.
  unfold days_in_month.
  repeat match goal with
         | |- context [if ?b then _ else _] => destruct b
         end; lia.
Qed.

Lemma day_field_two_digits n :
  (1 <= n <= 31)%Z -> day_field (two_digits n) = Some n.
Proof.
  intros Hn. unfold day_field, two_digits.
  destruct (digit_facts (n / 10)) as (-> & -> & _).
  destruct (digit_facts n) as (-> & -> & _). simpl.
  assert (10 * ((n / 10) mod 10) + n mod 10 = n)%Z as ->
    by (Z.div_mod_to_equations; lia).
  destruct (Z.leb_spec 1 n), (Z.leb_spec n 31); try lia. reflexivity.
Qed.

Lemma month_field_two_digits n :
  (1 <= n <= 12)%Z -> month_field (two_digits n) = Some n.
Proof.
  intros Hn. unfold month_field, two_digits.
  destruct (digit_facts (n / 10)) as (-> & -> & _).
  destruct (digit_facts n) as (-> & -> & _). simpl.
  assert (10 * ((n / 10) mod 10) + n mod 10 = n)%Z as ->
    by (Z.div_mod_to_equations; lia).
  destruct (Z.leb_spec 1 n), (Z.leb_spec n 12); try lia. reflexivity.
Qed.

Lemma year_field_four_digits n :
  (0 <= n <= 9999)%Z -> year_field (four_digits n) = Some n.
Proof.
  intros Hn. unfold year_field, four_digits.
  destruct (digit_facts (n / 1000)) as (-> & -> & _).
  destruct (digit_facts (n / 100)) as (-> & -> & _).
  destruct (digit_facts (n / 10)) as (-> & -> & _).
  destruct (digit_facts n) as (-> & -> & _). simpl. f_equal.
  Z.div_mod_to_equations; lia.
Qed.

Lemma valid_date_bounds d :
  valid_date d = true ->
  (1 <= year d <= 9999 ∧ 1 <= month d <= 12
   ∧ 1 <= day d <= days_in_month (year d) (month d))%Z.
Proof.
  unfold valid_date, MINYEAR, MAXYEAR.
  rewrite !andb_true_iff, !Z.leb_le. lia.
Qed.

(** [strptime] reads back what [strftime] writes. *)
Lemma strptime_strftime d :
  valid_date d = true -> strptime_dmy (strftime_dmy d) = Some d.
Proof.
  intros Hv. pose proof (valid_date_bounds d Hv) as (Hy & Hm & Hd).
  pose proof (days_in_month_le (year d) (month d)).
  unfold strptime_dmy. rewrite split_strftime.
  rewrite day_field_two_digits, month_field_two_digits,
    year_field_four_digits by lia.
  destruct d as [y m dd]. simpl in *. by rewrite Hv.
Qed.

Lemma date_ltb_irrefl d : date_ltb d d = false.
Proof.
  unfold date_ltb. by rewrite !Z.ltb_irrefl, !Z.eqb_refl.
Qed.

Local Close Scope char_scope.

(** C9: [check_overdue] is a function of the text and the clock. It is
    true exactly when the text parses, under [%d-%m-%Y], as a date
    strictly before today's; when the text does not parse it is false.
    A date written DD-MM-YYYY parses as itself, so a task due today is
    not overdue; 01-01-2000 is overdue on every later day and not-a-date
    never is. *)
Theorem check_overdue_spec now s :
  (check_overdue now (Some s) = true
   <-> exists due, strptime_dmy s = Some due
                   ∧ date_ltb due (on now) = true)
  ∧ (strptime_dmy s = None -> check_overdue now (Some s) = false)
  ∧ (forall d, valid_date d = true ->
       check_overdue now (Some (strftime_dmy d)) = date_ltb d (on now))
  ∧ (valid_date (on now) = true ->
     check_overdue now (Some (strftime_dmy (on now))) = false)
  ∧ (date_ltb (mkDate 2000 1 1) (on now) = true ->
     check_overdue now (Some "01-01-2000") = true)
  ∧ check_overdue now (Some "not-a-date") = false
  ∧ check_overdue now None = false.
Proof.
  split; [|split; [|split; [|split; [|split; [|split]]]]].
  - unfold check_overdue. destruct (strptime_dmy s) as [due|].
    + split; [intros H; by exists due | by intros (? & [= <-] & ?)].
    + split; [discriminate | by intros (? & [=] & _)].
  - intros H. unfold check_overdue. by rewrite H.
  - intros d Hv. unfold check_overdue. by rewrite strptime_strftime.
  - intros Hv. unfold check_overdue. rewrite strptime_strftime by done.
    apply date_ltb_irrefl.
  - intros H. exact H.
  - reflexivity.
  - reflexivity.
Qed.

Lemma check_overdue_spec_witness :
  check_overdue (mkDateTime (mkDate 2024 11 13) 9 30) (Some "12-11-2024")
  = date_ltb (mkDate 2024 11 12) (mkDate 2024 11 13)
  ∧ check_overdue (mkDateTime (mkDate 2024 11 13) 9 30) (Some "01-01-2000")
    = true.
Proof.
  split.
  - apply (check_overdue_spec (mkDateTime (mkDate 2024 11 13) 9 30)
             EmptyString).
    reflexivity.
  - apply (check_overdue_spec (mkDateTime (mkDate 2024 11 13) 9 30)
             EmptyString).
    reflexivity.
Defined.

End OverdueFacts.

(** ** The extraction pipeline *)
Module ExtractionFacts.

Import Calendar App.

(** *** Unwrapping *)

Lemma split_go_nonempty sep s skip cur :
  exists a l, PyStr.split_go sep s skip cur = a :: l.
Proof.
  revert skip cur. induction s as [|c s IH]; intros skip cur.
  - by eexists _, _.
  - destruct skip as [|k]; [|apply IH].
    rewrite PyStrFacts.split_go_step.
    destruct (String.prefix sep (String c s)); [by eexists _, _|apply IH].
Qed.

(** A text that contains the separator splits in two pieces at least. *)
Lemma split_go_contains sep s cur :
  sep ≠ EmptyString ->
  PyStr.contains sep s = true ->
  exists a b l, PyStr.split_go sep s O cur = a :: b :: l.
Proof.
  intros Hsep. revert cur. induction s as [|c s IH]; intros cur Hc.
  - destruct sep; [done|]. simpl in Hc. discriminate Hc.
  - rewrite PyStrFacts.split_go_step.
    destruct (String.prefix sep (String c s)) eqn:Hp.
    + destruct (split_go_nonempty sep s (Nat.pred (String.length sep))
                  EmptyString) as (b & l & ->).
      by eexists _, _, _.
    + apply IH. simpl in Hc. simpl in Hp. rewrite Hp in Hc. exact Hc.
Qed.

(** [unwrap] never fails: the index 1 is in range when there is a fence. *)
Lemma unwrap_returns response :
  exists r, unwrap response = ([], Ok r).
Proof.
  unfold unwrap. destruct (PyStr.contains "```" response) eqn:Hc.
  - destruct (split_go_contains "```" response EmptyString) as (a & b & l & Hs);
      [done|done|].
    unfold PyStr.split. rewrite Hs. simpl.
    destruct (PyStr.startswith "json" b); simpl; by eexists.
  - simpl. by eexists.
Qed.

(** *** The model call *)


Lemma query_gemini_model g prompt :
  query_gemini (Model g) prompt
  = match g prompt with
    | Raise e => ([QueryGeminiError e], Ok None)
    | Ok None => ([EmptyResponse], Ok None)
    | Ok (Some text) =>
        if bool_decide (text = EmptyString)
        then ([EmptyResponse], Ok None)
        else ([], Ok (Some text))
    end.
Proof.
  unfold query_gemini. simpl.
  destruct (g prompt) as [[text|]|e]; simpl; [|done|done].
  by case_bool_decide.
Qed.

(** [query_gemini] returns, and a text it returns is not empty. *)
Lemma query_gemini_returns v prompt :
  exists l r, query_gemini v prompt = (l, Ok r)
              ∧ (forall text, r = Some text ->
                   text ≠ EmptyString
                   ∧ l = []
                   ∧ exists g, v = Model g ∧ g prompt = Ok (Some text)).
Proof.
  destruct v as [|e|g].
  - by eexists _, _.
  - by eexists _, _.
  - rewrite query_gemini_model.
    destruct (g prompt) as [[text|]|e] eqn:Hg; [|by eexists _, _..].
    case_bool_decide; [by eexists _, _|].
    eexists _, _. split; [done|]. intros ? [= <-]. eauto.
Qed.

(** *** The due date *)


Lemma handle_date_not_dict now parsed :
  (forall d, parsed ≠ JDict d) ->
  handle_date now parsed = ([], Raise AttributeError).
Proof. intros H. destruct parsed; try done. by destruct (H d). Qed.

Lemma handle_date_absent now d :
  d !! "due_date" = None ->
  handle_date now (JDict d) = ([], Ok (JDict d)).
Proof. intros H. unfold handle_date. simpl. by rewrite H. Qed.

Lemma handle_date_not_str now d v :
  d !! "due_date" = Some v ->
  (forall s, v ≠ JStr s) ->
  handle_date now (JDict d) = ([], Raise AttributeError).
Proof.
  intros H Hv. unfold handle_date. simpl. rewrite H. simpl.
  destruct v; try done. by destruct (Hv s).
Qed.

Lemma handle_date_other now d s :
  d !! "due_date" = Some (JStr s) ->
  PyStr.lower s ≠ "tomorrow" ->
  handle_date now (JDict d) = ([], Ok (JDict d)).
Proof.
  intros H Hs. unfold handle_date. simpl. rewrite H. simpl.
  by rewrite bool_decide_eq_false_2.
Qed.

Lemma handle_date_tomorrow now d s :
  d !! "due_date" = Some (JStr s) ->
  PyStr.lower s = "tomorrow" ->
  handle_date now (JDict d)
  = match add_one_day (on now) with
    | Some tomorrow =>
        ([], Ok (JDict (<["due_date" := JStr (strftime_dmy tomorrow)]> d)))
    | None => ([], Raise OverflowError)
    end.
Proof.
  intros H Hs. unfold handle_date. simpl. rewrite H. simpl.
  rewrite bool_decide_eq_true_2 by done.
  by destruct (add_one_day (on now)).
Qed.

(** [handle_date] makes no [st.error] call, and what it returns is the
    dictionary it was given, with at most the due date replaced. *)
Lemma handle_date_inv now parsed l p :
  handle_date now parsed = (l, Ok p) ->
  l = []
  ∧ exists d, parsed = JDict d
    ∧ (p = JDict d
       ∨ exists t, p = JDict (<["due_date" := JStr t]> d)).
Proof.
  destruct parsed as [| | | | |?|d];
    try (rewrite handle_date_not_dict by done; discriminate).
  destruct (d !! "due_date") as [v|] eqn:Hd.
  - destruct v as [| | | |s| |];
      try (rewrite (handle_date_not_str now d _ Hd) by done; discriminate).
    destruct (decide (PyStr.lower s = "tomorrow")) as [Hs|Hs].
    + rewrite (handle_date_tomorrow now d s Hd Hs).
      destruct (add_one_day (on now)); [|discriminate].
      intros [= <- <-]. split; [done|]. exists d. split; [done|]. eauto.
    + rewrite (handle_date_other now d s Hd Hs).
      intros [= <- <-]. split; [done|]. exists d. eauto.
  - rewrite (handle_date_absent now d Hd).
    intros [= <- <-]. split; [done|]. exists d. eauto.
Qed.

Lemma handle_date_raises now parsed l e :
  handle_date now parsed = (l, Raise e) -> l = [].
Proof.
  unfold handle_date. destruct (py_get parsed "due_date" (JStr "")); simpl;
    [|by intros [= <- _]].
  destruct (py_lower a); simpl; [|by intros [= <- _]].
  case_bool_decide; [|discriminate].
  destruct (add_one_day (on now)); [|by intros [= <- _]].
  destruct (py_setitem parsed _ _); simpl; by intros [= <- _].
Qed.


(** *** [parse_task] *)

(** what the two [except] clauses of [parse_task] do with an exception *)
Definition reported (e : exn) : M (option json) :=
  ([if is_JSONDecodeError e then InvalidJSONFormat e else ParseTaskError e],
   Ok None).

Section Parse.

Variable json_loads : string -> res json.
Variable vertex : vertex_ai.

Local Abbreviation parse_task := (parse_task json_loads vertex).

Lemma parse_task_no_text now note l :
  query_gemini vertex (user_prompt note) = (l, Ok None) ->
  parse_task now note = (l, Ok None).
Proof.
  intros Hq. unfold App.parse_task. rewrite Hq. simpl.
  by rewrite app_nil_r.
Qed.

Lemma parse_task_text now note text r :
  query_gemini vertex (user_prompt note) = ([], Ok (Some text)) ->
  text ≠ EmptyString ->
  unwrap (PyStr.strip text) = ([], Ok r) ->
  parse_task now note
  = match json_loads r with
    | Raise e => reported e
    | Ok parsed =>
        match handle_date now parsed with
        | (_, Raise e) => reported e
        | (_, Ok p) =>
            if forallb (has_field p) required_fields
            then ([], Ok (Some p))
            else ([MissingRequiredFields], Ok None)
        end
    end.
Proof.
  intros Hq Hne Hu. unfold App.parse_task, reported. rewrite Hq. simpl.
  rewrite bool_decide_eq_false_2 by done. rewrite Hu. simpl.
  destruct (json_loads r) as [parsed|e]; simpl.
  - destruct (handle_date now parsed) as [l [p|e]] eqn:Hh; simpl.
    + apply handle_date_inv in Hh as [-> _].
      match goal with
      | |- context [if ?b then ret _ else _] => by destruct b
      end.
    + apply handle_date_raises in Hh as ->. simpl.
      by destruct (is_JSONDecodeError e).
  - by destruct (is_JSONDecodeError e).
Qed.

(** [parse_task] returns: no exception leaves it. *)
Lemma parse_task_returns now note :
  exists l r, parse_task now note = (l, Ok r).
Proof.
  destruct (query_gemini_returns vertex (user_prompt note))
    as (l & [text|] & Hq & Htext).
  - destruct (Htext text eq_refl) as (Hne & -> & _).
    destruct (unwrap_returns (PyStr.strip text)) as [r Hu].
    rewrite (parse_task_text now note text r Hq Hne Hu). unfold reported.
    destruct (json_loads r) as [parsed|e]; [|by eexists _, _].
    destruct (handle_date now parsed) as [l [p|e]]; [|by eexists _, _].
    destruct (forallb (has_field p) required_fields); by eexists _, _.
  - rewrite (parse_task_no_text now note l Hq). by eexists _, _.
Qed.

(** A task [parse_task] returns is the dictionary decoded from the
    model's answer, its due date possibly replaced, and it has the four
    required fields. *)
Lemma parse_task_Some now note l p :
  parse_task now note = (l, Ok (Some p)) ->
  exists g text r d0 d,
    vertex = Model g
    ∧ g (user_prompt note) = Ok (Some text)
    ∧ unwrap (PyStr.strip text) = ([], Ok r)
    ∧ json_loads r = Ok (JDict d0)
    ∧ p = JDict d
    ∧ (d = d0 ∨ exists t, d = <["due_date" := JStr t]> d0)
    ∧ Forall (fun f => is_Some (d !! f)) required_fields.
Proof.
  destruct (query_gemini_returns vertex (user_prompt note))
    as (l0 & [text|] & Hq & Htext).
  - destruct (Htext text eq_refl) as (Hne & -> & g & Hv & Hg).
    destruct (unwrap_returns (PyStr.strip text)) as [r Hu].
    rewrite (parse_task_text now note text r Hq Hne Hu). unfold reported.
    destruct (json_loads r) as [parsed|e] eqn:Hj; [|discriminate].
    destruct (handle_date now parsed) as [l1 [p'|e]] eqn:Hh; [|discriminate].
    destruct (forallb (has_field p') required_fields) eqn:Hall;
      [|discriminate].
    intros [= <- <-].
    apply handle_date_inv in Hh as (_ & d0 & -> & Hp).
    assert (exists d, p' = JDict d ∧
              (d = d0 ∨ exists t, d = <["due_date" := JStr t]> d0))
      as (d & -> & Hd).
    { destruct Hp as [-> | [t ->]]; eexists; eauto. }
    exists g, text, r, d0, d. repeat split; try done.
    apply Forall_forall. intros f Hf.
    rewrite forallb_forall in Hall. apply list_elem_of_In in Hf.
    specialize (Hall f Hf). simpl in Hall. unfold py_in in Hall.
    by apply bool_decide_eq_true in Hall.
  - rewrite (parse_task_no_text now note l0 Hq). discriminate.
Qed.

End Parse.

(** *** Tomorrow *)

Lemma add_one_day_is_Some d :
  year d < MAXYEAR -> is_Some (add_one_day d).
Proof.
  intros Hy. unfold add_one_day.
  destruct (day d <? days_in_month (year d) (month d)); [by eexists|].
  destruct (month d <? 12); [by eexists|].
  destruct (Z.ltb_spec (year d) MAXYEAR); [by eexists|lia].
Qed.

(** case analysis on every integer comparison of the goal *)
Ltac zcases :=
  repeat match goal with
         | |- context [Z.ltb ?a ?b] => destruct (Z.ltb_spec a b)
         | |- context [Z.leb ?a ?b] => destruct (Z.leb_spec a b)
         | |- context [Z.eqb ?a ?b] => destruct (Z.eqb_spec a b)
         end;
  simpl; try done; try lia.

(** The day [add_one_day] gives is the next one of the calendar: it is a
    date, it comes after [d], and no date lies between the two. *)
Lemma add_one_day_next d t :
  valid_date d = true ->
  add_one_day d = Some t ->
  valid_date t = true
  ∧ date_ltb d t = true
  ∧ forall x, valid_date x = true -> date_ltb d x = true ->
              date_ltb x t = false.
Proof.
  intros Hv Ha.
  pose proof (OverdueFacts.valid_date_bounds d Hv) as (Hy & Hm & Hd).
  destruct d as [y m dd]. simpl in *. unfold add_one_day in Ha. simpl in Ha.
  destruct (Z.ltb_spec dd (days_in_month y m)) as [Hlt|Hge].
  - injection Ha as <-. split; [|split].
    + unfold valid_date, MINYEAR, MAXYEAR. simpl.
      rewrite !andb_true_iff, !Z.leb_le. lia.
    + unfold date_ltb. simpl. zcases.
    + intros [xy xm xd] _. unfold date_ltb. simpl. zcases.
  - destruct (Z.ltb_spec m 12) as [Hm12|Hm12].
    + injection Ha as <-. split; [|split].
      * pose proof (OverdueFacts.days_in_month_le y (m + 1)).
        unfold valid_date, MINYEAR, MAXYEAR. simpl.
        rewrite !andb_true_iff, !Z.leb_le. lia.
      * unfold date_ltb. simpl. zcases.
      * intros [xy xm xd] Hx.
        apply OverdueFacts.valid_date_bounds in Hx as (Hxy & Hxm & Hxd).
        simpl in *. unfold date_ltb. simpl. zcases. subst. lia.
    + destruct (Z.ltb_spec y MAXYEAR) as [Hmax|Hmax]; [|discriminate].
      injection Ha as <-. unfold MAXYEAR in Hmax. split; [|split].
      * unfold valid_date, MINYEAR, MAXYEAR. simpl.
        change (days_in_month (y + 1) 1) with 31.
        rewrite !andb_true_iff, !Z.leb_le. lia.
      * unfold date_ltb. simpl. zcases.
      * intros [xy xm xd] Hx.
        apply OverdueFacts.valid_date_bounds in Hx as (Hxy & Hxm & Hxd).
        simpl in *. unfold date_ltb. simpl. zcases. subst. lia.
Qed.

Lemma strftime_dmy_length d : String.length (strftime_dmy d) = 10%nat.
Proof. reflexivity. Qed.

Lemma strftime_dmy_not_tomorrow d : strftime_dmy d ≠ "tomorrow".
Proof.
  intros H. apply (f_equal String.length) in H.
  rewrite strftime_dmy_length in H. discriminate H.
Qed.

(** the outcome of [parse_task] once the normalised dictionary is known *)
Definition validated (d : pydict) : M (option json) :=
  if forallb (fun f => py_in f d) required_fields
  then ([], Ok (Some (JDict d)))
  else ([MissingRequiredFields], Ok None).

(** C4: the model's answer decodes to a dictionary [d]. When its
    due date is a string that is the word tomorrow whatever the case of
    its letters, [handle_date] replaces it with the day after the clock's,
    written DD-MM-YYYY, which is never the word itself, and that is the
    due date of the task [parse_task] returns; the day exists as long as
    the clock has not reached the last year. When the due date is any
    other value, the step changes nothing whenever it returns, and it
    returns for an absent key and for every other string. *)
Theorem tomorrow_normalised json_loads g now note text r d :
  g (user_prompt note) = Ok (Some text) ->
  text ≠ EmptyString ->
  unwrap (PyStr.strip text) = ([], Ok r) ->
  json_loads r = Ok (JDict d) ->
  (forall s,
     d !! "due_date" = Some (JStr s) ->
     PyStr.lower s = "tomorrow" ->
     year (on now) < MAXYEAR ->
     exists tomorrow,
       add_one_day (on now) = Some tomorrow
       ∧ (valid_date (on now) = true ->
          valid_date tomorrow = true
          ∧ date_ltb (on now) tomorrow = true
          ∧ forall x, valid_date x = true -> date_ltb (on now) x = true ->
                      date_ltb x tomorrow = false)
       ∧ strftime_dmy tomorrow ≠ "tomorrow"
       ∧ handle_date now (JDict d)
         = ([], Ok (JDict (<["due_date" := JStr (strftime_dmy tomorrow)]> d)))
       ∧ parse_task json_loads (Model g) now note
         = validated (<["due_date" := JStr (strftime_dmy tomorrow)]> d))
  ∧ ((forall s, d !! "due_date" = Some (JStr s) ->
                PyStr.lower s ≠ "tomorrow") ->
     (forall l p, handle_date now (JDict d) = (l, Ok p) -> p = JDict d)
     ∧ (forall l p,
          parse_task json_loads (Model g) now note = (l, Ok (Some p)) ->
          p = JDict d)
     ∧ ((d !! "due_date" = None ∨ exists s, d !! "due_date" = Some (JStr s)) ->
        handle_date now (JDict d) = ([], Ok (JDict d))
        ∧ parse_task json_loads (Model g) now note = validated d))
  ∧ PyStr.lower "Tomorrow" = "tomorrow"
  ∧ PyStr.lower "TOMORROW" = "tomorrow".
Proof.
  intros Hg Hne Hu Hj.
  assert (query_gemini (Model g) (user_prompt note) = ([], Ok (Some text)))
    as Hq.
  { rewrite query_gemini_model, Hg. by rewrite bool_decide_eq_false_2. }
  pose proof (parse_task_text json_loads (Model g) now note text r Hq Hne Hu)
    as Hp.
  rewrite Hj in Hp.
  split; [|split; [|split]]; [| |reflexivity..].
  - intros s Hd Hs Hy.
    destruct (add_one_day_is_Some (on now) Hy) as [t Ht].
    exists t. split; [done|]. split; [|split; [|split]].
    + intros Hv. by apply add_one_day_next.
    + apply strftime_dmy_not_tomorrow.
    + by rewrite (handle_date_tomorrow now d s Hd Hs), Ht.
    + rewrite Hp, (handle_date_tomorrow now d s Hd Hs), Ht. reflexivity.
  - intros Hother.
    assert (forall l p, handle_date now (JDict d) = (l, Ok p) -> p = JDict d)
      as Hsame.
    { intros l p Hh. destruct (d !! "due_date") as [v|] eqn:Hd.
      - destruct v as [| | | |s| |];
          try (rewrite (handle_date_not_str now d _ Hd) in Hh by done;
               discriminate).
        rewrite (handle_date_other now d s Hd (Hother s eq_refl)) in Hh.
        by injection Hh as _ <-.
      - rewrite (handle_date_absent now d Hd) in Hh. by injection Hh as _ <-. }
    split; [done|]. split.
    + intros l p. rewrite Hp. unfold reported.
      destruct (handle_date now (JDict d)) as [l' [p'|e]] eqn:Hh;
        [|discriminate].
      rewrite (Hsame l' p' eq_refl).
      destruct (forallb (has_field (JDict d)) required_fields);
        [|discriminate].
      by intros [= _ <-].
    + intros Hcase.
      assert (handle_date now (JDict d) = ([], Ok (JDict d))) as Hh.
      { destruct Hcase as [Hd | [s Hd]].
        - by apply handle_date_absent.
        - apply (handle_date_other now d s Hd). by apply Hother. }
      split; [done|]. by rewrite Hp, Hh.
Qed.

(** *** A model that answers with a fixed text *)

Definition quoted (s : string) : string := dq +:+ s +:+ dq.

Fixpoint members_text (fields : list (string * string)) : string :=
  match fields with
  | [] => EmptyString
  | [(k, v)] => quoted k +:+ ": " +:+ quoted v
  | (k, v) :: rest =>
      quoted k +:+ ": " +:+ quoted v +:+ ", " +:+ members_text rest
  end.

(** the JSON object with the given string members *)
Definition object_text (fields : list (string * string)) : string :=
  "{" +:+ members_text fields +:+ "}".

Definition answering (text : string) : generative_model :=
  fun _ => Ok (Some text).

Definition nov13 : datetime := mkDateTime (mkDate 2024 11 13) 9 30.

Definition david_note : string :=
  "Write an email to David on ABC project by tomorrow".

Definition david_fields : list (string * string) :=
  [("task", "Write an email to David on ABC project");
   ("customer", "David");
   ("due_date", "tomorrow");
   ("priority", "Medium")].

Definition david_dict : pydict :=
  list_to_map (prod_map id JStr <$> david_fields).

Lemma tomorrow_normalised_witness :
  parse_task Decoder.json_loads (Model (answering (object_text david_fields)))
    nov13 david_note
  = ([], Ok (Some (JDict (<["due_date" := JStr "14-11-2024"]> david_dict)))).
Proof.
  destruct (tomorrow_normalised Decoder.json_loads
              (answering (object_text david_fields)) nov13 david_note
              (object_text david_fields) (object_text david_fields)
              david_dict eq_refl) as [Htomorrow _].
  - discriminate.
  - reflexivity.
  - reflexivity.
  - destruct (Htomorrow "tomorrow" eq_refl eq_refl eq_refl)
      as (t & Ht & _ & _ & _ & Hp).
    injection Ht as <-. exact Hp.
Defined.

(** *** Totality *)

Lemma missing_field_fails (d : pydict) f :
  f ∈ required_fields -> d !! f = None ->
  forallb (has_field (JDict d)) required_fields = false.
Proof.
  intros Hf Hd. apply not_true_is_false. intros Hall.
  rewrite forallb_forall in Hall. apply list_elem_of_In in Hf.
  specialize (Hall f Hf). simpl in Hall. unfold py_in in Hall.
  apply bool_decide_eq_true in Hall as [v Hv]. congruence.
Qed.

Definition fence : string := "```".

Definition sample_object : string :=
  object_text [("task", "Call"); ("priority", "Low")].

(** C10: [parse_task] always returns, with a dictionary that has the
    four required fields or with [None]; no exception leaves it. The
    unwrapping returns for every text, and takes the same object out of a
    fence with the json tag, a fence without it and no fence at all. Of
    the answers that reach the decoder: one it rejects, one that is not a
    dictionary, and one whose due date is not a string all end in [None]
    through an [except] clause, and a dictionary without the due_date key
    ends in [None] through the check of the required fields. *)
Theorem parse_task_total json_loads vertex now note :
  (exists l r,
      parse_task json_loads vertex now note = (l, Ok r)
      ∧ (r = None
         ∨ exists d, r = Some (JDict d)
                     ∧ Forall (fun f => is_Some (d !! f)) required_fields))
  ∧ (forall response, exists r, unwrap response = ([], Ok r))
  ∧ (forall g text r,
       vertex = Model g ->
       g (user_prompt note) = Ok (Some text) ->
       text ≠ EmptyString ->
       unwrap (PyStr.strip text) = ([], Ok r) ->
       (json_loads r = Raise JSONDecodeError ->
        parse_task json_loads vertex now note
        = ([InvalidJSONFormat JSONDecodeError], Ok None))
       ∧ (forall parsed,
            json_loads r = Ok parsed -> (forall d, parsed ≠ JDict d) ->
            parse_task json_loads vertex now note
            = ([ParseTaskError AttributeError], Ok None))
       ∧ (forall d v,
            json_loads r = Ok (JDict d) ->
            d !! "due_date" = Some v -> (forall s, v ≠ JStr s) ->
            parse_task json_loads vertex now note
            = ([ParseTaskError AttributeError], Ok None))
       ∧ (forall d,
            json_loads r = Ok (JDict d) -> d !! "due_date" = None ->
            parse_task json_loads vertex now note
            = ([MissingRequiredFields], Ok None)))
  ∧ unwrap (PyStr.strip (fence +:+ "json" +:+ nl +:+ sample_object +:+ nl
                         +:+ fence +:+ nl))
    = ([], Ok sample_object)
  ∧ unwrap (PyStr.strip (fence +:+ nl +:+ sample_object +:+ nl +:+ fence))
    = ([], Ok sample_object)
  ∧ unwrap (PyStr.strip (sample_object +:+ nl)) = ([], Ok sample_object).
Proof.
  split; [|split; [|split; [|repeat split]]].
  - destruct (parse_task_returns json_loads vertex now note) as (l & r & Hp).
    exists l, r. split; [done|]. destruct r as [p|]; [|by left].
    apply parse_task_Some in Hp
      as (_ & _ & _ & _ & d & _ & _ & _ & _ & -> & _ & Hall).
    right. by exists d.
  - apply unwrap_returns.
  - intros g text r Hv Hg Hne Hu.
    assert (query_gemini vertex (user_prompt note) = ([], Ok (Some text)))
      as Hq.
    { rewrite Hv, query_gemini_model, Hg. by rewrite bool_decide_eq_false_2. }
    rewrite (parse_task_text json_loads vertex now note text r Hq Hne Hu).
    split; [|split; [|split]].
    + by intros ->.
    + intros parsed -> Hnd. by rewrite handle_date_not_dict.
    + intros d v -> Hd Hns. by rewrite (handle_date_not_str now d v Hd Hns).
    + intros d -> Hd. rewrite (handle_date_absent now d Hd).
      rewrite (missing_field_fails d "due_date"); [done| |done].
      unfold required_fields. set_solver.
Qed.

Lemma parse_task_total_witness :
  parse_task Decoder.json_loads (Model (answering sample_object)) nov13
    david_note
  = ([MissingRequiredFields], Ok None).
Proof.
  destruct (parse_task_total Decoder.json_loads
              (Model (answering sample_object)) nov13 david_note)
    as (_ & _ & Hcases & _).
  destruct (Hcases (answering sample_object) sample_object sample_object
              eq_refl eq_refl) as (_ & _ & _ & Hmissing).
  - discriminate.
  - reflexivity.
  - apply (Hmissing (list_to_map [("task", JStr "Call");
                                  ("priority", JStr "Low")])).
    + reflexivity.
    + reflexivity.
Defined.


End ExtractionFacts.

(** ** The task form and the runs of the application *)
Module ApplicationFacts.

Import Calendar App Database Main ExtractionFacts.

Section Runs.

Variable json_loads : string -> res json.
Variable vertex : vertex_ai.
Variable sha256_hexdigest : string -> string.
Variable real_text : string -> option string.

Local Abbreviation parse_task := (parse_task json_loads vertex).
Local Abbreviation task_form := (task_form json_loads vertex real_text).
Local Abbreviation save_task := (save_task real_text).

Lemma task_form_idle clk user submitted note db :
  submitted && negb (bool_decide (note = EmptyString)) = false ->
  task_form clk user submitted note db = ([], Ok db).
Proof. intros H. unfold Main.task_form. by rewrite H. Qed.



(** *** What each interaction does to the task table *)

Lemma register_user_tasks clk email password db l b db' :
  register_user sha256_hexdigest clk email password db = (l, Ok (b, db')) ->
  tasks (data db') = tasks (data db).
Proof.
  unfold register_user, get_connection.
  destruct (connect db) as [e|]; simpl; [by intros [= _ _ <-]|].
  unfold insert_user. case_bool_decide; simpl; by intros [= _ _ <-].
Qed.

Lemma complete_task_priorities clk user_id task_id db l b db' :
  complete_task clk user_id task_id db = (l, Ok (b, db')) ->
  Tasks.priority <$> tasks (data db') = Tasks.priority <$> tasks (data db).
Proof.
  destruct (TaskStoreFacts.complete_task_cases clk user_id task_id db)
    as [[l0 ->] | (_ & _ & _ & ->)]; intros [= _ _ <-]; [done|].
  simpl. rewrite <- list_fmap_compose. apply list_fmap_ext.
  intros i r _. simpl. by case_decide.
Qed.

Lemma delete_task_tasks user_id task_id db l b db' :
  delete_task user_id task_id db = (l, Ok (b, db')) ->
  tasks (data db') ⊆ tasks (data db).
Proof.
  destruct (TaskStoreFacts.delete_task_cases user_id task_id db)
    as [[l0 ->] | (_ & _ & _ & ->)]; intros [= _ _ <-]; [done|].
  simpl. intros r Hr. by apply list_elem_of_filter in Hr as [_ Hr].
Qed.

(** the row a successful [INSERT INTO tasks] appends *)
Lemma insert_task_inv clk user_id t c d p db db1 :
  insert_task real_text clk user_id t c d p db = Ok db1 ->
  exists row pv,
    tasks db1 = tasks db ++ [row]
    ∧ bind_param p = Ok pv
    ∧ Tasks.priority row = text_affinity real_text pv.
Proof.
  unfold insert_task.
  destruct (bind_int user_id) as [uid|]; [|done].
  destruct (bind_param t) as [tv|]; [|done].
  destruct (bind_param c) as [cv|]; [|done].
  destruct (bind_param d) as [dv|]; [|done].
  destruct (bind_param p) as [pv|]; [|done].
  destruct (text_affinity real_text tv) as [t'|]; [|done].
  intros [= <-]. by eexists _, _.
Qed.

(** [save_task] leaves the store alone or appends one row, whose
    priority is the stored form of [task_data['priority']]. *)
Lemma save_task_inv clk user_id task_data db l b db' :
  save_task clk user_id task_data db = (l, Ok (b, db')) ->
  db' = db
  ∨ exists row p pv,
      tasks (data db') = tasks (data db) ++ [row]
      ∧ py_item task_data "priority" = Ok p
      ∧ bind_param p = Ok pv
      ∧ Tasks.priority row = text_affinity real_text pv.
Proof.
  unfold Database.save_task, get_connection.
  destruct (connect db) as [e|]; simpl; [intros [= _ _ <-]; by left|].
  destruct (py_item task_data "task") as [t|]; simpl;
    [|intros [= _ _ <-]; by left].
  destruct (py_item task_data "customer") as [c|]; simpl;
    [|intros [= _ _ <-]; by left].
  destruct (py_item task_data "due_date") as [d|]; simpl;
    [|intros [= _ _ <-]; by left].
  destruct (py_item task_data "priority") as [p|]; simpl;
    [|intros [= _ _ <-]; by left].
  destruct (insert_task real_text clk user_id t c d p (data db))
    as [db1|] eqn:Hi; simpl; [|intros [= _ _ <-]; by left].
  intros [= _ _ <-]. right.
  apply insert_task_inv in Hi as (row & pv & Ht & Hb & Hp).
  by exists row, p, pv.
Qed.

(** The task form leaves the store alone or saves the task the pipeline
    returned. *)
Lemma task_form_inv clk user submitted note db l db' :
  task_form clk user submitted note db = (l, Ok db') ->
  db' = db
  ∨ exists lp p ls b,
      parse_task (now clk) note = (lp, Ok (Some p))
      ∧ save_task clk (Identity.id user) p db = (ls, Ok (b, db')).
Proof.
  unfold Main.task_form.
  destruct (submitted && negb (bool_decide (note = EmptyString)));
    [|intros [= _ <-]; by left].
  destruct (App.parse_task json_loads vertex (now clk) note)
    as [lp [[p|]|e]] eqn:Hp; simpl; [| intros [= _ <-]; by left | done].
  destruct (py_truthy p); [|intros [= _ <-]; by left].
  destruct (Database.save_task real_text clk (Identity.id user) p db)
    as [ls [[b db1]|e]] eqn:Hs; simpl; [|done].
  destruct b; simpl; intros [= _ <-]; right; by eexists _, _, _, _.
Qed.

(** *** The priorities of the stored tasks *)

Definition allowed_priorities : list string := ["High"; "Medium"; "Low"].

(** every stored task has one of the three priorities *)
Definition priorities_ok (db : TaskDB) : Prop :=
  Forall (fun r => exists p, p ∈ allowed_priorities
                             ∧ Tasks.priority r = Some p)
    (tasks (data db)).

(** the model keeps to the instruction on priorities: whenever its
    answer decodes to a dictionary with a priority, that priority is one
    of the three words *)
Definition obedient : Prop :=
  forall g prompt text r d v,
    vertex = Model g ->
    g prompt = Ok (Some text) ->
    unwrap (PyStr.strip text) = ([], Ok r) ->
    json_loads r = Ok (JDict d) ->
    d !! "priority" = Some v ->
    exists p, p ∈ allowed_priorities ∧ v = JStr p.

Lemma step_priorities_ok db db' :
  obedient ->
  step json_loads vertex sha256_hexdigest real_text db db' ->
  priorities_ok db -> priorities_ok db'.
Proof.
  intros Hob Hstep Hok. unfold priorities_ok in *.
  destruct Hstep as [clk email password db l b db' H
                    |clk user submitted note db l db' H
                    |clk user_id task_id db l b db' H
                    |user_id task_id db l b db' H
                    |c db].
  - by rewrite (register_user_tasks _ _ _ _ _ _ _ H).
  - apply task_form_inv in H as [-> | (lp & p & ls & b & Hp & Hs)]; [done|].
    apply save_task_inv in Hs as [-> | (row & pj & pv & Ht & Hi & Hb & Hr)];
      [done|].
    rewrite Ht. apply Forall_app. split; [done|].
    apply Forall_singleton.
    apply parse_task_Some
      in Hp as (g & text & r & d0 & d & Hv & Hg & Hu & Hj & -> & Hd & _).
    simpl in Hi. destruct (d !! "priority") as [v|] eqn:Hpr; [|done].
    injection Hi as ->.
    assert (d0 !! "priority" = Some pj) as Hpr0.
    { destruct Hd as [-> | [t ->]]; [done|].
      by rewrite lookup_insert_ne in Hpr. }
    destruct (Hob g _ text r d0 pj Hv Hg Hu Hj Hpr0) as (p & Hin & ->).
    injection Hb as <-. exists p. by rewrite Hr.
  - apply complete_task_priorities in H.
    apply (Forall_fmap Tasks.priority
             (fun o => exists p, p ∈ allowed_priorities ∧ o = Some p)).
    rewrite H. by apply Forall_fmap.
  - apply delete_task_tasks in H.
    rewrite Forall_forall in Hok. apply Forall_forall.
    intros r Hr. apply Hok. by apply H.
  - done.
Qed.

(** C5, amended: [save_task] stores the priority it is given and the
    pipeline checks only that the field is present. So, provided every
    answer of the model that decodes to a dictionary carries High, Medium
    or Low as its priority, every task of every store reachable from the
    empty tables has one of these three priorities. *)
Theorem reachable_priorities db :
  obedient ->
  reachable json_loads vertex sha256_hexdigest real_text db ->
  priorities_ok db.
Proof.
  intros Hob [c Hrtc]. revert db Hrtc.
  apply (rtc_ind_r priorities_ok (mkTaskDB c init_database)).
  - constructor.
  - intros db1 db2 _ Hstep IH. by apply (step_priorities_ok db1 db2).
Qed.

End Runs.

(** *** Runs on concrete answers *)

Definition no_reals : string -> option string := fun _ => None.

Definition ann_identity : Identity.t := Identity.mk 1 "ann@example.com".



(** a model that answers with a priority outside the three words *)
Definition urgent_fields : list (string * string) :=
  [("task", "Call the bank");
   ("customer", "Unspecified");
   ("due_date", "14-11-2024");
   ("priority", "Urgent")].

Definition urgent_model : vertex_ai :=
  Model (answering (object_text urgent_fields)).

Definition registered : TaskDB :=
  mkTaskDB None
    {| users := [Users.mk 1 "ann@example.com"
                   (CredentialFacts.sample_digest "Passw0rd")
                   "2024-11-13 08:30:00"];
       tasks := [];
       tasks_seq := 0 |}.

Definition urgent_row : Tasks.row :=
  Tasks.mk 1 1 "Call the bank" (Some "Unspecified") (Some "14-11-2024")
    (Some "Urgent") "active" None "2024-11-13 08:30:00".

Definition urgent_store : TaskDB :=
  mkTaskDB None
    {| users := users (data registered);
       tasks := [urgent_row];
       tasks_seq := 1 |}.

(** C5, as stated, fails: Ann registers and submits a note, the model
    answers with the priority Urgent, and the task is stored with it. *)
Lemma urgent_priority_is_stored :
  reachable Decoder.json_loads urgent_model CredentialFacts.sample_digest
    no_reals urgent_store
  ∧ urgent_row ∈ tasks (data urgent_store)
  ∧ Tasks.priority urgent_row = Some "Urgent"
  ∧ (Tasks.priority urgent_row ∉ [Some "High"; Some "Medium"; Some "Low"])
  ∧ ¬ priorities_ok urgent_store.
Proof.
  split; [|split; [|split; [|split]]].
  - exists None.
    apply (rtc_l _ _ registered).
    { by apply (step_register _ _ _ _ TaskStoreFacts.sample_clock
                  "ann@example.com" "Passw0rd" _ [] true). }
    apply (rtc_l _ _ urgent_store); [|apply rtc_refl].
    by apply (step_task_form _ _ _ _ TaskStoreFacts.sample_clock ann_identity
                true "Call the bank, it is urgent" _ []).
  - by left.
  - reflexivity.
  - intros H. repeat (apply elem_of_cons in H as [H|H]; [discriminate H|]).
    by apply elem_of_nil in H.
  - intros H. apply Forall_singleton in H as (p & Hin & Hp).
    injection Hp as <-. unfold allowed_priorities in Hin.
    repeat (apply elem_of_cons in Hin as [Hin|Hin]; [discriminate Hin|]).
    by apply elem_of_nil in Hin.
Qed.

Lemma answering_obedient :
  obedient Decoder.json_loads (Model (answering (object_text david_fields))).
Proof.
  intros g prompt text r d v [= <-] [= <-] [= <-] [= <-] [= <-].
  exists "Medium". split; [|reflexivity].
  unfold allowed_priorities. set_solver.
Qed.

Definition david_row : Tasks.row :=
  Tasks.mk 1 1 "Write an email to David on ABC project" (Some "David")
    (Some "14-11-2024") (Some "Medium") "active" None "2024-11-13 08:30:00".

Definition david_store : TaskDB :=
  mkTaskDB None
    {| users := users (data registered);
       tasks := [david_row];
       tasks_seq := 1 |}.

Lemma reachable_priorities_witness : priorities_ok david_store.
Proof.
  apply (reachable_priorities Decoder.json_loads
           (Model (answering (object_text david_fields)))
           CredentialFacts.sample_digest no_reals david_store).
  - exact answering_obedient.
  - exists None.
    apply (rtc_l _ _ registered).
    { by apply (step_register _ _ _ _ TaskStoreFacts.sample_clock
                  "ann@example.com" "Passw0rd" _ [] true). }
    apply (rtc_l _ _ david_store); [|apply rtc_refl].
    by apply (step_task_form _ _ _ _ TaskStoreFacts.sample_clock ann_identity
                true david_note _ []).
Defined.

End ApplicationFacts.

(** ** The life of a task: saved, listed, completed, deleted *)
Module LifecycleFacts.

Import Calendar Database.

Lemma max_id_ge ids x : x ∈ ids -> x <= max_id ids.
Proof.
  induction ids as [|y ids IH]; intros Hx; [by apply elem_of_nil in Hx|].
  apply elem_of_cons in Hx as [->|Hx]; simpl; [lia|].
  specialize (IH Hx). lia.
Qed.

Lemma max_id_nonneg ids : 0 <= max_id ids.
Proof. induction ids; simpl; lia. Qed.

(** The id of a new task is above every id in the table and above every
    id handed out before. *)
Lemma next_task_id_fresh db r :
  r ∈ tasks db -> Tasks.id r < next_task_id db.
Proof.
  intros Hr. unfold next_task_id.
  assert (Tasks.id r <= max_id (Tasks.id <$> tasks db)).
  { apply max_id_ge. apply list_elem_of_fmap. by exists r. }
  lia.
Qed.

Lemma next_task_id_above_seq db : tasks_seq db < next_task_id db.
Proof. unfold next_task_id. lia. Qed.

(** the row [save_task] writes for the bound values *)
Definition new_task (real_text : string -> option string) (clk : clock)
    (db : database) (user_id : Z) (t : string) (c d p : sqlite_value)
  : Tasks.row :=
  Tasks.mk (next_task_id db) user_id t (text_affinity real_text c)
    (text_affinity real_text d) (text_affinity real_text p) "active" None
    (CURRENT_TIMESTAMP clk).

Definition with_new_task (db : database) (row : Tasks.row) : database :=
  {| users := users db;
     tasks := tasks db ++ [row];
     tasks_seq := Tasks.id row |}.

Section Saving.

Variable real_text : string -> option string.

Local Abbreviation save_task := (save_task real_text).
Local Abbreviation insert_task := (insert_task real_text).
Local Abbreviation text_affinity := (text_affinity real_text).

Lemma insert_task_Ok clk user_id t c d p db db' :
  insert_task clk user_id t c d p db = Ok db' ->
  exists tv cv dv pv t',
    bind_param t = Ok tv ∧ bind_param c = Ok cv
    ∧ bind_param d = Ok dv ∧ bind_param p = Ok pv
    ∧ text_affinity tv = Some t'
    ∧ db' = with_new_task db (new_task real_text clk db user_id t' cv dv pv).
Proof.
  unfold Database.insert_task.
  destruct (bind_int user_id) as [uid|] eqn:Hu; [|done].
  apply TaskStoreFacts.bind_int_inv in Hu as [-> _].
  destruct (bind_param t) as [tv|]; [|done].
  destruct (bind_param c) as [cv|]; [|done].
  destruct (bind_param d) as [dv|]; [|done].
  destruct (bind_param p) as [pv|]; [|done].
  destruct (text_affinity tv) as [t'|] eqn:Ht; [|done].
  intros [= <-]. by exists tv, cv, dv, pv, t'.
Qed.

Lemma insert_task_fits clk user_id t c d p db db' :
  insert_task clk user_id t c d p db = Ok db' -> fits_int64 user_id = true.
Proof.
  unfold Database.insert_task.
  destruct (bind_int user_id) as [uid|] eqn:Hu; [|done].
  by apply TaskStoreFacts.bind_int_inv in Hu as [_ Hu].
Qed.

Lemma insert_task_overflow clk user_id t c d p db :
  fits_int64 user_id = false ->
  insert_task clk user_id t c d p db = Raise OverflowError.
Proof.
  intros Hu. unfold Database.insert_task.
  by rewrite (TaskStoreFacts.bind_int_Raise _ Hu).
Qed.

(** X1: [save_task] never raises, and it is all or nothing: when it
    answers [False] the store is the one it was given, and when it
    answers [True] the connection was open, the four keys were present,
    their values could be bound, the task was not [NULL], and exactly one
    row was appended: active, without completion date, with an id above
    every id in the table and every id handed out before. *)
Theorem save_task_all_or_nothing clk user_id task_data self :
  exists l b self',
    save_task clk user_id task_data self = (l, Ok (b, self'))
    ∧ (b = false -> self' = self)
    ∧ (b = true ->
       l = [] ∧ connect self = None
       ∧ exists t c d p tv cv dv pv t',
           py_item task_data "task" = Ok t
           ∧ py_item task_data "customer" = Ok c
           ∧ py_item task_data "due_date" = Ok d
           ∧ py_item task_data "priority" = Ok p
           ∧ bind_param t = Ok tv ∧ bind_param c = Ok cv
           ∧ bind_param d = Ok dv ∧ bind_param p = Ok pv
           ∧ text_affinity tv = Some t'
           ∧ let row := new_task real_text clk (data self) user_id t' cv dv pv in
             self' = with_data self (with_new_task (data self) row)
             ∧ Tasks.status row = "active"
             ∧ Tasks.completion_date row = None
             ∧ tasks_seq (data self) < Tasks.id row
             ∧ forall r, r ∈ tasks (data self) -> Tasks.id r < Tasks.id row).
Proof.
  unfold Database.save_task, get_connection.
  destruct (connect self) as [e|] eqn:Hc; simpl.
  { eexists _, false, _. by repeat split. }
  destruct (py_item task_data "task") as [t|] eqn:Ht; simpl;
    [|eexists _, false, _; by repeat split].
  destruct (py_item task_data "customer") as [c|] eqn:Hcu; simpl;
    [|eexists _, false, _; by repeat split].
  destruct (py_item task_data "due_date") as [d|] eqn:Hd; simpl;
    [|eexists _, false, _; by repeat split].
  destruct (py_item task_data "priority") as [p|] eqn:Hp; simpl;
    [|eexists _, false, _; by repeat split].
  destruct (insert_task clk user_id t c d p (data self)) as [db'|] eqn:Hi;
    simpl; [|eexists _, false, _; by repeat split].
  apply insert_task_Ok in Hi
    as (tv & cv & dv & pv & t' & Hbt & Hbc & Hbd & Hbp & Haff & ->).
  eexists _, true, _. split; [done|]. split; [done|]. intros _.
  split; [done|]. split; [done|].
  exists t, c, d, p, tv, cv, dv, pv, t'. repeat split; try done.
  - apply next_task_id_above_seq.
  - apply next_task_id_fresh.
Qed.

Lemma save_task_connected clk user_id task_data self :
  connect self = None ->
  save_task clk user_id task_data self
  = try_except
      (task <- lift (py_item task_data "task") ;;
       customer <- lift (py_item task_data "customer") ;;
       due_date <- lift (py_item task_data "due_date") ;;
       priority <- lift (py_item task_data "priority") ;;
       db' <- lift (insert_task clk user_id task customer due_date priority
                      (data self)) ;;
       ret (true, with_data self db'))
      [(is_Exception,
        fun e => st_error_ (ErrorSavingTask e) ;;; ret (false, self))].
Proof.
  intros Hc. unfold Database.save_task, get_connection. rewrite Hc. simpl.
  by destruct (try_except _ _) as [l r].
Qed.

(** X2: what makes [save_task] fail on an open connection. A record
    that lacks one of the four keys ends in [KeyError]; a user id that
    SQLite cannot hold ends in [OverflowError]; with a user id it can
    hold, a record whose task is [null] violates [NOT NULL] and a record
    with a list or a dictionary as the task cannot be bound. Each time
    one [Error saving task] message is shown, the answer is [False] and
    the store is unchanged. *)
Theorem save_task_failures clk user_id (d : pydict) self :
  connect self = None ->
  ((exists f, f ∈ App.required_fields ∧ d !! f = None) ->
   save_task clk user_id (JDict d) self
   = ([ErrorSavingTask KeyError], Ok (false, self)))
  ∧ (forall c du p cv dv pv,
       fits_int64 user_id = true ->
       d !! "task" = Some JNull ->
       d !! "customer" = Some c -> d !! "due_date" = Some du ->
       d !! "priority" = Some p ->
       bind_param c = Ok cv -> bind_param du = Ok dv ->
       bind_param p = Ok pv ->
       save_task clk user_id (JDict d) self
       = ([ErrorSavingTask IntegrityError], Ok (false, self)))
  ∧ (forall t c du p,
       fits_int64 user_id = true ->
       d !! "task" = Some t ->
       d !! "customer" = Some c -> d !! "due_date" = Some du ->
       d !! "priority" = Some p ->
       (exists l, t = JList l) ∨ (exists m, t = JDict m) ->
       save_task clk user_id (JDict d) self
       = ([ErrorSavingTask BindingError], Ok (false, self)))
  ∧ (forall t c du p,
       fits_int64 user_id = false ->
       d !! "task" = Some t ->
       d !! "customer" = Some c -> d !! "due_date" = Some du ->
       d !! "priority" = Some p ->
       save_task clk user_id (JDict d) self
       = ([ErrorSavingTask OverflowError], Ok (false, self))).
Proof.
  intros Hc. rewrite save_task_connected by done.
  split; [|split; [|split]].
  - intros (f & Hf & Hd). unfold App.required_fields in Hf. simpl.
    destruct (d !! "task") eqn:H1; simpl;
      [|done].
    destruct (d !! "customer") eqn:H2; simpl; [|done].
    destruct (d !! "due_date") eqn:H3; simpl; [|done].
    destruct (d !! "priority") eqn:H4; simpl; [|done].
    exfalso.
    repeat (apply elem_of_cons in Hf as [->|Hf]; [congruence|]).
    by apply elem_of_nil in Hf.
  - intros c du p cv dv pv Hfit Ht Hcu Hdu Hp Hbc Hbd Hbp. simpl.
    rewrite Ht, Hcu, Hdu, Hp. simpl.
    unfold Database.insert_task.
    rewrite (TaskStoreFacts.bind_int_Ok _ Hfit). simpl.
    rewrite Hbc, Hbd, Hbp. done.
  - intros t c du p Hfit Ht Hcu Hdu Hp Hkind. simpl.
    rewrite Ht, Hcu, Hdu, Hp. simpl.
    unfold Database.insert_task.
    rewrite (TaskStoreFacts.bind_int_Ok _ Hfit).
    by destruct Hkind as [[l ->] | [m ->]].
  - intros t c du p Hfit Ht Hcu Hdu Hp. simpl.
    rewrite Ht, Hcu, Hdu, Hp. simpl.
    by rewrite insert_task_overflow.
Qed.

(** the rows [get_tasks] selects, before they are ordered *)
Definition rows_of (user_id : Z) (status : string) (db : database)
  : list Tasks.row :=
  filter (owned_with_status user_id status) (tasks db).

Lemma get_tasks_perm user_id status self :
  connect self = None ->
  fits_int64 user_id = true ->
  exists l, get_tasks user_id status self = ([], Ok l)
            ∧ l ≡ₚ to_dict <$> rows_of user_id status (data self).
Proof.
  intros Hc Hu. rewrite TaskStoreFacts.get_tasks_connected by done.
  eexists. split; [done|].
  by rewrite ListingFacts.select_tasks_perm.
Qed.

(** two stores with the same connection and the same rows of a user in
    a status give the same list *)
Lemma get_tasks_same_rows v s self self' :
  connect self' = connect self ->
  filter (owned_with_status v s) (tasks (data self'))
  = filter (owned_with_status v s) (tasks (data self)) ->
  get_tasks v s self' = get_tasks v s self.
Proof.
  intros Hc Hf. unfold get_tasks, get_connection. rewrite Hc.
  destruct (connect self); [done|]. simpl.
  destruct (bind_int v) as [v'|] eqn:Hb; [|done].
  apply TaskStoreFacts.bind_int_inv in Hb as [-> _]. simpl.
  unfold select_tasks. by rewrite Hf.
Qed.

(** X3: when [save_task] answers [True] for a record whose four fields
    are strings, it has shown nothing and written one row with these
    strings, and the task is then listed among the active tasks of its
    user, and only there: the active list gains exactly this task, with
    no completion date, while the completed list of the user and every
    list of every other user are what they were. *)
Theorem save_then_list clk user_id (d : pydict) t c du p self l self' :
  d !! "task" = Some (JStr t) ->
  d !! "customer" = Some (JStr c) ->
  d !! "due_date" = Some (JStr du) ->
  d !! "priority" = Some (JStr p) ->
  save_task clk user_id (JDict d) self = (l, Ok (true, self')) ->
  let row := Tasks.mk (next_task_id (data self)) user_id t (Some c)
               (Some du) (Some p) "active" None (CURRENT_TIMESTAMP clk) in
  let entry := TaskDict.mk (next_task_id (data self)) t (Some c) (Some du)
                 (Some p) None in
  l = []
  ∧ connect self' = None
  ∧ tasks (data self') = tasks (data self) ++ [row]
  ∧ (exists la la0,
        get_tasks user_id "active" self' = ([], Ok la)
        ∧ get_tasks user_id "active" self = ([], Ok la0)
        ∧ la ≡ₚ entry :: la0)
  ∧ get_tasks user_id "completed" self'
    = get_tasks user_id "completed" self
  ∧ (forall v s, v ≠ user_id ->
                 get_tasks v s self' = get_tasks v s self).
Proof.
  intros Ht Hcu Hdu Hp Hs row entry.
  assert (connect self = None) as Hc.
  { destruct (connect self) as [e|] eqn:Hc; [|done].
    unfold Database.save_task, get_connection in Hs.
    rewrite Hc in Hs. discriminate Hs. }
  rewrite save_task_connected in Hs by done.
  cbn [lift bind py_item] in Hs. rewrite Ht, Hcu, Hdu, Hp in Hs.
  cbn [lift bind app] in Hs.
  destruct (insert_task clk user_id (JStr t) (JStr c) (JStr du) (JStr p)
              (data self)) as [db'|e] eqn:Hi;
    [|discriminate Hs].
  pose proof (insert_task_fits _ _ _ _ _ _ _ _ Hi) as Hfit.
  apply insert_task_Ok in Hi
    as (tv & cv & dv & pv & t' & [= <-] & [= <-] & [= <-] & [= <-]
        & [= <-] & ->).
  injection Hs as <- <-.
  change (new_task real_text clk (data self) user_id t (SqlText c)
            (SqlText du) (SqlText p)) with row.
  assert (forall v s, ¬ owned_with_status v s row ->
            get_tasks v s (with_data self (with_new_task (data self) row))
            = get_tasks v s self) as Hsame.
  { intros v s Hno. apply get_tasks_same_rows; [done|].
    simpl. rewrite filter_app.
    rewrite (filter_cons_False _ row []) by done.
    by rewrite filter_nil, app_nil_r. }
  split; [done|]. split; [done|]. split; [done|].
  split; [|split].
  - destruct (get_tasks_perm user_id "active"
                (with_data self (with_new_task (data self) row)) Hc Hfit)
      as (la & Hla & Hperm).
    destruct (get_tasks_perm user_id "active" self Hc Hfit)
      as (la0 & Hla0 & Hperm0).
    exists la, la0. split; [done|]. split; [done|].
    rewrite Hperm, Hperm0. unfold rows_of. simpl. rewrite filter_app.
    rewrite (filter_cons_True _ row []) by done.
    rewrite filter_nil, fmap_app. simpl.
    by rewrite <- Permutation_cons_append.
  - apply Hsame. intros [_ H]. discriminate H.
  - intros v s Hv. apply Hsame. intros [H _]. by apply Hv.
Qed.

End Saving.

Lemma save_task_all_or_nothing_witness :
  exists l b self',
    save_task ApplicationFacts.no_reals TaskStoreFacts.sample_clock 1 (JDict ExtractionFacts.david_dict)
      CredentialFacts.one_user
    = (l, Ok (b, self'))
    ∧ (b = false -> self' = CredentialFacts.one_user)
    ∧ (b = true -> l = [] ∧ connect CredentialFacts.one_user = None).
Proof.
  destruct (save_task_all_or_nothing ApplicationFacts.no_reals
              TaskStoreFacts.sample_clock 1
              (JDict ExtractionFacts.david_dict) CredentialFacts.one_user)
    as (l & b & self' & Hs & Hf & Ht).
  exists l, b, self'. split; [exact Hs|]. split; [exact Hf|].
  intros Hb. destruct (Ht Hb) as (Hl & Hc & _). by split.
Defined.

Lemma save_task_failures_witness :
  save_task ApplicationFacts.no_reals TaskStoreFacts.sample_clock 1
    (JDict (list_to_map [("task", JStr "Call"); ("priority", JStr "Low")]))
    CredentialFacts.one_user
  = ([ErrorSavingTask KeyError], Ok (false, CredentialFacts.one_user)).
Proof.
  apply (save_task_failures ApplicationFacts.no_reals
           TaskStoreFacts.sample_clock 1 _
           CredentialFacts.one_user eq_refl).
  exists "customer". split; [|reflexivity].
  unfold App.required_fields. set_solver.
Defined.

Lemma save_then_list_witness :
  tasks (data (with_data CredentialFacts.one_user
                 (with_new_task (data CredentialFacts.one_user)
                    ApplicationFacts.david_row)))
  = tasks (data CredentialFacts.one_user) ++ [ApplicationFacts.david_row].
Proof.
  destruct (save_then_list ApplicationFacts.no_reals
              TaskStoreFacts.sample_clock 1
              (<["due_date" := JStr "14-11-2024"]> ExtractionFacts.david_dict)
              "Write an email to David on ABC project" "David" "14-11-2024"
              "Medium" CredentialFacts.one_user []
              (with_data CredentialFacts.one_user
                 (with_new_task (data CredentialFacts.one_user)
                    ApplicationFacts.david_row)))
    as (_ & _ & Ht & _); [reflexivity..|].
  exact Ht.
Defined.

(** *** Completing *)

(** the row is the task [task_id] of [user_id] *)
Lemma set_completed_is_task_of date task_id user_id r :
  is_task_of task_id user_id (set_completed date r)
  <-> is_task_of task_id user_id r.
Proof. by destruct r. Qed.

Definition complete_row (date : string) (task_id user_id : Z)
    (r : Tasks.row) : Tasks.row :=
  if decide (is_task_of task_id user_id r) then set_completed date r else r.

Lemma update_completed_tasks date task_id user_id db :
  tasks (update_completed date task_id user_id db)
  = complete_row date task_id user_id <$> tasks db.
Proof. reflexivity. Qed.

(** the rows of another user, or with another id, are not touched *)
Lemma update_completed_other date task_id user_id db r :
  ¬ is_task_of task_id user_id r ->
  r ∈ tasks (update_completed date task_id user_id db) <-> r ∈ tasks db.
Proof.
  intros Hno. rewrite update_completed_tasks, list_elem_of_fmap. split.
  - intros (r0 & -> & Hr0). unfold complete_row in *.
    destruct (decide (is_task_of task_id user_id r0)) as [Hm|_]; [|done].
    destruct Hno. by apply set_completed_is_task_of.
  - intros Hr. exists r. split; [|done]. unfold complete_row.
    by rewrite decide_False.
Qed.

(** X4: completing a task of one's own on an open connection, the two
    ids being integers SQLite can hold as the ids of its rows are,
    answers [True]; the row gets the status completed and the local time
    of the call, written DD-MM-YYYY HH:MM, as completion date, and keeps
    its other fields; the task leaves the active list of the user and
    enters the completed one; the users and every row that is not this
    task stay as they were. *)
Theorem complete_task_own clk user_id task_id self r :
  connect self = None ->
  fits_int64 task_id = true ->
  fits_int64 user_id = true ->
  r ∈ tasks (data self) ->
  Tasks.id r = task_id ->
  Tasks.user_id r = user_id ->
  let stamp := strftime_dmy_hm (now clk) in
  exists self',
    complete_task clk user_id task_id self = ([], Ok (true, self'))
    ∧ set_completed stamp r ∈ tasks (data self')
    ∧ to_dict (set_completed stamp r)
      = TaskDict.mk task_id (Tasks.task r) (Tasks.customer r)
          (Tasks.due_date r) (Tasks.priority r) (Some stamp)
    ∧ (exists l, get_tasks user_id "completed" self' = ([], Ok l)
                 ∧ to_dict (set_completed stamp r) ∈ l)
    ∧ (exists l, get_tasks user_id "active" self' = ([], Ok l)
                 ∧ forall x, x ∈ l -> TaskDict.id x ≠ task_id)
    ∧ users (data self') = users (data self)
    ∧ (forall r', ¬ is_task_of task_id user_id r' ->
                  r' ∈ tasks (data self') <-> r' ∈ tasks (data self)).
Proof.
  intros Hc Hft Hfu Hr Hid Hu stamp.
  eexists. split; [by apply TaskStoreFacts.complete_task_connected|].
  simpl. fold stamp.
  assert (set_completed stamp r
          ∈ tasks (update_completed stamp task_id user_id (data self)))
    as Hdone.
  { rewrite update_completed_tasks. apply list_elem_of_fmap.
    exists r. split; [|done]. unfold complete_row.
    by rewrite decide_True. }
  split; [done|]. split; [by rewrite <- Hid|].
  split; [|split; [|split]].
  - destruct (get_tasks_perm user_id "completed"
                (with_data self
                   (update_completed stamp task_id user_id (data self)))
                Hc Hfu)
      as (l & Hl & Hperm).
    exists l. split; [done|]. rewrite Hperm.
    apply list_elem_of_fmap. eexists. split; [done|].
    apply list_elem_of_filter. split; [|exact Hdone]. by split.
  - destruct (get_tasks_perm user_id "active"
                (with_data self
                   (update_completed stamp task_id user_id (data self)))
                Hc Hfu)
      as (l & Hl & Hperm).
    exists l. split; [done|]. intros x Hx. rewrite Hperm in Hx.
    apply list_elem_of_fmap in Hx as (r1 & -> & Hr1).
    apply list_elem_of_filter in Hr1 as [[Hu1 Hs1] Hin]. simpl in Hin.
    apply list_elem_of_fmap in Hin as (r0 & -> & _).
    unfold complete_row in *.
    destruct (decide (is_task_of task_id user_id r0)) as [Hm|Hm].
    + discriminate Hs1.
    + simpl. intros Hid1. apply Hm. by split.
  - done.
  - intros r'. apply update_completed_other.
Qed.

Lemma complete_task_own_witness :
  exists self',
    complete_task TaskStoreFacts.sample_clock 1 1 ListingFacts.two_tasks
    = ([], Ok (true, self'))
    ∧ set_completed "13-11-2024 09:30" ListingFacts.report
      ∈ tasks (data self').
Proof.
  destruct (complete_task_own TaskStoreFacts.sample_clock 1 1
              ListingFacts.two_tasks ListingFacts.report eq_refl eq_refl
              eq_refl)
    as (self' & Hs & Hin & _).
  - by left.
  - reflexivity.
  - reflexivity.
  - exists self'. split; [exact Hs | exact Hin].
Defined.

(** X5: there is no guard against completing twice: a second
    [complete_task] answers [True] again and overwrites the completion
    date, so that the store after both calls is the one the second call
    alone would have produced. *)
Theorem complete_task_twice clk1 clk2 user_id task_id self self1 :
  connect self = None ->
  complete_task clk1 user_id task_id self = ([], Ok (true, self1)) ->
  complete_task clk2 user_id task_id self1
  = complete_task clk2 user_id task_id self.
Proof.
  intros Hc H1.
  destruct (TaskStoreFacts.complete_task_cases clk1 user_id task_id self)
    as [[l0 H0] | (_ & Ht & Hu & H0)]; rewrite H0 in H1; [discriminate H1|].
  injection H1 as <-.
  rewrite (TaskStoreFacts.complete_task_connected clk2 _ _ self) by done.
  rewrite TaskStoreFacts.complete_task_connected by done.
  do 3 f_equal. unfold with_data, update_completed. simpl. do 2 f_equal.
  rewrite <- list_fmap_compose. apply list_fmap_ext. intros i r _. simpl.
  destruct (decide (is_task_of task_id user_id r)) as [Hm|Hm].
  - rewrite decide_True by by apply set_completed_is_task_of.
    by destruct r.
  - by rewrite decide_False.
Qed.

Lemma complete_task_twice_witness :
  complete_task (mkClock (mkDateTime (mkDate 2024 11 14) 17 5) "x") 1 1
    (with_data ListingFacts.two_tasks
       (update_completed "13-11-2024 09:30" 1 1
          (data ListingFacts.two_tasks)))
  = complete_task (mkClock (mkDateTime (mkDate 2024 11 14) 17 5) "x") 1 1
      ListingFacts.two_tasks.
Proof.
  apply (complete_task_twice TaskStoreFacts.sample_clock
           (mkClock (mkDateTime (mkDate 2024 11 14) 17 5) "x") 1 1
           ListingFacts.two_tasks).
  - reflexivity.
  - reflexivity.
Defined.

(** *** Deleting *)

Lemma delete_from_tasks_no_match task_id user_id db :
  Forall (fun r => ¬ is_task_of task_id user_id r) (tasks db) ->
  delete_from_tasks task_id user_id db = db.
Proof.
  intros Hno. unfold delete_from_tasks.
  rewrite <- (TaskStoreFacts.database_eta db) at 4. f_equal.
  induction Hno as [|r rs Hr _ IH]; [done|].
  rewrite filter_cons_True by done. by rewrite IH.
Qed.

(** X6: [delete_task] never raises. It answers [True], showing
    nothing, exactly when the connection opens and both ids are integers
    SQLite can hold, whether or not a row was there: it has then removed
    the rows that are task [task_id] of [user_id] and no other, so that
    the task is in no list of the user afterwards, the users and the id
    counter are untouched, and when the task does not exist or belongs to
    somebody else the store is left as it was. It answers [False] with
    one message and the store as it was when the connection does not
    open, and when an id is outside that range, the [DELETE] then raising
    [OverflowError]. *)
Theorem delete_task_removes user_id task_id self :
  exists l b self',
    delete_task user_id task_id self = (l, Ok (b, self'))
    ∧ (b = true
       <-> connect self = None
           ∧ fits_int64 task_id = true ∧ fits_int64 user_id = true)
    ∧ l = match connect self with
          | Some e => [DatabaseConnectionError e]
          | None => if b then [] else [ErrorDeletingTask OverflowError]
          end
    ∧ (b = false -> self' = self)
    ∧ (b = true ->
       users (data self') = users (data self)
       ∧ tasks_seq (data self') = tasks_seq (data self)
       ∧ (forall r, r ∈ tasks (data self')
                    <-> r ∈ tasks (data self)
                        ∧ ¬ (Tasks.id r = task_id
                             ∧ Tasks.user_id r = user_id))
       ∧ (forall s, exists la,
             get_tasks user_id s self' = ([], Ok la)
             ∧ forall x, x ∈ la -> TaskDict.id x ≠ task_id)
       ∧ ((forall r, r ∈ tasks (data self) -> Tasks.id r = task_id ->
                     Tasks.user_id r ≠ user_id) ->
          self' = self)).
Proof.
  destruct (connect self) as [e|] eqn:Hc.
  { exists [DatabaseConnectionError e], false, self.
    split; [by apply TaskStoreFacts.delete_task_disconnected|].
    split; [split; [discriminate|by intros [? _]]|].
    split; [done|]. split; [done|discriminate]. }
  destruct (fits_int64 task_id && fits_int64 user_id) eqn:Hf.
  2: { exists [ErrorDeletingTask OverflowError], false, self.
       split; [by apply TaskStoreFacts.delete_task_overflow|].
       split.
       { split; [discriminate|]. intros (_ & Ht & Hu).
         by rewrite Ht, Hu in Hf. }
       split; [done|]. split; [done|discriminate]. }
  apply andb_true_iff in Hf as [Ht Hu].
  exists [], true,
    (with_data self (delete_from_tasks task_id user_id (data self))).
  split; [by apply TaskStoreFacts.delete_task_connected|].
  split; [split; [intros _; repeat split; assumption|done]|].
  split; [done|]. split; [discriminate|]. intros _.
  split; [done|]. split; [done|]. split; [|split].
  - intros r. simpl. rewrite list_elem_of_filter. unfold is_task_of. tauto.
  - intros s.
    destruct (get_tasks_perm user_id s
                (with_data self (delete_from_tasks task_id user_id (data self)))
                Hc Hu) as (l & Hl & Hperm).
    exists l. split; [done|]. intros x Hx. rewrite Hperm in Hx.
    apply list_elem_of_fmap in Hx as (r & -> & Hr).
    apply list_elem_of_filter in Hr as [[Hur _] Hin]. simpl in Hin.
    apply list_elem_of_filter in Hin as [Hno _].
    simpl. intros Hid. apply Hno. by split.
  - intros Hown. rewrite delete_from_tasks_no_match.
    + apply TaskStoreFacts.with_data_same.
    + apply Forall_forall. intros r Hr [Hid Hur]. by apply (Hown r).
Qed.

(** *** One user's calls and another user's tasks *)

Lemma filter_fmap_fixed {A} (P : A -> Prop) `{!forall x, Decision (P x)}
    (f : A -> A) (l : list A) :
  (forall x, P x -> f x = x) ->
  (forall x, P (f x) -> P x) ->
  filter P (f <$> l) = filter P l.
Proof.
  intros Hfix Hback. induction l as [|x l IH]; [done|].
  rewrite fmap_cons. destruct (decide (P x)) as [Hx|Hx].
  - rewrite (Hfix x Hx), !filter_cons_True by done. by rewrite IH.
  - rewrite !filter_cons_False by eauto. exact IH.
Qed.

Lemma complete_task_data clk user_id task_id self l b self' :
  complete_task clk user_id task_id self = (l, Ok (b, self')) ->
  self' = self
  ∨ self' = with_data self
              (update_completed (strftime_dmy_hm (now clk)) task_id user_id
                 (data self)).
Proof.
  destruct (TaskStoreFacts.complete_task_cases clk user_id task_id self)
    as [[l0 ->] | (_ & _ & _ & ->)]; intros [= _ _ <-]; auto.
Qed.

Lemma delete_task_data user_id task_id self l b self' :
  delete_task user_id task_id self = (l, Ok (b, self')) ->
  self' = self
  ∨ self' = with_data self (delete_from_tasks task_id user_id (data self)).
Proof.
  destruct (TaskStoreFacts.delete_task_cases user_id task_id self)
    as [[l0 ->] | (_ & _ & _ & ->)]; intros [= _ _ <-]; auto.
Qed.

(** X7: [complete_task] and [delete_task] called for user [user_id],
    with any task id, leave the rows of every other user in place and
    unchanged, and every list [get_tasks] returns for another user is the
    same before and after. *)
Theorem other_users_untouched clk user_id task_id self l b self' :
  complete_task clk user_id task_id self = (l, Ok (b, self'))
  ∨ delete_task user_id task_id self = (l, Ok (b, self')) ->
  (forall r, Tasks.user_id r ≠ user_id ->
             r ∈ tasks (data self') <-> r ∈ tasks (data self))
  ∧ (forall v s, v ≠ user_id -> get_tasks v s self' = get_tasks v s self).
Proof.
  intros [H|H].
  - apply complete_task_data in H as [-> | ->]; [done|]. split.
    + intros r Hr. apply update_completed_other. by intros [_ Hu].
    + intros v s Hv. apply get_tasks_same_rows; [done|].
      cbn [data with_data]. rewrite update_completed_tasks.
      apply filter_fmap_fixed.
      * intros x [Hu _]. unfold complete_row.
        rewrite decide_False; [done|]. intros [_ Hx]. congruence.
      * intros x. unfold complete_row.
        destruct (decide (is_task_of task_id user_id x)) as [[_ Hx]|_];
          [|done].
        intros [Hu _]. simpl in Hu. congruence.
  - apply delete_task_data in H as [-> | ->]; [done|]. split.
    + intros r Hr. simpl. rewrite list_elem_of_filter.
      split; [tauto|]. intros Hin. split; [|done]. by intros [_ Hu].
    + intros v s Hv. apply get_tasks_same_rows; [done|].
      cbn [data with_data tasks delete_from_tasks].
      rewrite list_filter_filter.
      apply list_filter_iff. intros x. split; [tauto|].
      intros [Hu Hs]. split; [done|]. intros [_ Hx]. congruence.
Qed.

Lemma other_users_untouched_witness :
  get_tasks 1 "active"
    (with_data ListingFacts.two_tasks
       (delete_from_tasks 1 2 (data ListingFacts.two_tasks)))
  = get_tasks 1 "active" ListingFacts.two_tasks.
Proof.
  destruct (other_users_untouched TaskStoreFacts.sample_clock 2 1
              ListingFacts.two_tasks [] true
              (with_data ListingFacts.two_tasks
                 (delete_from_tasks 1 2 (data ListingFacts.two_tasks))))
    as [_ Hlists].
  - right. reflexivity.
  - apply Hlists. discriminate.
Defined.

End LifecycleFacts.

(** ** What every run of the application keeps true of the store *)
Module InvariantFacts.

Import Calendar Database Main LifecycleFacts.

(** a task is active without completion date, or completed with one *)
Definition task_state_ok (r : Tasks.row) : Prop :=
  (Tasks.status r = "active" ∧ Tasks.completion_date r = None)
  ∨ (Tasks.status r = "completed" ∧ is_Some (Tasks.completion_date r)).

(** the ids of the tasks are distinct, positive and not above the counter
    of [AUTOINCREMENT] *)
Definition task_ids_ok (db : database) : Prop :=
  NoDup (Tasks.id <$> tasks db)
  ∧ Forall (fun r => 0 < Tasks.id r <= tasks_seq db) (tasks db)
  ∧ 0 <= tasks_seq db.

(** no two users share an email or an id *)
Definition users_ok (db : database) : Prop :=
  NoDup (Users.email <$> users db)
  ∧ NoDup (Users.id <$> users db)
  ∧ Forall (fun r => 0 < Users.id r) (users db).

Definition store_ok (db : database) : Prop :=
  Forall task_state_ok (tasks db) ∧ task_ids_ok db ∧ users_ok db.

Lemma init_database_ok : store_ok init_database.
Proof.
  repeat split; simpl; try constructor. discriminate.
Qed.

Lemma next_user_id_fresh db r :
  r ∈ users db -> Users.id r < next_user_id db.
Proof.
  intros Hr. unfold next_user_id.
  assert (Users.id r <= max_id (Users.id <$> users db)).
  { apply max_id_ge. apply list_elem_of_fmap. by exists r. }
  lia.
Qed.

Lemma insert_user_ok clk email digest db db' :
  insert_user clk email digest db = Ok db' ->
  store_ok db -> store_ok db'.
Proof.
  unfold insert_user. case_bool_decide as Hex; [done|]. intros [= <-].
  intros (Hst & Hids & Hemails & Huids & Hpos).
  split; [done|]. split; [done|]. unfold users_ok. simpl.
  rewrite !fmap_app. simpl. split; [|split].
  - apply NoDup_app. split; [done|]. split; [|apply NoDup_singleton].
    intros e He ->%list_elem_of_singleton. apply Hex.
    apply list_elem_of_fmap in He as (r & -> & Hr).
    apply Exists_exists. by exists r.
  - apply NoDup_app. split; [done|]. split; [|apply NoDup_singleton].
    intros i Hi ->%list_elem_of_singleton.
    apply list_elem_of_fmap in Hi as (r & Heq & Hr).
    pose proof (next_user_id_fresh db r Hr). lia.
  - apply Forall_app. split; [done|]. apply Forall_singleton. simpl.
    pose proof (max_id_nonneg (Users.id <$> users db)).
    unfold next_user_id. lia.
Qed.

Lemma with_new_task_ok db row :
  Tasks.id row = next_task_id db ->
  Tasks.status row = "active" ->
  Tasks.completion_date row = None ->
  store_ok db -> store_ok (with_new_task db row).
Proof.
  intros Hid Hs Hcd (Hst & (Hnd & Hrange & Hseq0) & Hu).
  pose proof (next_task_id_above_seq db) as Hseq.
  split; [|split; [split; [|split]|done]]; simpl.
  - apply Forall_app. split; [done|]. apply Forall_singleton. by left.
  - rewrite fmap_app. simpl. apply NoDup_app.
    split; [done|]. split; [|apply NoDup_singleton].
    intros i Hi ->%list_elem_of_singleton.
    apply list_elem_of_fmap in Hi as (r & Heq & Hr).
    pose proof (next_task_id_fresh db r Hr). lia.
  - apply Forall_app. split.
    + eapply Forall_impl; [exact Hrange|]. simpl. intros r Hr. lia.
    + apply Forall_singleton. lia.
  - lia.
Qed.

Lemma update_completed_ok date task_id user_id db :
  store_ok db -> store_ok (update_completed date task_id user_id db).
Proof.
  intros (Hst & (Hnd & Hrange & Hseq0) & Hu).
  assert (Tasks.id <$> (complete_row date task_id user_id <$> tasks db)
          = Tasks.id <$> tasks db) as Hids.
  { rewrite <- list_fmap_compose. apply list_fmap_ext. intros i r _.
    simpl. unfold complete_row. by case_decide. }
  split; [|split; [split; [|split]|done]];
    rewrite ?update_completed_tasks; simpl.
  - apply Forall_fmap. eapply Forall_impl; [exact Hst|].
    intros r Hr. simpl. unfold complete_row.
    case_decide; [|done]. right. by split; [|eexists].
  - by rewrite Hids.
  - apply Forall_fmap. eapply Forall_impl; [exact Hrange|].
    intros r Hr. simpl. unfold complete_row. by case_decide.
  - done.
Qed.

Lemma Forall_filter_keeps {A} (P Q : A -> Prop) `{!forall x, Decision (P x)}
    (l : list A) :
  Forall Q l -> Forall Q (filter P l).
Proof.
  rewrite !Forall_forall. intros Hall x Hx. apply Hall.
  by apply list_elem_of_filter in Hx as [_ Hx].
Qed.

Lemma delete_from_tasks_ok task_id user_id db :
  store_ok db -> store_ok (delete_from_tasks task_id user_id db).
Proof.
  intros (Hst & (Hnd & Hrange & Hseq0) & Hu).
  split; [|split; [split; [|split]|done]]; simpl.
  - by apply Forall_filter_keeps.
  - apply (sublist_NoDup _ (Tasks.id <$> tasks db) Hnd).
    apply fmap_sublist, sublist_filter.
  - by apply Forall_filter_keeps.
  - done.
Qed.

Lemma find_app_Some {A} (f : A -> bool) (l k : list A) (x : A) :
  List.find f l = Some x -> List.find f (l ++ k) = Some x.
Proof.
  induction l as [|y l IH]; [done|]. simpl.
  destruct (f y); [done|]. exact IH.
Qed.

(** [lc] and [la] split the rows of the user when every row is active or
    completed *)
Lemma rows_of_split user_id l :
  Forall task_state_ok l ->
  (length (filter (owned_with_status user_id "active") l)
   + length (filter (owned_with_status user_id "completed") l))%nat
  = length (filter (fun r => Tasks.user_id r = user_id) l).
Proof.
  induction 1 as [|r l Hr _ IH]; [done|].
  destruct (decide (Tasks.user_id r = user_id)) as [Hu|Hu].
  - rewrite (filter_cons_True (fun r => Tasks.user_id r = user_id)) by done.
    simpl length. rewrite <- IH.
    destruct Hr as [[Hs _]|[Hs _]].
    + rewrite (filter_cons_True (owned_with_status user_id "active"))
        by done.
      rewrite (filter_cons_False (owned_with_status user_id "completed")).
      * simpl. lia.
      * intros [_ Hs']. congruence.
    + rewrite (filter_cons_False (owned_with_status user_id "active")).
      * rewrite (filter_cons_True (owned_with_status user_id "completed"))
          by done.
        simpl. lia.
      * intros [_ Hs']. congruence.
  - rewrite !filter_cons_False; [exact IH|done|by intros [? _]|by intros [? _]].
Qed.

Section Runs.

Variable json_loads : string -> res json.
Variable vertex : App.vertex_ai.
Variable sha256_hexdigest : string -> string.
Variable real_text : string -> option string.

Local Abbreviation step :=
  (step json_loads vertex sha256_hexdigest real_text).
Local Abbreviation reachable :=
  (reachable json_loads vertex sha256_hexdigest real_text).

Lemma register_user_data clk email password self l b self' :
  register_user sha256_hexdigest clk email password self = (l, Ok (b, self')) ->
  self' = self
  ∨ exists db',
      insert_user clk email (hash_password sha256_hexdigest password)
        (data self) = Ok db'
      ∧ self' = with_data self db'.
Proof.
  unfold register_user, get_connection.
  destruct (connect self); simpl; [intros [= _ _ <-]; by left|].
  destruct (insert_user _ _ _ _) as [db'|e] eqn:Hi; simpl.
  - intros [= _ _ <-]. right. by exists db'.
  - destruct e; simpl; intros [=]; subst; by left.
Qed.

Lemma save_task_data clk user_id task_data self l b self' :
  save_task real_text clk user_id task_data self = (l, Ok (b, self')) ->
  self' = self
  ∨ exists row,
      self' = with_data self (with_new_task (data self) row)
      ∧ Tasks.id row = next_task_id (data self)
      ∧ Tasks.user_id row = user_id
      ∧ Tasks.status row = "active"
      ∧ Tasks.completion_date row = None.
Proof.
  unfold save_task, get_connection.
  destruct (connect self); simpl; [intros [= _ _ <-]; by left|].
  destruct (py_item task_data "task") as [t|]; simpl;
    [|intros [= _ _ <-]; by left].
  destruct (py_item task_data "customer") as [c|]; simpl;
    [|intros [= _ _ <-]; by left].
  destruct (py_item task_data "due_date") as [d|]; simpl;
    [|intros [= _ _ <-]; by left].
  destruct (py_item task_data "priority") as [p|]; simpl;
    [|intros [= _ _ <-]; by left].
  destruct (insert_task real_text clk user_id t c d p (data self))
    as [db1|] eqn:Hi; simpl; [|intros [= _ _ <-]; by left].
  intros [= _ _ <-]. right.
  apply insert_task_Ok in Hi as (tv & cv & dv & pv & t' & _ & _ & _ & _ & _ & ->).
  by eexists.
Qed.

(** what one step does to the store *)
Lemma step_data db db' :
  step db db' ->
  data db' = data db
  ∨ (exists clk email digest,
        insert_user clk email digest (data db) = Ok (data db'))
  ∨ (exists row,
        data db' = with_new_task (data db) row
        ∧ Tasks.id row = next_task_id (data db)
        ∧ Tasks.status row = "active"
        ∧ Tasks.completion_date row = None)
  ∨ (exists date task_id user_id,
        data db' = update_completed date task_id user_id (data db))
  ∨ (exists task_id user_id,
        data db' = delete_from_tasks task_id user_id (data db)).
Proof.
  intros [clk email password db0 l b db1 H
         |clk user submitted note db0 l db1 H
         |clk user_id task_id db0 l b db1 H
         |user_id task_id db0 l b db1 H
         |c db0].
  - apply register_user_data in H as [-> | (d & Hi & ->)]; [by left|].
    right. left. by eexists _, _, _.
  - apply (ApplicationFacts.task_form_inv json_loads vertex real_text)
      in H as [-> | (lp & p & ls & b & _ & Hs)]; [by left|].
    apply save_task_data in Hs as [-> | (row & -> & Hid & _ & Hst & Hcd)];
      [by left|].
    right. right. left. by exists row.
  - apply complete_task_data in H as [-> | ->]; [by left|].
    right. right. right. left. by eexists _, _, _.
  - apply delete_task_data in H as [-> | ->]; [by left|].
    right. right. right. right. by eexists _, _.
  - by left.
Qed.

Lemma step_store_ok db db' :
  step db db' -> store_ok (data db) -> store_ok (data db').
Proof.
  intros Hstep Hok.
  destruct (step_data db db' Hstep)
    as [-> | [(clk & e & dg & Hi) | [(row & -> & Hid & Hst & Hcd)
       | [(date & t & u & ->) | (t & u & ->)]]]].
  - done.
  - by apply (insert_user_ok clk e dg (data db)).
  - by apply with_new_task_ok.
  - by apply update_completed_ok.
  - by apply delete_from_tasks_ok.
Qed.

Lemma reachable_store_ok db : reachable db -> store_ok (data db).
Proof.
  intros [c Hrtc]. revert db Hrtc.
  apply (rtc_ind_r (fun db => store_ok (data db)) (mkTaskDB c init_database)).
  - apply init_database_ok.
  - intros db1 db2 _ Hstep IH. by apply (step_store_ok db1 db2).
Qed.

(** X8: in every store the application reaches from the empty tables,
    each task is either active with no completion date or completed with
    one. *)
Theorem reachable_task_states db :
  reachable db ->
  forall r, r ∈ tasks (data db) ->
    (Tasks.status r = "active" ∧ Tasks.completion_date r = None)
    ∨ (Tasks.status r = "completed"
       ∧ exists date, Tasks.completion_date r = Some date).
Proof.
  intros Hr r Hin.
  destruct (reachable_store_ok db Hr) as (Hst & _).
  rewrite Forall_forall in Hst. exact (Hst r Hin).
Qed.



(** a step keeps the users there are, at their place *)
Lemma step_users db db' :
  step db db' -> users (data db) `prefix_of` users (data db').
Proof.
  intros Hstep.
  destruct (step_data db db' Hstep)
    as [-> | [(clk & e & dg & Hi) | [(row & -> & _)
       | [(date & t & u & ->) | (t & u & ->)]]]]; try done.
  unfold insert_user in Hi. case_bool_decide; [done|].
  injection Hi as <-. simpl. by eexists.
Qed.

Lemma rtc_step_users db db' :
  rtc step db db' -> users (data db) `prefix_of` users (data db').
Proof.
  induction 1 as [|db1 db2 db3 Hstep _ IH]; [done|].
  etrans; [by apply step_users|done].
Qed.

(** X11: users are never changed or removed, so credentials that
    [verify_user] accepts keep being accepted: after any further run of
    the application, with the connection open, [verify_user] returns the
    same identity. *)
Theorem login_persists email password db db' ident :
  verify_user sha256_hexdigest email password db = ([], Ok (Some ident)) ->
  rtc step db db' ->
  connect db' = None ->
  verify_user sha256_hexdigest email password db' = ([], Ok (Some ident)).
Proof.
  intros Hv Hrtc Hc'.
  assert (connect db = None) as Hc.
  { unfold verify_user, get_connection in Hv.
    destruct (connect db); [discriminate|done]. }
  rewrite CredentialFacts.verify_user_connected in Hv by done.
  rewrite CredentialFacts.verify_user_connected by done.
  destruct (rtc_step_users db db' Hrtc) as [k Hk].
  destruct (select_user email _ (data db)) as [u|] eqn:Hsel; [|discriminate].
  unfold select_user in *. rewrite Hk.
  by rewrite (find_app_Some _ _ k u Hsel).
Qed.

(** X12: in a reachable store read over an open connection, the active
    and the completed list of a user, whose id is an integer SQLite can
    hold, together have as many entries as the user has tasks: the total
    that [main] shows counts every task of the user once. *)
Theorem reachable_counts user_id db :
  reachable db ->
  connect db = None ->
  fits_int64 user_id = true ->
  exists active_tasks completed_tasks,
    get_tasks user_id "active" db = ([], Ok active_tasks)
    ∧ get_tasks user_id "completed" db = ([], Ok completed_tasks)
    ∧ (length active_tasks + length completed_tasks)%nat
      = length (filter (fun r => Tasks.user_id r = user_id)
                  (tasks (data db))).
Proof.
  intros Hr Hc Hu.
  destruct (reachable_store_ok db Hr) as (Hst & _).
  destruct (get_tasks_perm user_id "active" db Hc Hu) as (la & Hla & Hpa).
  destruct (get_tasks_perm user_id "completed" db Hc Hu)
    as (lc & Hlc & Hpc).
  exists la, lc. split; [done|]. split; [done|].
  rewrite Hpa, Hpc, !length_fmap. by apply rows_of_split.
Qed.

End Runs.

(** the run of [ApplicationFacts]: Ann registers and saves one task *)
Definition david_vertex : App.vertex_ai :=
  App.Model
    (ExtractionFacts.answering
       (ExtractionFacts.object_text ExtractionFacts.david_fields)).

Lemma registered_to_david_store :
  rtc (step Decoder.json_loads david_vertex CredentialFacts.sample_digest
         ApplicationFacts.no_reals)
    ApplicationFacts.registered ApplicationFacts.david_store.
Proof.
  apply (rtc_l _ _ ApplicationFacts.david_store); [|apply rtc_refl].
  by apply (step_task_form _ _ _ _ TaskStoreFacts.sample_clock
              ApplicationFacts.ann_identity true ExtractionFacts.david_note
              _ []).
Qed.

Lemma david_store_reachable :
  reachable Decoder.json_loads david_vertex CredentialFacts.sample_digest
    ApplicationFacts.no_reals ApplicationFacts.david_store.
Proof.
  exists None. apply (rtc_l _ _ ApplicationFacts.registered).
  - by apply (step_register _ _ _ _ TaskStoreFacts.sample_clock
                "ann@example.com" "Passw0rd" _ [] true).
  - apply registered_to_david_store.
Qed.

Lemma reachable_task_states_witness :
  (Tasks.status ApplicationFacts.david_row = "active"
   ∧ Tasks.completion_date ApplicationFacts.david_row = None)
  ∨ (Tasks.status ApplicationFacts.david_row = "completed"
     ∧ exists date,
         Tasks.completion_date ApplicationFacts.david_row = Some date).
Proof.
  apply (reachable_task_states Decoder.json_loads david_vertex
           CredentialFacts.sample_digest ApplicationFacts.no_reals
           ApplicationFacts.david_store david_store_reachable).
  by left.
Defined.



Lemma login_persists_witness :
  verify_user CredentialFacts.sample_digest "ann@example.com" "Passw0rd"
    ApplicationFacts.david_store
  = ([], Ok (Some ApplicationFacts.ann_identity)).
Proof.
  apply (login_persists Decoder.json_loads david_vertex
           CredentialFacts.sample_digest ApplicationFacts.no_reals
           "ann@example.com" "Passw0rd" ApplicationFacts.registered
           ApplicationFacts.david_store).
  - reflexivity.
  - apply registered_to_david_store.
  - reflexivity.
Defined.

Lemma reachable_counts_witness :
  exists active_tasks completed_tasks,
    get_tasks 1 "active" ApplicationFacts.david_store
    = ([], Ok active_tasks)
    ∧ get_tasks 1 "completed" ApplicationFacts.david_store
      = ([], Ok completed_tasks)
    ∧ (length active_tasks + length completed_tasks)%nat = 1%nat.
Proof.
  apply (reachable_counts Decoder.json_loads david_vertex
           CredentialFacts.sample_digest ApplicationFacts.no_reals 1
           ApplicationFacts.david_store david_store_reachable);
    reflexivity.
Defined.

End InvariantFacts.

(** ** More on the extraction pipeline *)
Module PipelineFacts.

Import Calendar App ExtractionFacts.

(** X13: [query_gemini] never raises. It returns a text only when the
    model was initialised and answered with that text, which is then not
    empty, and no error is shown; in every other case (no credentials, a
    failed initialisation, a call that raises, a missing or empty answer)
    it returns [None] and shows at least one error. *)
Theorem query_gemini_total v prompt :
  exists l r,
    query_gemini v prompt = (l, Ok r)
    ∧ (forall text, r = Some text ->
         l = [] ∧ text ≠ EmptyString
         ∧ exists g, v = Model g ∧ g prompt = Ok (Some text))
    ∧ (r = None -> l ≠ [])
    ∧ (forall g text, v = Model g -> g prompt = Ok (Some text) ->
                      text ≠ EmptyString -> r = Some text).
Proof.
  destruct v as [|e|g].
  - eexists _, None. by repeat split.
  - eexists _, None. by repeat split.
  - rewrite query_gemini_model.
    destruct (g prompt) as [[text|]|e] eqn:Hg.
    + case_bool_decide as Hempty.
      * eexists _, None. repeat split; try done.
        intros g' text' [= <-]. rewrite Hg. intros [= <-]. done.
      * eexists _, (Some text). split; [done|]. split; [|split]; [|done|].
        -- intros ? [= <-]. split; [done|]. split; [done|]. by exists g.
        -- intros g' text' [= <-]. rewrite Hg. by intros [= <-].
    + eexists _, None. repeat split; try done.
      intros g' text' [= <-]. rewrite Hg. discriminate.
    + eexists _, None. repeat split; try done.
      intros g' text' [= <-]. rewrite Hg. discriminate.
Qed.

Lemma query_gemini_total_witness :
  exists l r,
    query_gemini (Model (answering "ok")) "prompt" = (l, Ok r)
    ∧ r = Some "ok".
Proof.
  destruct (query_gemini_total (Model (answering "ok")) "prompt")
    as (l & r & Hq & _ & _ & Hr).
  exists l, r. split; [exact Hq|].
  apply (Hr (answering "ok") "ok" eq_refl eq_refl). discriminate.
Defined.

Lemma query_gemini_None_shown v prompt l :
  query_gemini v prompt = (l, Ok None) -> l ≠ [].
Proof.
  destruct v as [|e|g]; [by intros [= <-]..|].
  rewrite query_gemini_model.
  destruct (g prompt) as [[text|]|e]; [case_bool_decide|..];
    intros [= <-]; done.
Qed.

Lemma lower_length s : String.length (PyStr.lower s) = String.length s.
Proof. induction s as [|c s IH]; simpl; [done|]. by rewrite IH. Qed.

Section Parse.

Variable json_loads : string -> res json.
Variable vertex : vertex_ai.

Local Abbreviation parse_task := (parse_task json_loads vertex).

(** X14: a failure of [parse_task] is never silent and a success never
    shows an error: it returns [None] exactly when it has shown at least
    one [st.error] message. *)
Theorem parse_task_error_shown now note :
  exists l r,
    parse_task now note = (l, Ok r)
    ∧ (r = None <-> l ≠ []).
Proof.
  destruct (query_gemini_returns vertex (user_prompt note))
    as (l0 & [text|] & Hq & Htext).
  - destruct (Htext text eq_refl) as (Hne & -> & _).
    destruct (unwrap_returns (PyStr.strip text)) as [r Hu].
    rewrite (parse_task_text json_loads vertex now note text r Hq Hne Hu).
    unfold reported.
    assert (forall m : st_error,
              exists l r, ([m], @Ok (option json) None) = (l, Ok r)
                          ∧ (r = None <-> l ≠ [])) as Hfail.
    { intros m. exists [m], None. split; [done|]. split; [|done].
      intros _. discriminate. }
    destruct (json_loads r) as [parsed|e]; [|apply Hfail].
    destruct (handle_date now parsed) as [l [p|e]]; [|apply Hfail].
    destruct (forallb (has_field p) required_fields); [|apply Hfail].
    exists [], (Some p). split; [done|]. split; [discriminate|].
    intros Hnil. by destruct Hnil.
  - rewrite (parse_task_no_text json_loads vertex now note l0 Hq).
    exists l0, None. split; [done|]. split; [|done]. intros _.
    by apply (query_gemini_None_shown vertex (user_prompt note)).
Qed.

(** X15: a task [parse_task] returns is a dictionary with the four
    required fields whose due date is a string, and that string is not
    the word tomorrow in any letter case; the dictionary is not empty, so
    [main] goes on to save it. *)
Theorem parse_task_due_date now note l p :
  parse_task now note = (l, Ok (Some p)) ->
  l = []
  ∧ py_truthy p = true
  ∧ exists d s,
      p = JDict d
      ∧ d !! "due_date" = Some (JStr s)
      ∧ PyStr.lower s ≠ "tomorrow"
      ∧ is_Some (d !! "task") ∧ is_Some (d !! "customer")
      ∧ is_Some (d !! "priority").
Proof.
  intros Hp.
  destruct (query_gemini_returns vertex (user_prompt note))
    as (l0 & [text|] & Hq & Htext);
    [|rewrite (parse_task_no_text json_loads vertex now note l0 Hq) in Hp;
      discriminate].
  destruct (Htext text eq_refl) as (Hne & -> & _).
  destruct (unwrap_returns (PyStr.strip text)) as [r Hu].
  rewrite (parse_task_text json_loads vertex now note text r Hq Hne Hu) in Hp.
  unfold reported in Hp.
  destruct (json_loads r) as [parsed|e]; [|discriminate].
  destruct (handle_date now parsed) as [l1 [p'|e]] eqn:Hh; [|discriminate].
  destruct (forallb (has_field p') required_fields) eqn:Hall; [|discriminate].
  injection Hp as <- <-. split; [done|].
  pose proof (handle_date_inv _ _ _ _ Hh) as (_ & d0 & -> & Hcase).
  rewrite forallb_forall in Hall.
  assert (forall f, f ∈ required_fields -> has_field p' f = true) as Hfields.
  { intros f Hf. apply Hall. by apply list_elem_of_In. }
  assert (exists d, p' = JDict d) as [d ->].
  { destruct Hcase as [-> | [t ->]]; by eexists. }
  assert (forall f, f ∈ required_fields -> is_Some (d !! f)) as Hsome.
  { intros f Hf. specialize (Hfields f Hf). simpl in Hfields.
    unfold py_in in Hfields. by apply bool_decide_eq_true in Hfields. }
  split.
  { simpl. apply negb_true_iff, bool_decide_eq_false. intros ->.
    destruct (Hsome "task") as [v Hv]; [apply list_elem_of_In; simpl; tauto|].
    by rewrite lookup_empty in Hv. }
  assert (exists s, d !! "due_date" = Some (JStr s)
                    ∧ PyStr.lower s ≠ "tomorrow") as (s & Hs & Hlow).
  { destruct (d0 !! "due_date") as [v|] eqn:Hd0.
    - destruct v as [| | | |s| |];
        try (rewrite (handle_date_not_str now d0 _ Hd0) in Hh by done;
             discriminate).
      destruct (decide (PyStr.lower s = "tomorrow")) as [Ht|Ht].
      + rewrite (handle_date_tomorrow now d0 s Hd0 Ht) in Hh.
        destruct (add_one_day (on now)) as [t|]; [|discriminate].
        injection Hh as _ Heq. rewrite <- Heq.
        eexists. split; [apply lookup_insert_eq|].
        intros Hbad. apply (f_equal String.length) in Hbad.
        rewrite lower_length, strftime_dmy_length in Hbad. discriminate.
      + rewrite (handle_date_other now d0 s Hd0 Ht) in Hh.
        injection Hh as _ Heq. rewrite <- Heq. by exists s.
    - rewrite (handle_date_absent now d0 Hd0) in Hh.
      injection Hh as _ Heq. rewrite <- Heq in Hsome.
      destruct (Hsome "due_date") as [v Hv];
        [apply list_elem_of_In; simpl; tauto|congruence]. }
  exists d, s. repeat split; try done;
    apply Hsome; apply list_elem_of_In; simpl; tauto.
Qed.

End Parse.

Lemma parse_task_error_shown_witness :
  exists l r,
    parse_task Decoder.json_loads (Model (answering sample_object)) nov13
      david_note
    = (l, Ok r)
    ∧ (r = None <-> l ≠ []).
Proof.
  apply (parse_task_error_shown Decoder.json_loads
           (Model (answering sample_object)) nov13 david_note).
Defined.

Lemma parse_task_due_date_witness :
  exists d s,
    JDict (<["due_date" := JStr "14-11-2024"]> david_dict) = JDict d
    ∧ d !! "due_date" = Some (JStr s)
    ∧ PyStr.lower s ≠ "tomorrow".
Proof.
  destruct (parse_task_due_date Decoder.json_loads
              (Model (answering (object_text david_fields))) nov13 david_note
              [] (JDict (<["due_date" := JStr "14-11-2024"]> david_dict)))
    as (_ & _ & d & s & Hp & Hd & Hs & _).
  - reflexivity.
  - by exists d, s.
Defined.

(** *** Text around the fence *)

(** no backtick in the text *)
Definition tickless (s : string) : Prop :=
  PyStr.any (fun c => Ascii.eqb c "`") s = false.

Lemma tickless_cons c s :
  tickless (String c s) <-> c ≠ "`"%char ∧ tickless s.
Proof.
  unfold tickless. simpl. rewrite orb_false_iff.
  destruct (Ascii.eqb_spec c "`") as [Heq|Hne].
  - split; [by intros [? _] | intros [Hc _]; by destruct Hc].
  - split; intros [_ Hs]; by split.
Qed.

Lemma rev_app_rev_app s a b :
  String.rev_app (String.rev_app s a) b = String.rev_app a (s +:+ b).
Proof.
  revert a. induction s as [|c s IH]; intros a; [done|].
  simpl. by rewrite IH.
Qed.

Lemma append_empty_r s : s +:+ EmptyString = s.
Proof.
  induction s as [|c s IH]; [done|].
  change (String c (s +:+ EmptyString) = String c s). by f_equal.
Qed.

Lemma rev_rev_app s : String.rev (String.rev_app s EmptyString) = s.
Proof.
  unfold String.rev. by rewrite rev_app_rev_app, append_empty_r.
Qed.

Lemma rev_involutive s : String.rev (String.rev s) = s.
Proof. apply rev_rev_app. Qed.

Lemma any_rev_app p s a :
  PyStr.any p (String.rev_app s a) = PyStr.any p s || PyStr.any p a.
Proof.
  revert a. induction s as [|c s IH]; intros a; [done|].
  simpl. rewrite IH. simpl. by destruct (p c), (PyStr.any p s), (PyStr.any p a).
Qed.

Lemma lstrip_by_none p s : PyStr.any p s = false -> PyStr.lstrip_by p s = s.
Proof.
  destruct s as [|c s]; [done|]. simpl.
  by destruct (p c).
Qed.

(** stripping characters the text does not contain changes nothing *)
Lemma strip_by_none p s : PyStr.any p s = false -> PyStr.strip_by p s = s.
Proof.
  intros Hs. unfold PyStr.strip_by, PyStr.rstrip_by.
  rewrite (lstrip_by_none p s Hs), lstrip_by_none.
  - apply rev_involutive.
  - unfold String.rev. by rewrite any_rev_app, Hs.
Qed.

Lemma prefix_fence_other c s :
  c ≠ "`"%char -> String.prefix "```" (String c s) = false.
Proof.
  intros Hc.
  change (String.prefix "```" (String c s))
    with (match ascii_dec "`" c with
          | left _ => String.prefix "``" s
          | right _ => false
          end).
  by destruct (ascii_dec "`" c) as [<-|_].
Qed.

Lemma split_go_tickless s rest cur :
  tickless s ->
  PyStr.split_go "```" (s +:+ rest) O cur
  = PyStr.split_go "```" rest O (String.rev_app s cur).
Proof.
  revert cur. induction s as [|c s IH]; intros cur Hs; [done|].
  apply tickless_cons in Hs as [Hc Hs].
  change (String c s +:+ rest) with (String c (s +:+ rest)).
  rewrite PyStrFacts.split_go_step, prefix_fence_other by done.
  by rewrite IH.
Qed.

Lemma split_go_fence rest cur :
  PyStr.split_go "```" ("```" +:+ rest) O cur
  = String.rev cur :: PyStr.split_go "```" rest O EmptyString.
Proof.
  change ("```" +:+ rest) with (String "`" (String "`" (String "`" rest))).
  rewrite PyStrFacts.split_go_step.
  assert (String.prefix "```" (String "`" (String "`" (String "`" rest)))
          = true) as ->; [|done].
  simpl. destruct (ascii_dec "`" "`"); [|done]. by destruct rest.
Qed.

Lemma contains_fence pre rest :
  PyStr.contains "```" (pre +:+ "```" +:+ rest) = true.
Proof.
  induction pre as [|c pre IH].
  - change (EmptyString +:+ "```" +:+ rest)
      with (String "`" (String "`" (String "`" rest))).
    simpl. destruct (ascii_dec "`" "`"); [|done]. by destruct rest.
  - change (String c pre +:+ "```" +:+ rest)
      with (String c (pre +:+ "```" +:+ rest)).
    cbn [PyStr.contains]. rewrite IH. apply orb_true_r.
Qed.

Lemma contains_fence_tickless s :
  tickless s -> PyStr.contains "```" s = false.
Proof.
  induction s as [|c s IH]; intros Hs; [done|].
  apply tickless_cons in Hs as [Hc Hs].
  cbn [PyStr.contains]. rewrite prefix_fence_other by done. by apply IH.
Qed.

Lemma tickless_drop n s : tickless s -> tickless (PyStr.drop n s).
Proof.
  revert s. induction n as [|n IH]; intros s Hs; [by destruct s|].
  destruct s as [|c s]; [done|]. simpl.
  apply tickless_cons in Hs as [_ Hs]. by apply IH.
Qed.

Lemma any_ext p q s :
  (forall c, p c = q c) -> PyStr.any p s = PyStr.any q s.
Proof.
  intros Hpq. induction s as [|c s IH]; [done|]. simpl. by rewrite Hpq, IH.
Qed.

Lemma strip_chars_tickless s :
  tickless s -> PyStr.strip_chars "`" s = s.
Proof.
  intros Hs. unfold PyStr.strip_chars. apply strip_by_none.
  etrans; [|exact Hs]. apply any_ext. intros c. simpl. apply orb_false_r.
Qed.

(** X16: when the answer of the model has a fenced block, [unwrap]
    keeps the inside of the first block only: whatever comes before the
    opening fence and after the closing one is dropped, a leading json
    tag is removed, and the rest is stripped of surrounding white space.
    An answer without any backtick is only stripped. *)
Theorem unwrap_fenced pre body post :
  tickless pre ->
  tickless body ->
  unwrap (pre +:+ "```" +:+ body +:+ "```" +:+ post)
  = ([], Ok (PyStr.strip (if PyStr.startswith "json" body
                          then PyStr.drop 4 body else body)))
  ∧ unwrap body = ([], Ok (PyStr.strip body)).
Proof.
  intros Hpre Hbody. split.
  - unfold unwrap. rewrite contains_fence. unfold PyStr.split.
    rewrite split_go_tickless, split_go_fence by done.
    rewrite split_go_tickless, split_go_fence by done.
    cbn [py_index lookup list_lookup lift bind]. rewrite rev_rev_app.
    destruct (PyStr.startswith "json" body).
    + cbn [ret bind app]. rewrite strip_chars_tickless; [done|].
      by apply tickless_drop.
    + cbn [ret bind app]. by rewrite strip_chars_tickless.
  - unfold unwrap. rewrite contains_fence_tickless by done.
    cbn [ret bind app]. by rewrite strip_chars_tickless.
Qed.

Lemma unwrap_fenced_witness :
  unwrap ("Here is the task: " +:+ "```" +:+ "json {} " +:+ "```"
          +:+ " Anything else?")
  = ([], Ok "{}").
Proof.
  apply (unwrap_fenced "Here is the task: " "json {} " " Anything else?").
  - reflexivity.
  - reflexivity.
Defined.

(** *** Due dates and the overdue flag *)

Lemma date_ltb_trans a b c :
  date_ltb a b = true -> date_ltb b c = true -> date_ltb a c = true.
Proof.
  destruct a as [ay am ad], b as [bY bm bd], c as [cy cm cd].
  unfold date_ltb. simpl. intros H1 H2. revert H1 H2. zcases.
Qed.

Lemma date_ltb_asym a b : date_ltb a b = true -> date_ltb b a = false.
Proof.
  destruct a as [ay am ad], b as [bY bm bd].
  unfold date_ltb. simpl. intros H1. revert H1. zcases.
Qed.

(** X17: the overdue flag only ever turns on: a due date that
    [check_overdue] reports overdue on one day is reported overdue on
    every later day. *)
Theorem overdue_stays_overdue now now' due_date_str :
  check_overdue now due_date_str = true ->
  date_ltb (on now) (on now') = true ->
  check_overdue now' due_date_str = true.
Proof.
  unfold check_overdue. destruct due_date_str as [s|]; [|done].
  destruct (strptime_dmy s) as [due|]; [|done].
  apply date_ltb_trans.
Qed.

Lemma overdue_stays_overdue_witness :
  check_overdue (mkDateTime (mkDate 2025 1 1) 0 0) (Some "12-11-2024") = true.
Proof.
  apply (overdue_stays_overdue nov13 (mkDateTime (mkDate 2025 1 1) 0 0)
           (Some "12-11-2024")).
  - reflexivity.
  - reflexivity.
Defined.

(** X18: the due date [parse_task] writes for the word tomorrow is
    read back by [check_overdue] as the day after the extraction: the
    task is not overdue on the day of the extraction nor on the next day,
    and it is overdue on every day after that. *)
Theorem due_tomorrow_overdue now tomorrow :
  valid_date (on now) = true ->
  add_one_day (on now) = Some tomorrow ->
  check_overdue now (Some (strftime_dmy tomorrow)) = false
  ∧ (forall now', on now' = tomorrow ->
       check_overdue now' (Some (strftime_dmy tomorrow)) = false)
  ∧ (forall now', date_ltb tomorrow (on now') = true ->
       check_overdue now' (Some (strftime_dmy tomorrow)) = true).
Proof.
  intros Hv Ha.
  destruct (add_one_day_next (on now) tomorrow Hv Ha) as (Hvt & Hlt & _).
  assert (forall now', check_overdue now' (Some (strftime_dmy tomorrow))
                       = date_ltb tomorrow (on now')) as Hco.
  { intros now'. unfold check_overdue.
    by rewrite OverdueFacts.strptime_strftime. }
  split; [|split].
  - rewrite Hco. by apply date_ltb_asym.
  - intros now' <-. rewrite Hco. apply OverdueFacts.date_ltb_irrefl.
  - intros now' Hlater. by rewrite Hco.
Qed.

Lemma due_tomorrow_overdue_witness :
  check_overdue nov13 (Some "14-11-2024") = false.
Proof.
  destruct (due_tomorrow_overdue nov13 (mkDate 2024 11 14)) as [Htoday _].
  - reflexivity.
  - reflexivity.
  - exact Htoday.
Defined.

(** *** From the note to the stored task *)

(** the due date after the normalisation of [parse_task] *)
Definition normalised_due (now : datetime) (due : string) : string :=
  if bool_decide (PyStr.lower due = "tomorrow")
  then match add_one_day (on now) with
       | Some tomorrow => strftime_dmy tomorrow
       | None => due
       end
  else due.

Section EndToEnd.

Variable json_loads : string -> res json.
Variable real_text : string -> option string.

(** X19: from the note to the stored task. For a submitted, non-empty
    note for which the model answers with a text that decodes to a
    dictionary with four string fields, before the last year of the
    calendar, [parse_task] shows nothing and returns the dictionary with
    the word tomorrow replaced by the next day, and the task form ends as
    [save_task] does on that record: when [save_task] answers [True]
    nothing is shown and the store has gained exactly one row, an active
    task of the logged-in user with the task, the customer and the
    priority of the answer and the normalised due date; when it answers
    [False] the form adds [Error saving task] to what [save_task] showed
    and the store is as it was. *)
Theorem note_to_task g clk user note text r (d : pydict) t c du p self :
  note ≠ EmptyString ->
  g (user_prompt note) = Ok (Some text) ->
  text ≠ EmptyString ->
  unwrap (PyStr.strip text) = ([], Ok r) ->
  json_loads r = Ok (JDict d) ->
  d !! "task" = Some (JStr t) ->
  d !! "customer" = Some (JStr c) ->
  d !! "due_date" = Some (JStr du) ->
  d !! "priority" = Some (JStr p) ->
  year (on (Database.now clk)) < MAXYEAR ->
  let record :=
    JDict (<["due_date" := JStr (normalised_due (Database.now clk) du)]> d) in
  let row :=
    Tasks.mk (Database.next_task_id (Database.data self)) (Identity.id user)
      t (Some c) (Some (normalised_due (Database.now clk) du)) (Some p)
      "active" None (Database.CURRENT_TIMESTAMP clk) in
  parse_task json_loads (Model g) (Database.now clk) note
  = ([], Ok (Some record))
  ∧ exists l b self',
      Database.save_task real_text clk (Identity.id user) record self
      = (l, Ok (b, self'))
      ∧ Main.task_form json_loads (Model g) real_text clk user true note self
        = (l ++ (if b then [] else [ErrorSavingTaskUI]), Ok self')
      ∧ (b = true ->
         l = []
         ∧ self' = Database.with_data self
                     (LifecycleFacts.with_new_task (Database.data self) row))
      ∧ (b = false -> self' = self).
Proof.
  intros Hnote Hg Hne Hu Hj Ht Hc Hdu Hp Hy record row.
  assert (query_gemini (Model g) (user_prompt note) = ([], Ok (Some text)))
    as Hq.
  { rewrite query_gemini_model, Hg. by rewrite bool_decide_eq_false_2. }
  set (d' := <["due_date" := JStr (normalised_due (Database.now clk) du)]> d).
  assert (handle_date (Database.now clk) (JDict d) = ([], Ok (JDict d')))
    as Hh.
  { unfold d', normalised_due.
    destruct (decide (PyStr.lower du = "tomorrow")) as [Hlow|Hlow].
    - rewrite (handle_date_tomorrow _ d du Hdu Hlow).
      rewrite bool_decide_eq_true_2 by done.
      by destruct (add_one_day_is_Some _ Hy) as [tm ->].
    - rewrite (handle_date_other _ d du Hdu Hlow).
      rewrite bool_decide_eq_false_2 by done.
      by rewrite insert_id. }
  assert (d' !! "task" = Some (JStr t)) as Ht'
    by (unfold d'; by rewrite lookup_insert_ne).
  assert (d' !! "customer" = Some (JStr c)) as Hc'
    by (unfold d'; by rewrite lookup_insert_ne).
  assert (d' !! "priority" = Some (JStr p)) as Hp'
    by (unfold d'; by rewrite lookup_insert_ne).
  assert (d' !! "due_date"
          = Some (JStr (normalised_due (Database.now clk) du))) as Hdu'
    by (unfold d'; by rewrite lookup_insert_eq).
  assert (parse_task json_loads (Model g) (Database.now clk) note
          = ([], Ok (Some (JDict d')))) as Hparse.
  { rewrite (parse_task_text json_loads (Model g) _ note text r Hq Hne Hu).
    rewrite Hj, Hh. simpl. unfold py_in.
    rewrite Ht', Hc', Hdu', Hp'.
    by rewrite !bool_decide_eq_true_2 by by eexists. }
  assert (exists l b self',
            Database.save_task real_text clk (Identity.id user) (JDict d') self
            = (l, Ok (b, self'))
            ∧ (b = true ->
               l = []
               ∧ self' = Database.with_data self
                           (LifecycleFacts.with_new_task (Database.data self)
                              row))
            ∧ (b = false -> self' = self))
    as (l & b & self' & Hs & Htrue & Hfalse).
  { destruct (Database.connect self) as [e|] eqn:Hconn.
    - exists [DatabaseConnectionError e], false, self.
      split; [|split; [discriminate|done]].
      unfold Database.save_task, Database.get_connection. by rewrite Hconn.
    - rewrite LifecycleFacts.save_task_connected by done.
      cbn [lift bind py_item]. rewrite Ht', Hc', Hdu', Hp'.
      cbn [lift bind app]. unfold Database.insert_task.
      destruct (Database.fits_int64 (Identity.id user)) eqn:Hfit.
      + rewrite (TaskStoreFacts.bind_int_Ok _ Hfit).
        exists [], true,
          (Database.with_data self
             (LifecycleFacts.with_new_task (Database.data self) row)).
        split; [reflexivity|]. split; [done|discriminate].
      + rewrite (TaskStoreFacts.bind_int_Raise _ Hfit).
        exists [ErrorSavingTask OverflowError], false, self.
        split; [reflexivity|]. split; [discriminate|done]. }
  split; [exact Hparse|].
  exists l, b, self'. split; [exact Hs|]. split; [|by split].
  unfold Main.task_form.
  rewrite bool_decide_eq_false_2 by done. simpl.
  rewrite Hparse. simpl.
  rewrite bool_decide_eq_false_2.
  2:{ intros Hempty. rewrite Hempty, lookup_empty in Ht'. discriminate. }
  simpl. fold d'. rewrite Hs. simpl.
  destruct b; simpl; by rewrite ?app_nil_r.
Qed.

End EndToEnd.

Lemma note_to_task_witness :
  parse_task Decoder.json_loads
    (Model (answering (object_text david_fields)))
    (Database.now TaskStoreFacts.sample_clock) david_note
  = ([], Ok (Some (JDict (<["due_date" := JStr "14-11-2024"]> david_dict)))).
Proof.
  destruct (note_to_task Decoder.json_loads ApplicationFacts.no_reals
              (answering (object_text david_fields))
              TaskStoreFacts.sample_clock
              ApplicationFacts.ann_identity david_note
              (object_text david_fields) (object_text david_fields)
              david_dict
              "Write an email to David on ABC project" "David" "tomorrow"
              "Medium" ApplicationFacts.registered)
    as [Hparse _].
  - discriminate.
  - reflexivity.
  - discriminate.
  - reflexivity.
  - reflexivity.
  - reflexivity.
  - reflexivity.
  - reflexivity.
  - reflexivity.
  - reflexivity.
  - exact Hparse.
Defined.

End PipelineFacts.

(** ** Regular expressions, as [re.match] uses them in [auth.py] *)
Module Re.

Inductive regex :=
| Empty
| Eps
| Class (p : ascii -> bool)
| Seq (r1 r2 : regex)
| Alt (r1 r2 : regex)
| Star (r : regex).

(** [r+] *)
Definition Plus (r : regex) : regex := Seq r (Star r).

(** [c] alone *)
Definition Chr (c : ascii) : regex := Class (Ascii.eqb c).

Fixpoint nullable (r : regex) : bool :=
  match r with
  | Empty => false
  | Eps => true
  | Class _ => false
  | Seq r1 r2 => nullable r1 && nullable r2
  | Alt r1 r2 => nullable r1 || nullable r2
  | Star _ => true
  end.

(** what is left of [r] after the character [c] *)
Fixpoint deriv (c : ascii) (r : regex) : regex :=
  match r with
  | Empty => Empty
  | Eps => Empty
  | Class p => if p c then Eps else Empty
  | Seq r1 r2 =>
      if nullable r1
      then Alt (Seq (deriv c r1) r2) (deriv c r2)
      else Seq (deriv c r1) r2
  | Alt r1 r2 => Alt (deriv c r1) (deriv c r2)
  | Star r1 => Seq (deriv c r1) (Star r1)
  end.

(** the whole of [s] matches [r] *)
Fixpoint fullmatch (r : regex) (s : string) : bool :=
  match s with
  | EmptyString => nullable r
  | String c s' => fullmatch (deriv c r) s'
  end.

(** [\w] on a [str]: alphanumeric or the underscore *)
Definition is_word (c : ascii) : bool :=
  PyStr.isupper c || PyStr.islower c || PyStr.isdigit c
  || ((188 <=? PyStr.code c) && (PyStr.code c <=? 190))
  || Ascii.eqb c "_".

End Re.

(** ** [auth.py]: the email pattern *)
Module AuthForms.

Import Re.

(** [[\w\.-]] *)
Definition name_char (c : ascii) : bool :=
  is_word c || Ascii.eqb c "." || Ascii.eqb c "-".

(** [^[\w\.-]+@[\w\.-]+\.\w+$]: [re.match] starts at [^], and [$] lets
    one final newline follow the match *)
Definition pattern : regex :=
  Seq (Plus (Class name_char))
    (Seq (Chr "@")
       (Seq (Plus (Class name_char))
          (Seq (Chr ".")
             (Seq (Plus (Class is_word))
                (Alt Eps (Chr "010")))))).

Definition validate_email (email : string) : bool :=
  fullmatch pattern email.

End AuthForms.

(** ** What the matcher accepts *)
Module ReFacts.

Import Re.

(** the texts a pattern stands for *)
Fixpoint lang (r : regex) (s : string) : Prop :=
  match r with
  | Empty => False
  | Eps => s = EmptyString
  | Class p => exists c, p c = true ∧ s = String c EmptyString
  | Seq r1 r2 => exists s1 s2, s = s1 +:+ s2 ∧ lang r1 s1 ∧ lang r2 s2
  | Alt r1 r2 => lang r1 s ∨ lang r2 s
  | Star r1 =>
      exists l, s = foldr String.append EmptyString l
                ∧ Forall (fun x => lang r1 x ∧ x ≠ EmptyString) l
  end.

Lemma append_cons c s t : String c s +:+ t = String c (s +:+ t).
Proof. reflexivity. Qed.

Lemma append_nil_l t : EmptyString +:+ t = t.
Proof. reflexivity. Qed.

Lemma append_eq_nil s t :
  s +:+ t = EmptyString -> s = EmptyString ∧ t = EmptyString.
Proof. destruct s; [by rewrite append_nil_l|discriminate]. Qed.

Lemma lang_star_nil r : lang (Star r) EmptyString.
Proof. exists []. by split. Qed.

Lemma lang_star_cons r s1 s2 :
  lang r s1 -> lang (Star r) s2 -> lang (Star r) (s1 +:+ s2).
Proof.
  intros H1 (l & -> & Hl). destruct s1 as [|c s1].
  - rewrite append_nil_l. by exists l.
  - exists (String c s1 :: l). split; [done|]. by constructor.
Qed.

Lemma nullable_lang r : nullable r = true <-> lang r EmptyString.
Proof.
  induction r as [| |p|r1 IH1 r2 IH2|r1 IH1 r2 IH2|r IH]; simpl.
  - split; [discriminate|done].
  - done.
  - split; [discriminate|]. by intros (c & _ & [=]).
  - rewrite andb_true_iff, IH1, IH2. split.
    + intros [H1 H2]. by exists EmptyString, EmptyString.
    + intros (s1 & s2 & Heq & H1 & H2).
      symmetry in Heq. apply append_eq_nil in Heq as [-> ->]. by split.
  - by rewrite orb_true_iff, IH1, IH2.
  - split; [intros _; apply lang_star_nil|done].
Qed.

Lemma deriv_lang c r s : lang (deriv c r) s <-> lang r (String c s).
Proof.
  revert s.
  induction r as [| |p|r1 IH1 r2 IH2|r1 IH1 r2 IH2|r IH]; intros s; simpl.
  - done.
  - split; [done|discriminate].
  - destruct (p c) eqn:Hp; simpl.
    + split.
      * intros ->. by exists c.
      * by intros (c' & _ & [= -> ->]).
    + split; [done|]. intros (c' & Hc' & [= -> ->]). congruence.
  - assert ((exists s1 s2, s = s1 +:+ s2 ∧ lang (deriv c r1) s1 ∧ lang r2 s2)
            <-> exists s1 s2, String c s = String c s1 +:+ s2
                              ∧ lang r1 (String c s1) ∧ lang r2 s2) as Hstep.
    { split; intros (s1 & s2 & Heq & H1 & H2); exists s1, s2.
      - rewrite append_cons. subst s. split; [done|]. split; [|done].
        by apply IH1.
      - rewrite append_cons in Heq. injection Heq as ->.
        split; [done|]. split; [|done]. by apply IH1. }
    destruct (nullable r1) eqn:Hn; simpl.
    + rewrite Hstep, IH2. split.
      * intros [(s1 & s2 & Heq & H1 & H2) | H2].
        -- by exists (String c s1), s2.
        -- exists EmptyString, (String c s). split; [done|].
           split; [by apply nullable_lang|done].
      * intros (s1 & s2 & Heq & H1 & H2). destruct s1 as [|c' s1].
        -- right. rewrite append_nil_l in Heq. by subst s2.
        -- left. rewrite append_cons in Heq. injection Heq as <- ->.
           by exists s1, s2.
    + rewrite Hstep. split.
      * intros (s1 & s2 & Heq & H1 & H2). by exists (String c s1), s2.
      * intros (s1 & s2 & Heq & H1 & H2). destruct s1 as [|c' s1].
        -- apply nullable_lang in H1. congruence.
        -- rewrite append_cons in Heq. injection Heq as <- ->.
           by exists s1, s2.
  - by rewrite IH1, IH2.
  - split.
    + intros (s1 & s2 & -> & H1 & H2). apply IH in H1.
      rewrite <- append_cons. by apply lang_star_cons.
    + intros (l & Heq & Hl). destruct Hl as [|x l [Hx Hne] Hl].
      * discriminate.
      * destruct x as [|c' x]; [done|]. simpl in Heq.
        rewrite append_cons in Heq. injection Heq as <- ->.
        exists x, (foldr String.append EmptyString l).
        split; [done|]. split; [by apply IH|]. by exists l.
Qed.

(** the matcher decides the language *)
Lemma fullmatch_lang r s : fullmatch r s = true <-> lang r s.
Proof.
  revert r. induction s as [|c s IH]; intros r; simpl.
  - apply nullable_lang.
  - by rewrite IH, deriv_lang.
Qed.

(** every character of the text is in the class *)
Fixpoint all_chars (p : ascii -> bool) (s : string) : bool :=
  match s with
  | EmptyString => true
  | String c s' => p c && all_chars p s'
  end.

Lemma all_chars_app p s t :
  all_chars p (s +:+ t) = all_chars p s && all_chars p t.
Proof.
  induction s as [|c s IH]; [done|].
  rewrite append_cons. simpl. rewrite IH. by destruct (p c).
Qed.

Lemma lang_star_class p s :
  lang (Star (Class p)) s <-> all_chars p s = true.
Proof.
  split.
  - intros (l & -> & Hl). induction Hl as [|x l [(c & Hc & ->) _] _ IH];
      [done|].
    simpl. rewrite all_chars_app, IH. simpl. by rewrite Hc.
  - induction s as [|c s IH]; [intros _; apply lang_star_nil|].
    simpl. rewrite andb_true_iff. intros [Hc Hs].
    apply (lang_star_cons (Class p) (String c EmptyString) s);
      [by exists c | by apply IH].
Qed.

(** [[class]+]: a non-empty text of characters of the class *)
Lemma lang_plus_class p s :
  lang (Plus (Class p)) s <-> s ≠ EmptyString ∧ all_chars p s = true.
Proof.
  unfold Plus. split.
  - intros (s1 & s2 & -> & (c & Hc & ->) & H2).
    apply lang_star_class in H2. rewrite append_cons. simpl.
    by rewrite Hc, append_nil_l, H2.
  - intros [Hne Hs]. destruct s as [|c s]; [done|].
    simpl in Hs. apply andb_true_iff in Hs as [Hc Hs].
    exists (String c EmptyString), s. split; [done|].
    split; [by exists c | by apply lang_star_class].
Qed.

Lemma lang_chr c s : lang (Chr c) s <-> s = String c EmptyString.
Proof.
  unfold Chr. simpl. split.
  - intros (c' & Hc & ->). by apply Ascii.eqb_eq in Hc as ->.
  - intros ->. exists c. split; [apply Ascii.eqb_refl|done].
Qed.

End ReFacts.

(** ** The addresses [validate_email] accepts *)
Module EmailFacts.

Import Re ReFacts AuthForms PipelineFacts.

Definition newline : string := String "010" EmptyString.

(** the texts the pattern denotes *)
Lemma pattern_lang email :
  lang pattern email
  <-> exists local_part domain tld tail,
        email = local_part +:+ "@" +:+ domain +:+ "." +:+ tld +:+ tail
        ∧ (tail = EmptyString ∨ tail = newline)
        ∧ local_part ≠ EmptyString
        ∧ all_chars name_char local_part = true
        ∧ domain ≠ EmptyString
        ∧ all_chars name_char domain = true
        ∧ tld ≠ EmptyString
        ∧ all_chars is_word tld = true.
Proof.
  unfold pattern. split.
  - intros (l & s1 & -> & Hl & a & s2 & -> & Ha & d & s3 & -> & Hd
            & dot & s4 & -> & Hdot & t & tail & -> & Ht & Htail).
    apply lang_plus_class in Hl as [Hl1 Hl2].
    apply lang_plus_class in Hd as [Hd1 Hd2].
    apply lang_plus_class in Ht as [Ht1 Ht2].
    apply lang_chr in Ha as ->. apply lang_chr in Hdot as ->.
    exists l, d, t, tail. split; [done|]. split; [|done].
    destruct Htail as [->|Hnl]; [by left|].
    right. by apply lang_chr in Hnl.
  - intros (l & d & t & tail & -> & Htail & Hl1 & Hl2 & Hd1 & Hd2 & Ht1 & Ht2).
    exists l, ("@" +:+ d +:+ "." +:+ t +:+ tail).
    split; [done|]. split; [by apply lang_plus_class|].
    exists "@", (d +:+ "." +:+ t +:+ tail).
    split; [done|]. split; [by apply lang_chr|].
    exists d, ("." +:+ t +:+ tail).
    split; [done|]. split; [by apply lang_plus_class|].
    exists ".", (t +:+ tail).
    split; [done|]. split; [by apply lang_chr|].
    exists t, tail.
    split; [done|]. split; [by apply lang_plus_class|].
    destruct Htail as [-> | ->]; [by left|].
    right. by apply lang_chr.
Qed.

(** X20: [validate_email] accepts exactly the texts of the form
    local@domain.tld, possibly followed by one newline, where the local
    part and the domain are non-empty and made of word characters, dots
    and dashes, and the last part is non-empty and made of word
    characters only. *)
Theorem validate_email_iff email :
  validate_email email = true
  <-> exists local_part domain tld tail,
        email = local_part +:+ "@" +:+ domain +:+ "." +:+ tld +:+ tail
        ∧ (tail = EmptyString ∨ tail = newline)
        ∧ local_part ≠ EmptyString
        ∧ all_chars name_char local_part = true
        ∧ domain ≠ EmptyString
        ∧ all_chars name_char domain = true
        ∧ tld ≠ EmptyString
        ∧ all_chars is_word tld = true.
Proof.
  unfold validate_email. rewrite fullmatch_lang. apply pattern_lang.
Qed.

Lemma validate_email_iff_witness :
  validate_email "ann@example.com" = true.
Proof.
  apply (validate_email_iff "ann@example.com").
  exists "ann", "example", "com", EmptyString.
  repeat split; try reflexivity; try discriminate. by left.
Defined.

Local Open Scope char_scope.

Lemma name_char_not_space c : name_char c = true -> PyStr.isspace c = false.
Proof. by destruct c as [[] [] [] [] [] [] [] []]. Qed.

Lemma name_char_not_at c : name_char c = true -> Ascii.eqb c "@" = false.
Proof. by destruct c as [[] [] [] [] [] [] [] []]. Qed.

Lemma is_word_name_char c : is_word c = true -> name_char c = true.
Proof. unfold name_char. by intros ->. Qed.

Lemma is_word_not_newline c : is_word c = true -> c ≠ "010".
Proof. by destruct c as [[] [] [] [] [] [] [] []]. Qed.

Local Close Scope char_scope.

Lemma all_chars_impl (p q : ascii -> bool) s :
  (forall c, p c = true -> q c = true) ->
  all_chars p s = true -> all_chars q s = true.
Proof.
  intros Hpq. induction s as [|c s IH]; [done|]. simpl.
  rewrite !andb_true_iff. intros [Hc Hs]. split; [by apply Hpq|by apply IH].
Qed.

Lemma all_chars_none p q s :
  (forall c, p c = true -> q c = false) ->
  all_chars p s = true -> PyStr.any q s = false.
Proof.
  intros Hpq. induction s as [|c s IH]; [done|]. simpl.
  rewrite andb_true_iff. intros [Hc Hs]. by rewrite (Hpq c Hc), IH.
Qed.

Lemma any_app p s t :
  PyStr.any p (s +:+ t) = PyStr.any p s || PyStr.any p t.
Proof.
  induction s as [|c s IH]; [done|].
  rewrite append_cons. simpl. rewrite IH. by destruct (p c).
Qed.

Lemma append_assoc a b c : (a +:+ b) +:+ c = a +:+ (b +:+ c).
Proof.
  induction a as [|x a IH]; [done|]. rewrite !append_cons. by f_equal.
Qed.

(** how many times the character occurs *)
Fixpoint count_char (c : ascii) (s : string) : nat :=
  match s with
  | EmptyString => O
  | String x s' => ((if Ascii.eqb x c then 1 else 0) + count_char c s')%nat
  end.

Lemma count_char_app c s t :
  count_char c (s +:+ t) = (count_char c s + count_char c t)%nat.
Proof.
  induction s as [|x s IH]; [done|].
  rewrite append_cons. simpl. rewrite IH. lia.
Qed.

Lemma count_char_none c s :
  PyStr.any (fun x => Ascii.eqb x c) s = false -> count_char c s = O.
Proof.
  induction s as [|x s IH]; [done|]. simpl.
  destruct (Ascii.eqb x c); [done|]. simpl. exact IH.
Qed.

(** X21: an address [validate_email] accepts has exactly one at sign,
    and apart from the one newline that may end it, it contains no white
    space. *)
Theorem validate_email_shape email :
  validate_email email = true ->
  count_char "@" email = 1%nat
  ∧ exists body tail,
      email = body +:+ tail
      ∧ (tail = EmptyString ∨ tail = newline)
      ∧ PyStr.any PyStr.isspace body = false.
Proof.
  unfold validate_email. rewrite fullmatch_lang.
  intros (l & d & t & tail & -> & Htail & _ & Hl & _ & Hd & _ & Ht)
    %pattern_lang.
  pose proof (all_chars_impl _ _ t is_word_name_char Ht) as Ht'.
  split.
  - rewrite !count_char_app.
    rewrite (count_char_none "@" l), (count_char_none "@" d),
      (count_char_none "@" t);
      try (by apply (all_chars_none name_char);
           [apply name_char_not_at|]).
    by destruct Htail as [-> | ->].
  - exists (l +:+ "@" +:+ d +:+ "." +:+ t), tail.
    split; [|split; [done|]].
    + by rewrite !append_assoc.
    + rewrite !any_app.
      rewrite (all_chars_none name_char PyStr.isspace l name_char_not_space Hl),
        (all_chars_none name_char PyStr.isspace d name_char_not_space Hd),
        (all_chars_none name_char PyStr.isspace t name_char_not_space Ht').
      reflexivity.
Qed.

Lemma validate_email_shape_witness :
  count_char "@" "ann@example.com" = 1%nat.
Proof.
  apply (validate_email_shape "ann@example.com"). reflexivity.
Defined.

Fixpoint last_char (s : string) : option ascii :=
  match s with
  | EmptyString => None
  | String c s' =>
      match last_char s' with
      | Some x => Some x
      | None => Some c
      end
  end.

Lemma last_char_None s : last_char s = None -> s = EmptyString.
Proof.
  destruct s as [|c s]; [done|]. simpl. by destruct (last_char s).
Qed.

Lemma last_char_app s t :
  t ≠ EmptyString -> last_char (s +:+ t) = last_char t.
Proof.
  intros Ht. induction s as [|c s IH]; [done|].
  rewrite append_cons. simpl. rewrite IH.
  destruct (last_char t) eqn:Hl; [done|].
  by apply last_char_None in Hl.
Qed.

Lemma last_char_all p s c :
  all_chars p s = true -> last_char s = Some c -> p c = true.
Proof.
  induction s as [|x s IH]; [done|]. simpl.
  rewrite andb_true_iff. intros [Hx Hs].
  destruct (last_char s) as [y|]; intros [= <-]; [by apply IH|done].
Qed.

Lemma append_not_nil_r s t : t ≠ EmptyString -> s +:+ t ≠ EmptyString.
Proof. intros Ht Heq. by apply append_eq_nil in Heq as [_ ->]. Qed.

Lemma append_newline_inj x y : x +:+ newline = y +:+ newline -> x = y.
Proof.
  revert y. induction x as [|c x IH]; intros [|c' y]; try done.
  - rewrite append_nil_l, append_cons. intros [= _ Heq].
    symmetry in Heq. by apply append_eq_nil in Heq as [_ ?].
  - rewrite append_nil_l, append_cons. intros [= _ Heq].
    by apply append_eq_nil in Heq as [_ ?].
  - rewrite !append_cons. intros [= -> Heq]. f_equal. by apply IH.
Qed.

(** X22: the [$] of the pattern lets one newline follow the address:
    for a text without newline, [validate_email] gives the same answer
    with and without a newline appended, so an address typed with a
    trailing newline is accepted. *)
Theorem validate_email_newline email :
  PyStr.any (Ascii.eqb "010") email = false ->
  validate_email (email +:+ newline) = validate_email email.
Proof.
  intros Hnone. apply eq_true_iff_eq. unfold validate_email.
  rewrite !fullmatch_lang, !pattern_lang. split.
  - intros (l & d & t & tail & Heq & Htail & Hl1 & Hl2 & Hd1 & Hd2 & Ht1 & Ht2).
    exists l, d, t, EmptyString.
    split; [|split; [by left|done]].
    destruct Htail as [-> | ->].
    + exfalso. rewrite append_empty_r in Heq.
      apply (f_equal last_char) in Heq.
      rewrite last_char_app in Heq by done.
      rewrite !last_char_app in Heq by (repeat apply append_not_nil_r; done).
      destruct (last_char t) as [c|] eqn:Hc;
        [|by apply last_char_None in Hc].
      pose proof (last_char_all _ _ _ Ht2 Hc) as Hw.
      apply is_word_not_newline in Hw. injection Heq as <-. by apply Hw.
    + rewrite append_empty_r. apply append_newline_inj.
      by rewrite Heq, !append_assoc.
  - intros (l & d & t & tail & -> & Htail & Hl1 & Hl2 & Hd1 & Hd2 & Ht1 & Ht2).
    destruct Htail as [-> | ->].
    + exists l, d, t, newline. rewrite append_empty_r.
      split; [by rewrite !append_assoc|]. repeat split; try done. by right.
    + exfalso. rewrite !any_app in Hnone.
      simpl in Hnone. by rewrite !orb_true_r in Hnone.
Qed.

Lemma validate_email_newline_witness :
  validate_email ("ann@example.com" +:+ newline)
  = validate_email "ann@example.com".
Proof.
  apply (validate_email_newline "ann@example.com"). reflexivity.
Defined.

End EmailFacts.

(** ** The pages: [login_page], [registration_page] and one run of [main]

    A run of the script is a function of what the widgets return in
    that run. [st.rerun()] ends the run; the notices are the [st.error]
    and [st.success] calls, the other output being left out. *)
Module Pages.

Import Calendar App Database.

(** a value kept in [st.session_state] *)
Inductive sval :=
| SBool (b : bool)
| SNone
| SUser (user : Identity.t)
| STasks (l : list TaskDict.t).

(** the truth value of a stored value *)
Definition truthy (v : sval) : bool :=
  match v with
  | SBool b => b
  | SNone => false
  | SUser _ => true
  | STasks l => negb (bool_decide (l = []))
  end.

Record app := mkApp
  { session_state : gmap string sval;
    db : TaskDB }.

Inductive notice :=
| Error (e : st_error)
| ErrorText (msg : string)
| ErrorOccurred (e : exn)
| OverdueTasks (n : nat)
| SuccessText (msg : string).

(** how a page ends: it goes on to what follows, it asks for a new run,
    or an exception leaves it *)
Inductive ctl :=
| Continue
| Rerun
| Raised (e : exn).

Definition page : Type := list notice * (ctl * app).

(** [st.session_state.key], read *)
Definition get_attr (a : app) (key : string) : res sval :=
  match session_state a !! key with
  | Some v => Ok v
  | None => Raise AttributeError
  end.

(** [st.session_state.key = v] *)
Definition set_attr (key : string) (v : sval) (a : app) : app :=
  mkApp (<[key := v]> (session_state a)) (db a).

(** [st.session_state.clear()] *)
Definition clear (a : app) : app := mkApp ∅ (db a).

(** [st.session_state.user[...]] *)
Definition user_item {A} (a : app) (field : Identity.t -> A) : res A :=
  match get_attr a "user" with
  | Ok (SUser user) => Ok (field user)
  | Ok _ => Raise TypeError
  | Raise e => Raise e
  end.

Definition setdefault (key : string) (v : sval) (a : app) : app :=
  match session_state a !! key with
  | Some _ => a
  | None => set_attr key v a
  end.

Definition init_session_state (a : app) : app :=
  setdefault "completed_tasks" (STasks [])
    (setdefault "active_tasks" (STasks [])
       (setdefault "show_login" (SBool true)
          (setdefault "user" SNone
             (setdefault "authenticated" (SBool false) a)))).

(** what the widgets return in one run *)
Record inputs := mkInputs
  { login_email : string;
    login_password : string;
    login_submitted : bool;
    reg_email : string;
    reg_password : string;
    reg_password_confirm : string;
    reg_submitted : bool;
    logout_button : bool;
    note_input : string;
    task_submitted : bool;
    complete_button : Z -> bool;
    reset_button : bool }.

Definition is_empty (s : string) : bool := bool_decide (s = EmptyString).

Section Pages.

Variable json_loads : string -> res json.
Variable vertex : vertex_ai.
Variable sha256_hexdigest : string -> string.
Variable real_text : string -> option string.

Definition login_page (i : inputs) (a : app) : page :=
  if login_submitted i then
    if is_empty (login_email i) || is_empty (login_password i)
    then ([ErrorText "Please fill in all fields"], (Continue, a))
    else
      match verify_user sha256_hexdigest (login_email i) (login_password i)
              (db a) with
      | (l, Ok (Some user)) =>
          ((Error <$> l) ++ [SuccessText "Login successful!"],
           (Rerun,
            set_attr "authenticated" (SBool true)
              (set_attr "user" (SUser user) a)))
      | (l, Ok None) =>
          ((Error <$> l) ++ [ErrorText "Invalid email or password"],
           (Continue, a))
      | (l, Raise e) => (Error <$> l, (Raised e, a))
      end
  else ([], (Continue, a)).

Definition registration_page (clk : clock) (i : inputs) (a : app) : page :=
  if reg_submitted i then
    if is_empty (reg_email i) || is_empty (reg_password i)
       || is_empty (reg_password_confirm i)
    then ([ErrorText "Please fill in all fields"], (Continue, a))
    else if negb (AuthForms.validate_email (reg_email i))
    then ([ErrorText "Please enter a valid email address"], (Continue, a))
    else
      let (valid_password, msg) := Auth.validate_password (reg_password i) in
      if negb valid_password
      then ([ErrorText msg], (Continue, a))
      else if negb (bool_decide (reg_password i = reg_password_confirm i))
      then ([ErrorText "Passwords do not match!"], (Continue, a))
      else
        match register_user sha256_hexdigest clk (reg_email i)
                (reg_password i) (db a) with
        | (l, Ok (true, db')) =>
            ((Error <$> l)
             ++ [SuccessText "Registration successful! Please login."],
             (Continue,
              set_attr "show_login" (SBool true)
                (mkApp (session_state a) db')))
        | (l, Ok (false, db')) =>
            ((Error <$> l) ++ [ErrorText "Email already exists!"],
             (Continue, mkApp (session_state a) db'))
        | (l, Raise e) => (Error <$> l, (Raised e, a))
        end
  else ([], (Continue, a)).

(** [p] and then, when it goes on, [q] *)
Definition and_then (p : page) (q : app -> page) : page :=
  match p with
  | (l, (Continue, a)) => let (l', r) := q a in (l ++ l', r)
  | _ => p
  end.

(** lines 170-190: the task form *)
Definition task_form_page (clk : clock) (i : inputs) (a : app) : page :=
  if task_submitted i && negb (is_empty (note_input i)) then
    match parse_task json_loads vertex (now clk) (note_input i) with
    | (l, Ok (Some task_data)) =>
        if py_truthy task_data then
          match user_item a Identity.id with
          | Ok user_id =>
              match save_task real_text clk user_id task_data (db a) with
              | (l', Ok (true, db')) =>
                  ((Error <$> l) ++ (Error <$> l')
                   ++ [SuccessText "Task added successfully!"],
                   (Rerun, mkApp (session_state a) db'))
              | (l', Ok (false, db')) =>
                  ((Error <$> l) ++ (Error <$> l')
                   ++ [Error ErrorSavingTaskUI],
                   (Continue, mkApp (session_state a) db'))
              | (l', Raise e) =>
                  ((Error <$> l) ++ (Error <$> l'), (Raised e, a))
              end
          | Raise e => (Error <$> l, (Raised e, a))
          end
        else (Error <$> l, (Continue, a))
    | (l, Ok None) => (Error <$> l, (Continue, a))
    | (l, Raise e) => (Error <$> l, (Raised e, a))
    end
  else ([], (Continue, a)).

(** lines 219-246: the buttons of the active tasks, in the order of the
    list *)
Fixpoint complete_buttons (clk : clock) (i : inputs) (user_id : Z)
    (active_tasks : list TaskDict.t) (a : app) : page :=
  match active_tasks with
  | [] => ([], (Continue, a))
  | task :: rest =>
      if complete_button i (TaskDict.id task) then
        match complete_task clk user_id (TaskDict.id task) (db a) with
        | (l, Ok (true, db')) =>
            ((Error <$> l) ++ [SuccessText "Task completed!"],
             (Rerun, mkApp (session_state a) db'))
        | (l, Ok (false, db')) =>
            and_then (Error <$> l, (Continue, mkApp (session_state a) db'))
              (complete_buttons clk i user_id rest)
        | (l, Raise e) => (Error <$> l, (Raised e, a))
        end
      else complete_buttons clk i user_id rest a
  end.

(** lines 303-307: the number of overdue tasks, shown when it is not 0 *)
Definition overdue_notice (clk : clock) (active_tasks : list TaskDict.t)
  : list notice :=
  let overdue_count :=
    length (filter (fun task =>
                      check_overdue (now clk) (TaskDict.due_date task) = true)
              active_tasks) in
  if bool_decide (0 < overdue_count)%nat then [OverdueTasks overdue_count]
  else [].

(** lines 195-307, the body of the [try] *)
Definition task_tabs (clk : clock) (i : inputs) (a : app) : page :=
  match user_item a Identity.id with
  | Ok user_id =>
      match get_tasks user_id "active" (db a),
            get_tasks user_id "completed" (db a) with
      | (l1, Ok active_tasks), (l2, Ok completed_tasks) =>
          and_then
            (and_then ((Error <$> l1) ++ (Error <$> l2), (Continue, a))
               (complete_buttons clk i user_id active_tasks))
            (fun a => (overdue_notice clk active_tasks, (Continue, a)))
      | (l1, Raise e), _ => (Error <$> l1, (Raised e, a))
      | (l1, Ok _), (l2, Raise e) =>
          ((Error <$> l1) ++ (Error <$> l2), (Raised e, a))
      end
  | Raise e => ([], (Raised e, a))
  end.

(** lines 309-313: [except Exception] *)
Definition or_reset (i : inputs) (p : page) : page :=
  match p with
  | (l, (Raised e, a)) =>
      if is_Exception e then
        (l ++ [ErrorOccurred e],
         if reset_button i then (Rerun, clear a) else (Continue, a))
      else p
  | _ => p
  end.

Definition main (clk : clock) (i : inputs) (a : app) : page :=
  let a := init_session_state a in
  match get_attr a "authenticated" with
  | Raise e => ([], (Raised e, a))
  | Ok authenticated =>
      if negb (truthy authenticated)
      then and_then (login_page i a) (registration_page clk i)
      else
        match user_item a Identity.email with
        | Raise e => ([], (Raised e, a))
        | Ok email =>
            and_then
              ([SuccessText ("Welcome " +:+ email +:+ "!")],
               if logout_button i then (Rerun, clear a) else (Continue, a))
              (fun a =>
                 and_then (task_form_page clk i a)
                   (fun a => or_reset i (task_tabs clk i a)))
        end
  end.

End Pages.

End Pages.

(** ** What the pages keep true *)
Module PagesFacts.

Import Calendar App Database Pages.

Lemma setdefault_lookup key v a k :
  session_state (setdefault key v a) !! k
  = if decide (k = key)
    then Some (default v (session_state a !! key))
    else session_state a !! k.
Proof.
  unfold setdefault. destruct (session_state a !! key) as [w|] eqn:Hw.
  - case_decide; by subst.
  - simpl. case_decide as Hk.
    + subst. apply lookup_insert_eq.
    + by apply lookup_insert_ne.
Qed.

Lemma setdefault_db key v a : db (setdefault key v a) = db a.
Proof. unfold setdefault. by destruct (session_state a !! key). Qed.

Lemma init_session_state_db a : db (init_session_state a) = db a.
Proof. unfold init_session_state. by rewrite !setdefault_db. Qed.

Lemma init_session_state_user a :
  session_state (init_session_state a) !! "user"
  = Some (default SNone (session_state a !! "user")).
Proof.
  unfold init_session_state. by rewrite !setdefault_lookup.
Qed.

Lemma init_session_state_authenticated a :
  session_state (init_session_state a) !! "authenticated"
  = Some (default (SBool false) (session_state a !! "authenticated")).
Proof.
  unfold init_session_state. by rewrite !setdefault_lookup.
Qed.

(** the user kept in the session is a stored user *)
Definition user_known (a : app) : Prop :=
  forall u, session_state a !! "user" = Some (SUser u) ->
    exists row, row ∈ users (data (db a))
                ∧ Users.id row = Identity.id u
                ∧ Users.email row = Identity.email u.

(** an authenticated session has a user *)
Definition auth_has_user (a : app) : Prop :=
  forall v, session_state a !! "authenticated" = Some v ->
    truthy v = true ->
    exists u, session_state a !! "user" = Some (SUser u).

(** every task belongs to a stored user *)
Definition owners_exist (d : database) : Prop :=
  forall t, t ∈ tasks d ->
    exists row, row ∈ users d ∧ Users.id row = Tasks.user_id t.

Lemma init_session_state_user_known a :
  user_known a -> user_known (init_session_state a).
Proof.
  intros Hk u. rewrite init_session_state_user, init_session_state_db.
  destruct (session_state a !! "user") as [v|] eqn:Hv; simpl; [|done].
  intros [= ->]. by apply Hk.
Qed.

Lemma init_session_state_auth a :
  auth_has_user a -> auth_has_user (init_session_state a).
Proof.
  intros Ha v.
  rewrite init_session_state_authenticated, init_session_state_user.
  destruct (session_state a !! "authenticated") as [w|] eqn:Hw; simpl.
  - intros [= <-] Ht. destruct (Ha w Hw Ht) as [u Hu]. exists u.
    by rewrite Hu.
  - by intros [= <-].
Qed.

(** where a page leaves the application, and how it ends *)
Definition final (p : page) : app := p.2.2.
Definition ending (p : page) : ctl := p.2.1.


Lemma and_then_final (P : app -> Prop) p q :
  P (final p) ->
  (forall a, P a -> P (final (q a))) ->
  P (final (and_then p q)).
Proof.
  intros Hp Hq. destruct p as [l [[| |e] a]]; simpl in *; try done.
  specialize (Hq a Hp). by destruct (q a).
Qed.

Lemma and_then_final_weaken (P Q : app -> Prop) p q :
  P (final p) ->
  (forall a, P a -> Q a) ->
  (forall a, P a -> Q (final (q a))) ->
  Q (final (and_then p q)).
Proof.
  intros Hp HPQ Hq. destruct p as [l [[| |e] a]]; simpl in *; auto.
  specialize (Hq a Hp). by destruct (q a).
Qed.


Lemma validate_password_true password :
  (Auth.validate_password password).1 = true ->
  Auth.validate_password password = (true, EmptyString).
Proof.
  unfold Auth.validate_password.
  repeat match goal with
         | |- context [if ?b then _ else _] => destruct b
         end; simpl; done.
Qed.

Lemma owners_exist_update date task_id user_id d :
  owners_exist d -> owners_exist (update_completed date task_id user_id d).
Proof.
  intros Ho t Ht. simpl in *.
  apply list_elem_of_fmap in Ht as (t0 & -> & Ht0).
  destruct (Ho t0 Ht0) as (row & Hrow & Hid). exists row. split; [done|].
  by case_decide; destruct t0.
Qed.

Section Facts.

Variable json_loads : string -> res json.
Variable vertex : vertex_ai.
Variable sha256_hexdigest : string -> string.
Variable real_text : string -> option string.

Local Abbreviation login_page := (login_page sha256_hexdigest).
Local Abbreviation registration_page := (registration_page sha256_hexdigest).
Local Abbreviation task_form_page :=
  (task_form_page json_loads vertex real_text).
Local Abbreviation main :=
  (main json_loads vertex sha256_hexdigest real_text).

(** every stored user has an email the pattern accepts and the digest of
    a password the policy accepts *)
Definition users_valid (d : database) : Prop :=
  forall row, row ∈ users d ->
    AuthForms.validate_email (Users.email row) = true
    ∧ exists password,
        Auth.validate_password password = (true, EmptyString)
        ∧ Users.password row = hash_password sha256_hexdigest password.

Definition inv (a : app) : Prop :=
  user_known a ∧ auth_has_user a
  ∧ owners_exist (data (db a)) ∧ users_valid (data (db a)).

Lemma verify_user_cases email password self :
  exists l,
    verify_user sha256_hexdigest email password self = (l, Ok None)
    ∨ exists row,
        verify_user sha256_hexdigest email password self
        = (l, Ok (Some (Identity.mk (Users.id row) (Users.email row))))
        ∧ row ∈ users (data self).
Proof.
  unfold verify_user, get_connection.
  destruct (connect self); simpl; [eexists; by left|].
  destruct (select_user _ _ _) as [row|] eqn:Hs; [|eexists; by left].
  exists []. right. exists row. split; [done|].
  by apply CredentialFacts.select_user_Some in Hs as [? _].
Qed.

Lemma login_page_db i a : db (final (login_page i a)) = db a.
Proof.
  unfold Pages.login_page. destruct (login_submitted i); [|done].
  destruct (_ || _); [done|].
  destruct (verify_user_cases (login_email i) (login_password i) (db a))
    as [l [-> | (row & -> & _)]]; done.
Qed.


Lemma login_page_inv i a : inv a -> inv (final (login_page i a)).
Proof.
  intros (Hk & Ha & Ho & Hu).
  unfold Pages.login_page. destruct (login_submitted i); [|done].
  destruct (_ || _); [done|].
  destruct (verify_user_cases (login_email i) (login_password i) (db a))
    as [l [-> | (row & -> & Hrow)]]; [done|].
  unfold final. simpl. split; [|split; [|done]].
  - intros u. simpl. rewrite lookup_insert_ne by done.
    rewrite lookup_insert_eq. intros [= <-]. by exists row.
  - intros v _ _. simpl. rewrite lookup_insert_ne by done.
    rewrite lookup_insert_eq. by eexists.
Qed.

Lemma register_user_cases clk email password self :
  exists l,
    register_user sha256_hexdigest clk email password self
    = (l, Ok (false, self))
    ∨ exists db',
        register_user sha256_hexdigest clk email password self
        = (l, Ok (true, with_data self db'))
        ∧ users db'
          = users (data self)
            ++ [Users.mk (next_user_id (data self)) email
                  (hash_password sha256_hexdigest password)
                  (CURRENT_TIMESTAMP clk)]
        ∧ tasks db' = tasks (data self).
Proof.
  unfold register_user, get_connection.
  destruct (connect self); simpl; [eexists; by left|].
  unfold insert_user. case_bool_decide; simpl; [eexists; by left|].
  exists []. right. by eexists.
Qed.


Lemma registration_page_effect clk i a :
  session_state (final (registration_page clk i a)) !! "user"
  = session_state a !! "user"
  ∧ session_state (final (registration_page clk i a)) !! "authenticated"
    = session_state a !! "authenticated"
  ∧ tasks (data (db (final (registration_page clk i a))))
    = tasks (data (db a)).
Proof.
  unfold Pages.registration_page. destruct (reg_submitted i); [|done].
  destruct (_ || _); [done|].
  destruct (negb (AuthForms.validate_email _)); [done|].
  destruct (Auth.validate_password _) as [valid msg].
  destruct (negb valid); [done|]. destruct (negb (bool_decide _)); [done|].
  destruct (register_user_cases clk (reg_email i) (reg_password i) (db a))
    as [l [-> | (db' & -> & _ & Ht)]]; unfold final; simpl.
  - by destruct a.
  - by rewrite !lookup_insert_ne.
Qed.

Lemma registration_page_inv clk i a :
  inv a -> inv (final (registration_page clk i a)).
Proof.
  intros (Hk & Ha & Ho & Hu).
  unfold Pages.registration_page. destruct (reg_submitted i); [|done].
  destruct (_ || _); [done|].
  destruct (AuthForms.validate_email (reg_email i)) eqn:Hemail; [|done].
  simpl.
  destruct (Auth.validate_password (reg_password i)) as [valid msg] eqn:Hpw.
  destruct valid; [|done]. simpl.
  destruct (negb (bool_decide _)); [done|].
  destruct (register_user_cases clk (reg_email i) (reg_password i) (db a))
    as [l [-> | (db' & -> & Husers & Htasks)]]; unfold final; simpl.
  - by destruct a.
  - split; [|split; [|split]].
    + intros u. simpl. rewrite lookup_insert_ne by done. intros Hs.
      destruct (Hk u Hs) as (row & Hrow & Hid). exists row.
      split; [|done]. rewrite Husers. apply elem_of_app. by left.
    + intros v. simpl. rewrite !lookup_insert_ne by done. apply Ha.
    + intros t. simpl. rewrite Htasks, Husers. intros Ht.
      destruct (Ho t Ht) as (row & Hrow & Hid). exists row.
      split; [|done]. apply elem_of_app. by left.
    + intros row. simpl. rewrite Husers. intros Hrow.
      apply elem_of_app in Hrow as [Hrow | ->%list_elem_of_singleton].
      * by apply Hu.
      * simpl. split; [done|]. exists (reg_password i). split; [|done].
        apply validate_password_true. by rewrite Hpw.
Qed.

Lemma user_item_Ok {A} a (f : Identity.t -> A) x :
  user_item a f = Ok x ->
  exists u, session_state a !! "user" = Some (SUser u) ∧ x = f u.
Proof.
  unfold user_item, get_attr.
  destruct (session_state a !! "user") as [[| |u|]|]; try done.
  intros [= <-]. by exists u.
Qed.

Lemma user_item_known {A} a (f : Identity.t -> A) u :
  session_state a !! "user" = Some (SUser u) -> user_item a f = Ok (f u).
Proof. intros Hu. unfold user_item, get_attr. by rewrite Hu. Qed.

(** the store after the task form: the one before, or one more task,
    of the user of the session *)
Lemma task_form_page_db clk i a :
  db (final (task_form_page clk i a)) = db a
  ∨ exists u row,
      session_state a !! "user" = Some (SUser u)
      ∧ Tasks.user_id row = Identity.id u
      ∧ db (final (task_form_page clk i a))
        = with_data (db a) (LifecycleFacts.with_new_task (data (db a)) row).
Proof.
  unfold Pages.task_form_page. destruct (_ && _); [|by left].
  destruct (parse_task _ _ _ _) as [l [[p|]|e]]; [|by left..].
  destruct (py_truthy p); [|by left].
  destruct (user_item a Identity.id) as [uid|e] eqn:Hu; [|by left].
  apply user_item_Ok in Hu as (u & Hu & ->).
  destruct (save_task _ _ _ _ _) as [l' [[b db']|e]] eqn:Hs; [|by left].
  apply InvariantFacts.save_task_data
    in Hs as [-> | (row & -> & _ & Hid & _)].
  - left. by destruct b.
  - right. exists u, row. by destruct b.
Qed.

Lemma task_form_page_session clk i a :
  session_state (final (task_form_page clk i a)) = session_state a.
Proof.
  unfold Pages.task_form_page. destruct (_ && _); [|done].
  destruct (parse_task _ _ _ _) as [l [[p|]|e]]; [|done..].
  destruct (py_truthy p); [|done].
  destruct (user_item a Identity.id) as [uid|e]; [|done].
  destruct (save_task _ _ _ _ _) as [l' [[[] db']|e]]; done.
Qed.

Lemma inv_same_session a a' :
  session_state a' = session_state a ->
  users (data (db a')) = users (data (db a)) ->
  owners_exist (data (db a')) ->
  inv a -> inv a'.
Proof.
  intros Hs Hu Ho (Hk & Ha & _ & Hv).
  split; [|split; [|split]]; try done.
  - intros u. rewrite Hs, Hu. apply Hk.
  - intros v. rewrite Hs. apply Ha.
  - intros row. rewrite Hu. apply Hv.
Qed.

Lemma task_form_page_inv clk i a : inv a -> inv (final (task_form_page clk i a)).
Proof.
  intros Hinv.
  pose proof (task_form_page_session clk i a) as Hs.
  destruct (task_form_page_db clk i a) as [Hd | (u & row & Hu & Hid & Hd)].
  - apply (inv_same_session a); [done|by rewrite Hd| |done].
    rewrite Hd. apply Hinv.
  - destruct Hinv as (Hk & Ha & Ho & Hv).
    apply (inv_same_session a); [done|by rewrite Hd| |done].
    rewrite Hd. simpl. intros t Ht.
    apply elem_of_app in Ht as [Ht | ->%list_elem_of_singleton].
    + by apply Ho.
    + destruct (Hk u Hu) as (r & Hr & Hrid & _). exists r.
      split; [done|congruence].
Qed.


Lemma complete_buttons_effect clk i user_id active_tasks a :
  session_state (final (complete_buttons clk i user_id active_tasks a))
  = session_state a
  ∧ users (data (db (final (complete_buttons clk i user_id active_tasks a))))
    = users (data (db a))
  ∧ (owners_exist (data (db a)) ->
     owners_exist
       (data (db (final (complete_buttons clk i user_id active_tasks a))))).
Proof.
  revert a. induction active_tasks as [|task rest IH]; intros a; [done|].
  simpl. destruct (complete_button i (TaskDict.id task)); [|apply IH].
  destruct (complete_task _ _ _ _) as [l [[b db']|e]] eqn:Hc; [|done].
  apply LifecycleFacts.complete_task_data in Hc as Hd.
  assert (users (data db') = users (data (db a))
          ∧ (owners_exist (data (db a)) -> owners_exist (data db')))
    as [Hu Ho].
  { destruct Hd as [-> | ->]; [done|]. split; [done|].
    apply owners_exist_update. }
  destruct b; [done|].
  destruct (IH (mkApp (session_state a) db')) as (Hs' & Hu' & Ho').
  unfold and_then.
  destruct (complete_buttons clk i user_id rest _) as [l' [c a']].
  unfold final in *. simpl in *. rewrite Hs', Hu'. split; [done|].
  split; [done|]. intros H. by apply Ho', Ho.
Qed.

Lemma task_tabs_effect clk i a :
  session_state (final (task_tabs clk i a)) = session_state a
  ∧ users (data (db (final (task_tabs clk i a)))) = users (data (db a))
  ∧ (owners_exist (data (db a)) ->
     owners_exist (data (db (final (task_tabs clk i a))))).
Proof.
  unfold task_tabs. destruct (user_item a Identity.id) as [uid|e]; [|done].
  destruct (get_tasks uid "active" (db a)) as [l1 [active|e]]; [|done].
  destruct (get_tasks uid "completed" (db a)) as [l2 [completed|e]]; [|done].
  unfold and_then.
  pose proof (complete_buttons_effect clk i uid active a) as H.
  by destruct (complete_buttons clk i uid active a) as [l' [[| |e] a']].
Qed.

Lemma clear_inv a : inv a -> inv (clear a).
Proof.
  intros (_ & _ & Ho & Hv). split; [|split; [|done]].
  - intros u. simpl. by rewrite lookup_empty.
  - intros v. simpl. by rewrite lookup_empty.
Qed.

Lemma or_reset_inv i p : inv (final p) -> inv (final (or_reset i p)).
Proof.
  destruct p as [l [[| |e] a]]; try done. unfold final. simpl.
  destruct (reset_button i); [apply clear_inv|done].
Qed.


Lemma task_tabs_inv clk i a : inv a -> inv (final (task_tabs clk i a)).
Proof.
  intros Hinv. destruct (task_tabs_effect clk i a) as (Hs & Hu & Ho).
  apply (inv_same_session a); [done|done| |done]. apply Ho, Hinv.
Qed.

Lemma init_session_state_inv a : inv a -> inv (init_session_state a).
Proof.
  intros (Hk & Ha & Ho & Hv). split; [|split].
  - by apply init_session_state_user_known.
  - by apply init_session_state_auth.
  - by rewrite init_session_state_db.
Qed.

Lemma main_inv clk i a : inv a -> inv (final (main clk i a)).
Proof.
  intros Hinv%init_session_state_inv. unfold Pages.main.
  destruct (get_attr (init_session_state a) "authenticated") as [v|e]; [|done].
  destruct (negb (truthy v)).
  - apply (and_then_final inv).
    + by apply login_page_inv.
    + intros a'. apply registration_page_inv.
  - destruct (user_item _ Identity.email) as [email|e]; [|done].
    apply (and_then_final inv).
    + destruct (logout_button i); [by apply clear_inv|done].
    + intros a1 H1. apply (and_then_final inv).
      * by apply task_form_page_inv.
      * intros a2 H2. apply or_reset_inv. by apply task_tabs_inv.
Qed.



(** one run of [main], or a change in what [sqlite3.connect] does *)
Inductive app_step : app -> app -> Prop :=
| app_run clk i a : app_step a (final (main clk i a))
| app_connect c a :
    app_step a (mkApp (session_state a) (mkTaskDB c (data (db a)))).

(** the states the application reaches from a fresh session and the
    empty tables *)
Definition app_reachable (a : app) : Prop :=
  exists c, rtc app_step (mkApp ∅ (mkTaskDB c init_database)) a.

Lemma app_reachable_inv a : app_reachable a -> inv a.
Proof.
  intros [c Hrtc]. revert a Hrtc.
  apply (rtc_ind_r inv (mkApp ∅ (mkTaskDB c init_database))).
  - split; [|split; [|split]].
    + intros u. simpl. by rewrite lookup_empty.
    + intros v. simpl. by rewrite lookup_empty.
    + intros t Ht. by apply elem_of_nil in Ht.
    + intros r Hr. by apply elem_of_nil in Hr.
  - intros a1 a2 _ Hstep Hinv. destruct Hstep as [clk i a1|c' a1].
    + by apply main_inv.
    + by apply (inv_same_session a1); [..|apply Hinv|].
Qed.

(** X23: in every state the application reaches, a session marked as
    authenticated holds a user, and the user of the session carries the id
    and the email of a row of the users table. *)
Theorem session_user_is_stored a v :
  app_reachable a ->
  session_state a !! "authenticated" = Some v ->
  truthy v = true ->
  exists u row,
    session_state a !! "user" = Some (SUser u)
    ∧ row ∈ users (data (db a))
    ∧ Users.id row = Identity.id u
    ∧ Users.email row = Identity.email u.
Proof.
  intros (Hk & Ha & _)%app_reachable_inv Hv Ht.
  destruct (Ha v Hv Ht) as [u Hu].
  destruct (Hk u Hu) as (row & Hrow & Hid & Hemail). by exists u, row.
Qed.

(** X24: in every state the application reaches, the [user_id] of every
    row of the tasks table is the id of a row of the users table. *)
Theorem tasks_have_owners a t :
  app_reachable a ->
  t ∈ tasks (data (db a)) ->
  exists row, row ∈ users (data (db a)) ∧ Users.id row = Tasks.user_id t.
Proof. intros (_ & _ & Ho & _)%app_reachable_inv. apply Ho. Qed.

(** X25: in every state the application reaches, every row of the users
    table has an email [validate_email] accepts, and its password column
    is [hash_password] of a password [validate_password] accepts. *)
Theorem stored_users_valid a row :
  app_reachable a ->
  row ∈ users (data (db a)) ->
  AuthForms.validate_email (Users.email row) = true
  ∧ exists password,
      Auth.validate_password password = (true, EmptyString)
      ∧ Users.password row = hash_password sha256_hexdigest password.
Proof. intros (_ & _ & _ & Hv)%app_reachable_inv. apply Hv. Qed.


Lemma main_unauthenticated clk i a :
  truthy (default (SBool false) (session_state a !! "authenticated")) = false ->
  main clk i a
  = and_then (login_page i (init_session_state a)) (registration_page clk i).
Proof.
  intros Hv. unfold Pages.main, get_attr.
  rewrite init_session_state_authenticated. by rewrite Hv.
Qed.

(** X27: a run of [main] in a session that is not authenticated leaves
    the tasks table as it was, whatever the two forms submit. *)
Theorem unauthenticated_run_keeps_tasks clk i a :
  truthy (default (SBool false) (session_state a !! "authenticated")) = false ->
  tasks (data (db (final (main clk i a)))) = tasks (data (db a)).
Proof.
  intros Hv. rewrite main_unauthenticated by done.
  apply (and_then_final
           (fun a' => tasks (data (db a')) = tasks (data (db a)))).
  - by rewrite login_page_db, init_session_state_db.
  - intros a' <-. apply registration_page_effect.
Qed.

Lemma complete_buttons_db (Q : TaskDB -> Prop) clk i user_id active_tasks a :
  (forall d task_id,
     Q d ->
     Q (with_data d
          (update_completed (strftime_dmy_hm (now clk)) task_id user_id
             (data d)))) ->
  Q (db a) ->
  Q (db (final (complete_buttons clk i user_id active_tasks a))).
Proof.
  intros HQ. revert a. induction active_tasks as [|task rest IH]; intros a Ha;
    [done|].
  simpl. destruct (complete_button i (TaskDict.id task)); [|by apply IH].
  destruct (complete_task _ _ _ _) as [l [[b db']|e]] eqn:Hc; [|done].
  assert (Q db') as Hdb'.
  { apply LifecycleFacts.complete_task_data in Hc as [-> | ->]; [done|].
    by apply HQ. }
  destruct b; [done|].
  specialize (IH (mkApp (session_state a) db') Hdb').
  unfold and_then.
  by destruct (complete_buttons clk i user_id rest _) as [l' [c a']].
Qed.

Lemma task_tabs_db (Q : TaskDB -> Prop) clk i a u :
  session_state a !! "user" = Some (SUser u) ->
  (forall d task_id,
     Q d ->
     Q (with_data d
          (update_completed (strftime_dmy_hm (now clk)) task_id
             (Identity.id u) (data d)))) ->
  Q (db a) ->
  Q (db (final (task_tabs clk i a))).
Proof.
  intros Hu HQ Ha. unfold task_tabs.
  rewrite (user_item_known a Identity.id u Hu).
  destruct (get_tasks _ "active" (db a)) as [l1 [active|e]]; [|done].
  destruct (get_tasks _ "completed" (db a)) as [l2 [completed|e]]; [|done].
  unfold and_then.
  pose proof (complete_buttons_db Q clk i (Identity.id u) active a HQ Ha) as H.
  by destruct (complete_buttons clk i _ active a) as [l' [[| |e] a']].
Qed.

(** the rows of the tasks table that are not of user [user_id] *)
Definition tasks_of_others (user_id : Z) (d : TaskDB) : list Tasks.row :=
  filter (fun r => Tasks.user_id r ≠ user_id) (tasks (data d)).

Lemma update_completed_others date task_id user_id d :
  tasks_of_others user_id (with_data d (update_completed date task_id user_id
                                          (data d)))
  = tasks_of_others user_id d.
Proof.
  unfold tasks_of_others. cbn [data with_data].
  rewrite LifecycleFacts.update_completed_tasks.
  apply LifecycleFacts.filter_fmap_fixed.
  - intros x Hx. unfold LifecycleFacts.complete_row.
    rewrite decide_False; [done|]. intros [_ Hu]. congruence.
  - intros x. unfold LifecycleFacts.complete_row.
    destruct (decide (is_task_of task_id user_id x)) as [[_ Hx]|_]; [|done].
    simpl. congruence.
Qed.

Lemma and_then_continue_final l a q :
  final (and_then (l, (Continue, a)) q) = final (q a).
Proof. unfold and_then. by destruct (q a). Qed.

Lemma or_reset_db i p : db (final (or_reset i p)) = db (final p).
Proof.
  destruct p as [l [[| |e] a]]; try done. unfold final, or_reset.
  by destruct (is_Exception e), (reset_button i).
Qed.

(** X28: a run of [main] in a session that holds a user leaves every
    row of the tasks table that belongs to another user in place and
    unchanged, whatever the widgets return. *)
Theorem run_keeps_other_users_tasks clk i a u :
  session_state a !! "user" = Some (SUser u) ->
  tasks_of_others (Identity.id u) (db (final (main clk i a)))
  = tasks_of_others (Identity.id u) (db a).
Proof.
  intros Hu.
  destruct (truthy (default (SBool false)
                      (session_state a !! "authenticated"))) eqn:Hv.
  2: { rewrite main_unauthenticated by done. unfold tasks_of_others.
       f_equal.
       apply (and_then_final
                (fun a' => tasks (data (db a')) = tasks (data (db a)))).
       - by rewrite login_page_db, init_session_state_db.
       - intros a' <-. apply registration_page_effect. }
  assert (session_state (init_session_state a) !! "user" = Some (SUser u))
    as Hu'.
  { by rewrite init_session_state_user, Hu. }
  unfold Pages.main, get_attr.
  rewrite init_session_state_authenticated, Hv. cbn [negb].
  rewrite (user_item_known _ Identity.email u Hu').
  destruct (logout_button i).
  { unfold final. simpl. by rewrite init_session_state_db. }
  rewrite and_then_continue_final.
  set (Q := fun a' =>
              session_state a' !! "user" = Some (SUser u)
              ∧ tasks_of_others (Identity.id u) (db a')
                = tasks_of_others (Identity.id u) (db a)).
  apply (and_then_final_weaken Q); [|by intros a' [_ H]|].
  - split.
    + by rewrite task_form_page_session.
    + destruct (task_form_page_db clk i (init_session_state a))
        as [-> | (u' & row & Hu'' & Hid & ->)].
      * by rewrite init_session_state_db.
      * rewrite Hu' in Hu''. injection Hu'' as <-.
        unfold tasks_of_others. simpl. rewrite init_session_state_db.
        rewrite filter_app, filter_cons_False, filter_nil by tauto.
        by rewrite app_nil_r.
  - intros a1 [Hu1 H1]. rewrite or_reset_db.
    apply (task_tabs_db
             (fun d => tasks_of_others (Identity.id u) d
                       = tasks_of_others (Identity.id u) (db a))
             clk i a1 u Hu1); [|done].
    intros d task_id Hd. by rewrite update_completed_others.
Qed.

Lemma is_empty_false s : s ≠ EmptyString -> is_empty s = false.
Proof. intros Hs. unfold is_empty. by rewrite bool_decide_eq_false_2. Qed.

Lemma validate_email_not_empty email :
  AuthForms.validate_email email = true -> email ≠ EmptyString.
Proof. by intros H ->. Qed.

Lemma validate_password_not_empty password :
  Auth.validate_password password = (true, EmptyString) ->
  password ≠ EmptyString.
Proof. by intros H ->. Qed.

(** X29: with the database reachable and nobody logged in, a run in
    which the registration form is submitted with an email the pattern
    accepts and no user has, a password the policy accepts and the same
    password as confirmation, followed by a run in which the login form
    is submitted with that email and password: the first run goes to its
    end, the second ends in [st.rerun()] with the session authenticated
    and its user the new row's id and the registered email. *)
Theorem sign_up_then_sign_in clk clk' i i' a :
  truthy (default (SBool false) (session_state a !! "authenticated")) = false ->
  connect (db a) = None ->
  login_submitted i = false ->
  reg_submitted i = true ->
  AuthForms.validate_email (reg_email i) = true ->
  Auth.validate_password (reg_password i) = (true, EmptyString) ->
  reg_password_confirm i = reg_password i ->
  (forall r, r ∈ users (data (db a)) -> Users.email r ≠ reg_email i) ->
  login_submitted i' = true ->
  login_email i' = reg_email i ->
  login_password i' = reg_password i ->
  ending (main clk i a) = Continue
  ∧ ending (main clk' i' (final (main clk i a))) = Rerun
  ∧ session_state (final (main clk' i' (final (main clk i a))))
    !! "authenticated" = Some (SBool true)
  ∧ session_state (final (main clk' i' (final (main clk i a)))) !! "user"
    = Some (SUser (Identity.mk (next_user_id (data (db a))) (reg_email i))).
Proof.
  intros Hv Hc Hl Hr Hemail Hpw Hconfirm Hfresh Hl' He' Hp'.
  pose proof (validate_email_not_empty _ Hemail) as Hne.
  pose proof (validate_password_not_empty _ Hpw) as Hnp.
  assert (main clk i a
          = ([SuccessText "Registration successful! Please login."],
             (Continue,
              set_attr "show_login" (SBool true)
                (mkApp (session_state (init_session_state a))
                   (with_data (db a)
                      (mkDatabase
                         (users (data (db a))
                          ++ [Users.mk (next_user_id (data (db a)))
                                (reg_email i)
                                (hash_password sha256_hexdigest
                                   (reg_password i))
                                (CURRENT_TIMESTAMP clk)])
                         (tasks (data (db a)))
                         (tasks_seq (data (db a))))))))) as Hrun.
  { rewrite main_unauthenticated by done.
    unfold Pages.login_page. rewrite Hl. unfold and_then.
    unfold Pages.registration_page. rewrite Hr, Hconfirm.
    rewrite !is_empty_false by done. cbn [orb].
    rewrite Hemail, Hpw. cbn [negb].
    rewrite bool_decide_eq_true_2 by done. cbn [negb].
    rewrite init_session_state_db.
    unfold register_user, get_connection. rewrite Hc. simpl.
    by rewrite CredentialFacts.insert_user_fresh. }
  rewrite Hrun. unfold final, ending. cbn [fst snd]. split; [done|].
  set (a1 := set_attr _ _ _).
  assert (truthy (default (SBool false)
                    (session_state a1 !! "authenticated")) = false) as Hv1.
  { unfold a1. simpl. rewrite lookup_insert_ne by done.
    rewrite init_session_state_authenticated. simpl.
    by destruct (session_state a !! "authenticated"). }
  rewrite main_unauthenticated by done.
  unfold Pages.login_page. rewrite Hl', He', Hp'.
  rewrite !is_empty_false by done. cbn [orb].
  rewrite init_session_state_db.
  rewrite CredentialFacts.verify_user_connected by (by unfold a1).
  unfold a1. cbn [db set_attr data with_data].
  rewrite (CredentialFacts.select_user_last (reg_email i) _ _ _ _ _ Hfresh)
    by done.
  unfold and_then.
  cbn [fst snd set_attr session_state Users.id Users.email].
  split; [reflexivity|]. split.
  - by rewrite lookup_insert_eq.
  - rewrite lookup_insert_ne by done. by rewrite lookup_insert_eq.
Qed.

(** X30: the Logout button, pressed in an authenticated session that
    holds a user, ends the run in [st.rerun()] with an empty session and
    the store as it was; the run after it, whatever it submits, does not
    change the tasks table. *)
Theorem logout_ends_session clk i a v u clk' i' :
  session_state a !! "authenticated" = Some v ->
  truthy v = true ->
  session_state a !! "user" = Some (SUser u) ->
  logout_button i = true ->
  ending (main clk i a) = Rerun
  ∧ session_state (final (main clk i a)) = ∅
  ∧ db (final (main clk i a)) = db a
  ∧ tasks (data (db (final (main clk' i' (final (main clk i a))))))
    = tasks (data (db a)).
Proof.
  intros Hv Ht Hu Hlogout.
  assert (main clk i a
          = ([SuccessText ("Welcome " +:+ Identity.email u +:+ "!")],
             (Rerun, clear (init_session_state a)))) as Hrun.
  { unfold Pages.main, get_attr.
    rewrite init_session_state_authenticated, Hv. simpl. rewrite Ht.
    cbn [negb].
    rewrite (user_item_known _ Identity.email u)
      by (by rewrite init_session_state_user, Hu).
    by rewrite Hlogout. }
  rewrite Hrun. unfold final, ending. cbn [fst snd].
  split; [done|]. split; [done|]. split.
  - apply init_session_state_db.
  - rewrite main_unauthenticated by done.
    apply (and_then_final
             (fun a' => tasks (data (db a')) = tasks (data (db a)))).
    + rewrite login_page_db, init_session_state_db. cbn [clear db].
      by rewrite init_session_state_db.
    + intros a' <-. apply registration_page_effect.
Qed.

End Facts.

(** one session, from the empty tables on *)
Definition sign_up : inputs :=
  mkInputs EmptyString EmptyString false "ann@example.com" "Passw0rd"
    "Passw0rd" true false EmptyString false (fun _ => false) false.

Definition sign_in : inputs :=
  mkInputs "ann@example.com" "Passw0rd" true EmptyString EmptyString
    EmptyString false false EmptyString false (fun _ => false) false.

Definition add_task : inputs :=
  mkInputs EmptyString EmptyString false EmptyString EmptyString EmptyString
    false false ExtractionFacts.david_note true (fun _ => false) false.

Definition log_out : inputs :=
  mkInputs EmptyString EmptyString false EmptyString EmptyString EmptyString
    false true EmptyString false (fun _ => false) false.

Definition run : clock -> inputs -> app -> page :=
  main Decoder.json_loads InvariantFacts.david_vertex
    CredentialFacts.sample_digest ApplicationFacts.no_reals.

Definition fresh : app := mkApp ∅ (mkTaskDB None init_database).

Definition signed_up : app :=
  final (run TaskStoreFacts.sample_clock sign_up fresh).

Definition signed_in : app :=
  final (run TaskStoreFacts.sample_clock sign_in signed_up).

Definition with_task : app :=
  final (run TaskStoreFacts.sample_clock add_task signed_in).

Lemma with_task_reachable :
  app_reachable Decoder.json_loads InvariantFacts.david_vertex
    CredentialFacts.sample_digest ApplicationFacts.no_reals with_task.
Proof.
  exists None.
  apply (rtc_l _ _ signed_up); [apply app_run|].
  apply (rtc_l _ _ signed_in); [apply app_run|].
  apply (rtc_l _ _ with_task); [apply app_run|].
  apply rtc_refl.
Qed.

Lemma signed_in_reachable :
  app_reachable Decoder.json_loads InvariantFacts.david_vertex
    CredentialFacts.sample_digest ApplicationFacts.no_reals signed_in.
Proof.
  exists None.
  apply (rtc_l _ _ signed_up); [apply app_run|].
  apply (rtc_l _ _ signed_in); [apply app_run|].
  apply rtc_refl.
Qed.

Lemma signed_in_session :
  session_state signed_in !! "authenticated" = Some (SBool true)
  ∧ session_state signed_in !! "user"
    = Some (SUser ApplicationFacts.ann_identity).
Proof. split; vm_compute; reflexivity. Qed.

Lemma with_task_data : data (db with_task) = data ApplicationFacts.david_store.
Proof. vm_compute. reflexivity. Qed.

Lemma session_user_is_stored_witness :
  exists u row,
    session_state signed_in !! "user" = Some (SUser u)
    ∧ row ∈ users (data (db signed_in))
    ∧ Users.id row = Identity.id u
    ∧ Users.email row = Identity.email u.
Proof.
  apply (session_user_is_stored Decoder.json_loads InvariantFacts.david_vertex
           CredentialFacts.sample_digest ApplicationFacts.no_reals
           signed_in (SBool true)).
  - apply signed_in_reachable.
  - apply signed_in_session.
  - reflexivity.
Defined.

Lemma tasks_have_owners_witness :
  exists row,
    row ∈ users (data (db with_task))
    ∧ Users.id row = Tasks.user_id ApplicationFacts.david_row.
Proof.
  apply (tasks_have_owners Decoder.json_loads InvariantFacts.david_vertex
           CredentialFacts.sample_digest ApplicationFacts.no_reals).
  - apply with_task_reachable.
  - rewrite with_task_data. simpl. apply list_elem_of_here.
Defined.

Lemma stored_users_valid_witness :
  AuthForms.validate_email "ann@example.com" = true
  ∧ exists password,
      Auth.validate_password password = (true, EmptyString)
      ∧ CredentialFacts.sample_digest "Passw0rd"
        = hash_password CredentialFacts.sample_digest password.
Proof.
  apply (stored_users_valid Decoder.json_loads InvariantFacts.david_vertex
           CredentialFacts.sample_digest ApplicationFacts.no_reals
           with_task
           (Users.mk 1 "ann@example.com"
              (CredentialFacts.sample_digest "Passw0rd")
              "2024-11-13 08:30:00")).
  - apply with_task_reachable.
  - rewrite with_task_data. simpl. apply list_elem_of_here.
Defined.


Lemma unauthenticated_run_keeps_tasks_witness :
  tasks (data (db (final (run TaskStoreFacts.sample_clock sign_up
                            (mkApp ∅ ApplicationFacts.david_store)))))
  = tasks (data (db (mkApp ∅ ApplicationFacts.david_store))).
Proof.
  apply (unauthenticated_run_keeps_tasks Decoder.json_loads
           InvariantFacts.david_vertex CredentialFacts.sample_digest
           ApplicationFacts.no_reals).
  reflexivity.
Defined.

(** Ann's session over a store that holds a task of user 2 *)
Definition beside_another : app :=
  mkApp (<["authenticated" := SBool true]>
           (<["user" := SUser ApplicationFacts.ann_identity]> ∅))
    TaskStoreFacts.sample_store.

Definition press_all : inputs :=
  mkInputs EmptyString EmptyString false EmptyString EmptyString EmptyString
    false false ExtractionFacts.david_note true (fun _ => true) true.

Lemma run_keeps_other_users_tasks_witness :
  tasks_of_others 1 (db (final (run TaskStoreFacts.sample_clock press_all
                                  beside_another)))
  = tasks_of_others 1 (db beside_another).
Proof.
  apply (run_keeps_other_users_tasks Decoder.json_loads
           InvariantFacts.david_vertex CredentialFacts.sample_digest
           ApplicationFacts.no_reals TaskStoreFacts.sample_clock press_all
           beside_another ApplicationFacts.ann_identity).
  reflexivity.
Defined.

Lemma sign_up_then_sign_in_witness :
  ending (run TaskStoreFacts.sample_clock sign_up fresh) = Continue
  ∧ ending (run TaskStoreFacts.sample_clock sign_in signed_up) = Rerun
  ∧ session_state signed_in !! "authenticated" = Some (SBool true)
  ∧ session_state signed_in !! "user"
    = Some (SUser (Identity.mk (next_user_id (data (db fresh)))
                     (reg_email sign_up))).
Proof.
  apply (sign_up_then_sign_in Decoder.json_loads InvariantFacts.david_vertex
           CredentialFacts.sample_digest ApplicationFacts.no_reals
           TaskStoreFacts.sample_clock TaskStoreFacts.sample_clock
           sign_up sign_in fresh); try reflexivity.
  intros r Hr. by apply elem_of_nil in Hr.
Defined.

Lemma logout_ends_session_witness :
  ending (run TaskStoreFacts.sample_clock log_out with_task) = Rerun
  ∧ session_state (final (run TaskStoreFacts.sample_clock log_out with_task))
    = ∅
  ∧ db (final (run TaskStoreFacts.sample_clock log_out with_task))
    = db with_task
  ∧ tasks (data (db (final (run TaskStoreFacts.sample_clock add_task
                              (final (run TaskStoreFacts.sample_clock log_out
                                        with_task))))))
    = tasks (data (db with_task)).
Proof.
  apply (logout_ends_session Decoder.json_loads InvariantFacts.david_vertex
           CredentialFacts.sample_digest ApplicationFacts.no_reals
           TaskStoreFacts.sample_clock log_out with_task (SBool true)
           ApplicationFacts.ann_identity TaskStoreFacts.sample_clock
           add_task).
  - vm_compute. reflexivity.
  - reflexivity.
  - vm_compute. reflexivity.
  - reflexivity.
Defined.

End PagesFacts.
